(** * transcribe.py: a shallow embedding and its verified properties

    The development follows the layout of [transcribe.py]:
    - [PyStr]      Python [str] values as lists of code points, [str.strip],
                   and the [d] format specifications used by the f-strings;
    - [PyFloat]    Python [float] as IEEE 754 binary64 ([SpecFloat]), with the
                   operators [//], [%], [*] and [int()] the script applies;
    - the timestamp formatters [format_srt_timestamp] and [format_timestamp];
    - [save_transcription] over an explicit file store;
    - [is_youtube_url] over a small regular-expression matcher;
    - [main] with the external collaborators (yt-dlp, moviepy, Whisper) as
      an environment of outcomes. *)

From Stdlib Require Import ZArith NArith Lia List Bool Ascii String.
From Stdlib Require Import SpecFloat.
From stdpp Require Import base tactics option list gmap.
Import ListNotations.

Local Open Scope Z_scope.

(** ** Exceptions *)

(** The exceptions the modelled code can raise; [SystemExit] is what
    [sys.exit] raises, [Failure] stands for any exception of a collaborator
    (yt-dlp, moviepy, Whisper) with its message. *)
Inductive exn :=
| ValueError
| OverflowError
| ZeroDivisionError
| OSError
| SystemExit (code : Z)
| Failure (msg : list N).

Inductive res (A : Type) :=
| Ok (a : A)
| Raise (e : exn).
Arguments Ok {A} a.
Arguments Raise {A} e.

Definition bind {A B} (r : res A) (k : A -> res B) : res B :=
  match r with Ok a => k a | Raise e => Raise e end.

Notation "'do' x <- c1 ; c2" := (bind c1 (fun x => c2))
  (at level 10, x name, c1 at level 100, c2 at level 200).

(** ** Python strings *)

Module PyStr.

(** A Python [str] is a sequence of Unicode code points. *)
Abbreviation char := N (only parsing).
Abbreviation str := (list N) (only parsing).

(** ASCII literals of the source text. *)
Definition lit (s : string) : str :=
  map N_of_ascii (list_ascii_of_string s).

Definition nl : str := [10%N].

(** [str.isspace] on one code point: the characters CPython's
    [_PyUnicode_IsWhitespace] accepts. *)
Definition isspace (c : char) : bool :=
  ((9 <=? c) && (c <=? 13) || (28 <=? c) && (c <=? 32)
   || (c =? 133) || (c =? 160) || (c =? 5760)
   || (8192 <=? c) && (c <=? 8202)
   || (c =? 8232) || (c =? 8233) || (c =? 8239) || (c =? 8287)
   || (c =? 12288))%N.

Fixpoint lstrip (s : str) : str :=
  match s with
  | c :: s' => if isspace c then lstrip s' else s
  | [] => []
  end.

Definition rstrip (s : str) : str := rev (lstrip (rev s)).

(** [s.strip()] with no argument. *)
Definition strip (s : str) : str := rstrip (lstrip s).

(** Decimal digits of a natural number, most significant first. *)
Definition digit (d : N) : char := (48 + d)%N.

Fixpoint digits_fuel (fuel : nat) (n : N) (acc : str) : str :=
  match fuel with
  | O => acc
  | S fuel' =>
      let acc' := digit (n mod 10) :: acc in
      if (n <? 10)%N then acc' else digits_fuel fuel' (n / 10)%N acc'
  end.

Definition digits (n : N) : str := digits_fuel (S (N.to_nat (N.log2 n))) n [].

(** [str(z)] for an [int]. *)
Definition str_of_int (z : Z) : str :=
  if z <? 0 then lit "-" ++ digits (Z.abs_N z) else digits (Z.abs_N z).

Definition zfill (width : nat) (s : str) : str :=
  replicate (width - length s)%nat (digit 0) ++ s.

(** The format specification [0<width>d] of an f-string field: sign first,
    then zeros up to the width, then the digits. *)
Definition format_0d (width : nat) (z : Z) : str :=
  if z <? 0 then lit "-" ++ zfill (width - 1) (digits (Z.abs_N z))
  else zfill width (digits (Z.abs_N z)).

End PyStr.

Import PyStr.
Arguments lit : simpl never.

(** ** Python floats *)

Module PyFloat.

Definition prec : Z := 53.
Definition emax : Z := 1024.

(** A Python [float] is a binary64 number. *)
Definition float := spec_float.

Definition mul : float -> float -> float := SFmul prec emax.
Definition add : float -> float -> float := SFadd prec emax.
Definition sub : float -> float -> float := SFsub prec emax.
Definition div : float -> float -> float := SFdiv prec emax.
Definition ltb : float -> float -> bool := SFltb.
Definition normalize (m e : Z) (szero : bool) : float :=
  binary_normalize prec emax m e szero.

Definition is_zero (x : float) : bool :=
  match x with S754_zero _ => true | _ => false end.

Definition sign (x : float) : bool :=
  match x with
  | S754_zero s | S754_infinity s | S754_finite s _ _ => s
  | S754_nan => false
  end.

(** [float(z)] for an integer of at most 53 bits, and the float nearest to
    the fraction [n / d]: how a decimal literal of the source is read. *)
Definition of_Z (z : Z) : float := normalize z 0 false.

Definition of_ratio (n : Z) (d : positive) : float :=
  match n with
  | Z0 => S754_zero false
  | Zpos p => div (S754_finite false p 0) (S754_finite false d 0)
  | Zneg p => div (S754_finite true p 0) (S754_finite false d 0)
  end.

Definition zero : float := S754_zero false.
Definition one : float := of_Z 1.

Definition copysign_zero (y : float) : float := S754_zero (sign y).

(** C's [fmod]: the exact remainder of the truncating division, with the
    sign of the dividend. Both operands are brought to the common exponent
    [e]; the remainder of the integer mantissas is the result's mantissa. *)
Definition fmod (x y : float) : float :=
  match x, y with
  | S754_nan, _ | _, S754_nan => S754_nan
  | S754_infinity _, _ => S754_nan
  | _, S754_zero _ => S754_nan
  | S754_zero _, _ => x
  | S754_finite _ _ _, S754_infinity _ => x
  | S754_finite sx mx ex, S754_finite _ my ey =>
      let e := Z.min ex ey in
      let X := Z.shiftl (Zpos mx) (ex - e) in
      let Y := Z.shiftl (Zpos my) (ey - e) in
      let R := X mod Y in
      normalize (if sx then - R else R) e sx
  end.

(** [math.floor] on a float, as a float. *)
Definition floor (x : float) : float :=
  match x with
  | S754_finite s m e =>
      if 0 <=? e then x
      else
        let q := Z.shiftr (Zpos m) (- e) in
        let exact := Z.shiftl q (- e) =? Zpos m in
        if s then normalize (- (if exact then q else q + 1)) 0 true
        else normalize q 0 false
  | _ => x
  end.

(** [x % y] on floats (CPython's [float_rem]). *)
Definition rem (x y : float) : res float :=
  if is_zero y then Raise ZeroDivisionError
  else
    let m := fmod x y in
    Ok (if is_zero m then copysign_zero y
        else if (match m with S754_nan => false | _ => true end)
                && negb (Bool.eqb (ltb y zero) (ltb m zero))
             then add m y
             else m).

(** [x // y] on floats (CPython's [float_floor_div] through
    [_float_div_mod]). *)
Definition floordiv (x y : float) : res float :=
  if is_zero y then Raise ZeroDivisionError
  else
    let m := fmod x y in
    let d := div (sub x m) y in
    let d :=
      if negb (is_zero m)
         && (match m with S754_nan => false | _ => true end)
         && negb (Bool.eqb (ltb y zero) (ltb m zero))
      then sub d one else d in
    Ok (if is_zero d then copysign_zero (div x y)
        else
          let f := floor d in
          if ltb (of_ratio 1 2) (sub d f) then add f one else f).

(** [int(x)]: truncation towards zero. *)
Definition to_int (x : float) : res Z :=
  match x with
  | S754_zero _ => Ok 0
  | S754_nan => Raise ValueError
  | S754_infinity _ => Raise OverflowError
  | S754_finite s m e =>
      let a := if 0 <=? e then Z.shiftl (Zpos m) e
               else Z.shiftr (Zpos m) (- e) in
      Ok (if s then - a else a)
  end.

End PyFloat.

(** ** Timestamp formatting *)

(** [format_srt_timestamp(seconds)]. *)
Definition format_srt_timestamp (seconds : PyFloat.float) : res str :=
  do h <- PyFloat.floordiv seconds (PyFloat.of_Z 3600) ;
  do hours <- PyFloat.to_int h ;
  do r <- PyFloat.rem seconds (PyFloat.of_Z 3600) ;
  do mi <- PyFloat.floordiv r (PyFloat.of_Z 60) ;
  do minutes <- PyFloat.to_int mi ;
  do s <- PyFloat.rem seconds (PyFloat.of_Z 60) ;
  do secs <- PyFloat.to_int s ;
  do f <- PyFloat.rem seconds (PyFloat.of_Z 1) ;
  do millis <- PyFloat.to_int (PyFloat.mul f (PyFloat.of_Z 1000)) ;
  Ok (format_0d 2 hours ++ lit ":" ++ format_0d 2 minutes ++ lit ":"
      ++ format_0d 2 secs ++ lit "," ++ format_0d 3 millis).



(** [datetime.timedelta(seconds=n)] for an integer [n]: the normalised pair
    of days and seconds ([0 <= seconds < 86400]); the day count is limited to
    nine digits. *)
Definition timedelta_of_seconds (n : Z) : res (Z * Z) :=
  let d := n / 86400 in
  let s := n mod 86400 in
  if (Z.abs d >? 999999999) then Raise OverflowError else Ok (d, s).

(** [timedelta.__str__] (no microseconds here). *)
Definition timedelta_str (td : Z * Z) : str :=
  let '(days, seconds) := td in
  let mm := seconds / 60 in
  let ss := seconds mod 60 in
  let hh := mm / 60 in
  let mm := mm mod 60 in
  let s := str_of_int hh ++ lit ":" ++ format_0d 2 mm ++ lit ":"
           ++ format_0d 2 ss in
  if days =? 0 then s
  else str_of_int days ++ lit " day"
       ++ (if Z.abs days =? 1 then [] else lit "s") ++ lit ", " ++ s.

(** [format_timestamp(seconds)]. *)
Definition format_timestamp (seconds : PyFloat.float) : res str :=
  do n <- PyFloat.to_int seconds ;
  do td <- timedelta_of_seconds n ;
  Ok (timedelta_str td).

(** ** JSON values and [json.dump] *)

Module Json.

(** The Python values [json] serialises. A [dict] keeps insertion order. *)
#[warnings="-register-all"]
Inductive value :=
| Null
| Bool (b : bool)
| Int (z : Z)
| Float (x : PyFloat.float)
| Str (s : str)
| List (l : list value)
| Dict (kv : list (str * value)).

Definition hex_digit (d : N) : char :=
  if (d <? 10)%N then (48 + d)%N else (87 + d)%N.

(** [ESCAPE_DCT] of [json.encoder]: the two-character escapes, and
    [\u00xx] for the other control characters. *)
Definition escape_char (c : char) : str :=
  if (c =? 92)%N then lit "\\"
  else if (c =? 34)%N then [92; 34]%N
  else if (c =? 8)%N then lit "\b"
  else if (c =? 12)%N then lit "\f"
  else if (c =? 10)%N then lit "\n"
  else if (c =? 13)%N then lit "\r"
  else if (c =? 9)%N then lit "\t"
  else if (c <? 32)%N then
    lit "\u00" ++ [hex_digit (c / 16); hex_digit (c mod 16)]
  else [c].

(** [encode_basestring]: what [ensure_ascii=False] selects. *)
Definition encode_basestring (s : str) : str :=
  [34%N] ++ concat (map escape_char s) ++ [34%N].

(** *** [float.__repr__]: the shortest decimal string that reads back as
    the same float, and of these the nearest ([_Py_dg_dtoa] in mode 0). *)

(** The exact value of a positive finite float as a fraction. *)
Definition to_fraction (m : positive) (e : Z) : Z * Z :=
  if 0 <=? e then (Z.shiftl (Zpos m) e, 1)
  else (Zpos m, Z.shiftl 1 (- e)).

Fixpoint scale_up (fuel : nat) (n d j : Z) : Z :=
  match fuel with
  | O => j
  | S fuel' => if d <=? n * 10 then j else scale_up fuel' (n * 10) d (j + 1)
  end.

(** The decimal exponent [p] of [n / d]: [10^p <= n / d < 10^(p+1)]. *)
Definition decimal_exponent (n d : Z) : Z :=
  if d <=? n then Z.of_nat (length (digits (Z.to_N (n / d)))) - 1
  else - scale_up (S (Z.to_nat (Z.log2 d))) n d 1.

(** [n / d] in units of [10^k], as a fraction again. *)
Definition in_units (n d k : Z) : Z * Z :=
  if 0 <=? k then (n, d * 10 ^ k) else (n * 10 ^ (- k), d).

(** The decimal [D * 10^k] without the zeros that end [D]: [float()] drops
    them before it rounds, and so does a carry in the digits of [repr]. *)
Fixpoint strip_zeros (fuel : nat) (D k : Z) : Z * Z :=
  match fuel with
  | O => (D, k)
  | S fuel' =>
      if (0 <? D) && (D mod 10 =? 0) then strip_zeros fuel' (D / 10) (k + 1)
      else (D, k)
  end.

Definition strip_decimal (D k : Z) : Z * Z :=
  strip_zeros (S (Z.to_nat (Z.log2 D))) D k.

(** The float nearest to [D * 10^k]: how [float(text)] reads a decimal. *)
Definition of_decimal (D k : Z) : PyFloat.float :=
  let '(D, k) := strip_decimal D k in
  if 0 <=? k then PyFloat.of_ratio (D * 10 ^ k) 1
  else PyFloat.of_ratio D (Z.to_pos (10 ^ (- k))).

Definition float_eqb (x y : PyFloat.float) : bool :=
  match x, y with
  | S754_zero a, S754_zero b => Bool.eqb a b
  | S754_infinity a, S754_infinity b => Bool.eqb a b
  | S754_nan, S754_nan => true
  | S754_finite a m e, S754_finite b m' e' =>
      Bool.eqb a b && (m =? m')%positive && (e =? e')
  | _, _ => false
  end.

(** Digit generation. With [nd] digits made, the digits are the float cut
    after them, [lo]; [hi] is one unit of the last digit above. Generation
    stops as soon as one of the two reads back as the float: with that one,
    or, when both do, with the nearer, the one with an even last digit if
    they are as near. [dtoa] leaves room for 17 digits; were none of
    them to read back, the digits would go on to the end of the decimal
    expansion of the float, which the last case gives. *)
Fixpoint shortest (fuel : nat) (nd : Z) (m : positive) (e : Z) : Z * Z :=
  let x := S754_finite false m e in
  let '(n, d) := to_fraction m e in
  match fuel with
  | O => if 0 <=? e then (n, 0) else (Zpos m * 5 ^ (- e), e)
  | S fuel' =>
      let k := decimal_exponent n d - nd + 1 in
      let '(a, b) := in_units n d k in
      let lo := (a / b, k) in
      let hi := strip_decimal (a / b + 1) k in
      let low := float_eqb (of_decimal (fst lo) (snd lo)) x in
      let high := float_eqb (of_decimal (fst hi) (snd hi)) x in
      if low && high then
        match 2 * (a mod b) ?= b with
        | Lt => lo
        | Gt => hi
        | Eq => if Z.even (a / b) then lo else hi
        end
      else if low then lo
      else if high then hi
      else shortest fuel' (nd + 1) m e
  end.

(** The layout of [repr]: fixed notation while the decimal point stays
    within [-4 < decpt <= 16], exponent notation outside. *)
Definition layout (ds : str) (decpt : Z) : str :=
  let nd := Z.of_nat (length ds) in
  if (decpt <=? -4) || (16 <? decpt) then
    take 1 ds
    ++ (if 1 <? nd then lit "." ++ drop 1 ds else [])
    ++ lit "e" ++ (if decpt - 1 <? 0 then lit "-" else lit "+")
    ++ format_0d 2 (Z.abs (decpt - 1))
  else if decpt <=? 0 then
    lit "0." ++ replicate (Z.to_nat (- decpt)) (digit 0) ++ ds
  else if nd <=? decpt then
    ds ++ replicate (Z.to_nat (decpt - nd)) (digit 0) ++ lit ".0"
  else take (Z.to_nat decpt) ds ++ lit "." ++ drop (Z.to_nat decpt) ds.

Definition repr_finite (m : positive) (e : Z) : str :=
  let '(D, k) := shortest 17 1 m e in
  let ds := digits (Z.to_N D) in
  layout ds (k + Z.of_nat (length ds)).

(** [float.__repr__] as [json] uses it ([allow_nan] is on by default). *)
Definition floatstr (x : PyFloat.float) : str :=
  match x with
  | S754_nan => lit "NaN"
  | S754_infinity false => lit "Infinity"
  | S754_infinity true => lit "-Infinity"
  | S754_zero false => lit "0.0"
  | S754_zero true => lit "-0.0"
  | S754_finite s m e => (if s then lit "-" else []) ++ repr_finite m e
  end.

Definition indent_unit : str := lit "  ".

Definition newline_indent (level : nat) : str :=
  nl ++ concat (replicate level indent_unit).

Fixpoint join (sep : str) (l : list str) : str :=
  match l with
  | [] => []
  | [x] => x
  | x :: l' => x ++ sep ++ join sep l'
  end.

(** [_iterencode] with [indent=2]: the item separator is [","] followed by
    the line break and indentation, the key separator [": "]. *)
Fixpoint encode (level : nat) (v : value) : str :=
  match v with
  | Null => lit "null"
  | Bool true => lit "true"
  | Bool false => lit "false"
  | Int z => str_of_int z
  | Float x => floatstr x
  | Str s => encode_basestring s
  | List [] => lit "[]"
  | List l =>
      lit "[" ++ newline_indent (S level)
      ++ join (lit "," ++ newline_indent (S level)) (map (encode (S level)) l)
      ++ newline_indent level ++ lit "]"
  | Dict [] => lit "{}"
  | Dict kv =>
      lit "{" ++ newline_indent (S level)
      ++ join (lit "," ++ newline_indent (S level))
           (map (fun p => encode_basestring (fst p) ++ lit ": "
                          ++ encode (S level) (snd p)) kv)
      ++ newline_indent level ++ lit "}"
  end.

(** [json.dumps(v, indent=2, ensure_ascii=False)]. *)
Definition dumps (v : value) : str := encode 0 v.

End Json.

(** ** Reading JSON back ([json.loads]) *)

Module JsonRead.

Import Json.






Definition is_digit (c : char) : bool := ((48 <=? c) && (c <=? 57))%N.

(** The characters a number token is made of. *)
Definition is_num_char (c : char) : bool :=
  (is_digit c || (c =? 43) || (c =? 45) || (c =? 46) || (c =? 101)
   || (c =? 69))%N.


(** [int(ds)] for a string of decimal digits. *)
Definition int_of_digits (ds : str) : Z :=
  fold_left (fun acc c => acc * 10 + (Z.of_N c - 48)) ds 0.








End JsonRead.


(** ** Transcription results *)

(** One element of [result["segments"]]: the keys the script reads, and the
    other keys Whisper puts there ([id], [seek], [tokens], ...). *)
Record Segment := {
  seg_start : PyFloat.float;
  seg_end : PyFloat.float;
  seg_text : str;
  seg_others : list (str * Json.value)
}.

(** The [result] dictionary of [model.transcribe]. *)
Record Transcription := {
  r_text : str;
  r_language : str;
  r_segments : list Segment
}.

(** ** Paths ([pathlib.PurePosixPath]) *)

Module Path.

Record t := { root : str; parts : list str }.

Definition slash : char := 47%N.
Definition dot : char := 46%N.

Definition str_eqb (a b : str) : bool := bool_decide (a = b).

(** [s.split(sep)] for a one-character separator. *)
Fixpoint split (sep : char) (s : str) : list str :=
  match s with
  | [] => [[]]
  | c :: s' =>
      if (c =? sep)%N then [] :: split sep s'
      else match split sep s' with
           | w :: ws => (c :: w) :: ws
           | [] => [[c]]
           end
  end.

Fixpoint leading (c : char) (s : str) : nat :=
  match s with
  | c' :: s' => if (c' =? c)%N then S (leading c s') else O
  | [] => O
  end.

(** [PurePosixPath(s)]: empty and ["."] components are dropped; exactly two
    leading slashes are kept as the root ["//"]. *)
Definition parse (s : str) : t :=
  {| root := match leading slash s with
             | O => []
             | 2%nat => [slash; slash]
             | _ => [slash]
             end;
     parts := List.filter (fun c => negb (str_eqb c [] || str_eqb c [dot]))
                (split slash s) |}.

(** [str(p)]. *)
Definition to_str (p : t) : str :=
  match root p, parts p with
  | [], [] => [dot]
  | r, ps => r ++ Json.join [slash] ps
  end.

(** [p / s]: an absolute right operand replaces the left one. *)
Definition joinpath (p : t) (s : str) : t :=
  let q := parse s in
  match root q with
  | [] => {| root := root p; parts := parts p ++ parts q |}
  | _ => q
  end.

(** [p.name]. *)
Definition name (p : t) : str := List.last (parts p) [].

(** [s.rfind(".")], as an index from the left; [None] for [-1]. *)
Fixpoint rfind_dot (s : str) : option nat :=
  match s with
  | [] => None
  | c :: s' =>
      match rfind_dot s' with
      | Some i => Some (S i)
      | None => if (c =? dot)%N then Some O else None
      end
  end.

(** [p.stem]: the name without its last suffix; a leading or a trailing dot
    starts no suffix. *)
Definition stem (p : t) : str :=
  let n := name p in
  match rfind_dot n with
  | Some i => if (0 <? i)%nat && (i <? length n - 1)%nat then take i n else n
  | None => n
  end.

(** [p.parent]. *)
Definition parent (p : t) : t :=
  {| root := root p; parts := removelast (parts p) |}.

End Path.

(** ** The world: the file store and standard output *)

(** Directories and files are keyed by their normalised path strings; the
    working directory ["."] and the root are always there. *)
Record world := {
  w_dirs : gset str;
  w_files : gmap str str;
  w_out : list str
}.

Definition is_dir (w : world) (p : Path.t) : bool :=
  match Path.parts p with
  | [] => true
  | _ => bool_decide (Path.to_str p ∈ w_dirs w)
  end.

Definition is_file (w : world) (p : Path.t) : bool :=
  bool_decide (is_Some (w_files w !! Path.to_str p)).

(** [p.exists()]. *)
Definition exists_ (w : world) (p : Path.t) : bool := is_dir w p || is_file w p.

(** Computations that read and change the world and may raise. *)
Definition io (A : Type) : Type := world -> res A * world.

Definition ret {A} (a : A) : io A := fun w => (Ok a, w).
Definition raise {A} (e : exn) : io A := fun w => (Raise e, w).
Definition iobind {A B} (c : io A) (k : A -> io B) : io B :=
  fun w => match c w with
           | (Ok a, w') => k a w'
           | (Raise e, w') => (Raise e, w')
           end.
Definition lift {A} (r : res A) : io A := fun w => (r, w).
Definition get_world : io world := fun w => (Ok w, w).

Notation "'run' x <- c1 ; c2" := (iobind c1 (fun x => c2))
  (at level 10, x name, c1 at level 100, c2 at level 200).
Notation "'exec' c1 ; c2" := (iobind c1 (fun _ => c2))
  (at level 10, c1 at level 100, c2 at level 200).

(** [try: body finally: cleanup]. *)
Definition try_finally {A} (body : io A) (cleanup : io unit) : io A :=
  fun w => match body w with
           | (r, w') => match cleanup w' with
                        | (Ok _, w'') => (r, w'')
                        | (Raise e, w'') => (Raise e, w'')
                        end
           end.

(** [print(s)]. *)
Definition print (s : str) : io unit :=
  fun w => (Ok tt, {| w_dirs := w_dirs w; w_files := w_files w;
                      w_out := w_out w ++ [s] |}).

(** [p.mkdir(exist_ok=True)]: the parent must be a directory and [p] must
    not be a file. *)
Definition mkdir_exist_ok (p : Path.t) : io unit :=
  fun w =>
    if is_dir w p then (Ok tt, w)
    else if is_file w p || negb (is_dir w (Path.parent p)) then (Raise OSError, w)
    else (Ok tt, {| w_dirs := {[ Path.to_str p ]} ∪ w_dirs w;
                    w_files := w_files w; w_out := w_out w |}).

(** [open(path, "w", encoding="utf-8")]: the file is created or truncated
    when its directory exists. *)
Definition open_w (path : str) : io unit :=
  fun w =>
    let p := Path.parse path in
    if is_dir w p || negb (is_dir w (Path.parent p)) then (Raise OSError, w)
    else (Ok tt, {| w_dirs := w_dirs w;
                    w_files := <[ Path.to_str p := [] ]> (w_files w);
                    w_out := w_out w |}).

(** [f.write(s)] on the file opened at [path]: the text is appended. The
    texts written here come from Whisper, which decodes its tokens with
    replacement characters, so the UTF-8 encoder meets no lone surrogate
    and the step does not fail on an open file. *)
Definition fwrite (path : str) (s : str) : io unit :=
  fun w =>
    let k := Path.to_str (Path.parse path) in
    match w_files w !! k with
    | Some old => (Ok tt, {| w_dirs := w_dirs w;
                             w_files := <[ k := old ++ s ]> (w_files w);
                             w_out := w_out w |})
    | None => (Raise OSError, w)
    end.

(** [os.remove(p)]. *)
Definition remove (p : Path.t) : io unit :=
  fun w =>
    if is_file w p
    then (Ok tt, {| w_dirs := w_dirs w;
                    w_files := delete (Path.to_str p) (w_files w);
                    w_out := w_out w |})
    else (Raise OSError, w).

(** ** [save_transcription] *)

(** The loop of the [srt] branch, from index [i] on. *)
Fixpoint srt_loop (f : str) (i : Z) (segs : list Segment) : io unit :=
  match segs with
  | [] => ret tt
  | segment :: rest =>
      run start_time <- lift (format_srt_timestamp (seg_start segment)) ;
      run end_time <- lift (format_srt_timestamp (seg_end segment)) ;
      exec fwrite f (str_of_int i ++ nl) ;
      exec fwrite f (start_time ++ lit " --> " ++ end_time ++ nl) ;
      exec fwrite f (strip (seg_text segment) ++ nl ++ nl) ;
      srt_loop f (i + 1) rest
  end.

(** The loop of the [vtt] branch. *)
Fixpoint vtt_loop (f : str) (segs : list Segment) : io unit :=
  match segs with
  | [] => ret tt
  | segment :: rest =>
      run start_time <- lift (format_srt_timestamp (seg_start segment)) ;
      run end_time <- lift (format_srt_timestamp (seg_end segment)) ;
      exec fwrite f (start_time ++ lit " --> " ++ end_time ++ nl) ;
      exec fwrite f (strip (seg_text segment) ++ nl ++ nl) ;
      vtt_loop f rest
  end.

(** [output_data] of the [json] branch. *)
Definition output_data (result : Transcription) : Json.value :=
  Json.Dict
    [ (lit "text", Json.Str (r_text result));
      (lit "language", Json.Str (r_language result));
      (lit "segments",
        Json.List
          (map (fun seg =>
                  Json.Dict [ (lit "start", Json.Float (seg_start seg));
                              (lit "end", Json.Float (seg_end seg));
                              (lit "text", Json.Str (seg_text seg)) ])
             (r_segments result))) ].

Definition save_transcription (result : Transcription) (output_path : str)
    (format_type : str) : io unit :=
  if Path.str_eqb format_type (lit "txt") then
    exec open_w output_path ;
    exec fwrite output_path (r_text result) ;
    print (lit "Transcription saved to " ++ output_path)
  else if Path.str_eqb format_type (lit "json") then
    exec open_w output_path ;
    exec fwrite output_path (Json.dumps (output_data result)) ;
    print (lit "Transcription with timestamps saved to " ++ output_path)
  else if Path.str_eqb format_type (lit "srt") then
    exec open_w output_path ;
    exec srt_loop output_path 1 (r_segments result) ;
    print (lit "SRT subtitle file saved to " ++ output_path)
  else if Path.str_eqb format_type (lit "vtt") then
    exec open_w output_path ;
    exec fwrite output_path (lit "WEBVTT" ++ nl ++ nl) ;
    exec vtt_loop output_path (r_segments result) ;
    print (lit "VTT subtitle file saved to " ++ output_path)
  else ret tt.

(** ** Regular expressions and [is_youtube_url] *)

Module Re.

(** The fragment of [re] syntax the pattern uses: literals, sequence,
    alternation [|] and the optional group [(...)?]. *)
Inductive regex :=
| Empty
| Chr (c : char)
| Seq (r1 r2 : regex)
| Alt (r1 r2 : regex)
| Opt (r : regex).

Fixpoint Lit (s : str) : regex :=
  match s with
  | [] => Empty
  | c :: s' => Seq (Chr c) (Lit s')
  end.

(** The ways [r] matches at the start of [s], as the rests of [s] after the
    match, in the order a backtracking matcher tries them. *)
Fixpoint match_at (r : regex) (s : str) : list str :=
  match r with
  | Empty => [s]
  | Chr c =>
      match s with
      | c' :: s' => if (c =? c')%N then [s'] else []
      | [] => []
      end
  | Seq r1 r2 => concat (map (match_at r2) (match_at r1 s))
  | Alt r1 r2 => match_at r1 s ++ match_at r2 s
  | Opt r1 => match_at r1 s ++ [s]
  end.

(** [re.search(r, s) is not None]: a match at some position of [s]. *)
Fixpoint search (r : regex) (s : str) : bool :=
  match match_at r s with
  | _ :: _ => true
  | [] => match s with
          | [] => false
          | _ :: s' => search r s'
          end
  end.

End Re.

(** [(https?://)?(www\.)?(youtube|youtu|youtube-nocookie)\.(com|be)/] *)
Definition youtube_pattern : Re.regex :=
  Re.Seq (Re.Opt (Re.Seq (Re.Lit (lit "http"))
                    (Re.Seq (Re.Opt (Re.Chr 115%N)) (Re.Lit (lit "://")))))
    (Re.Seq (Re.Opt (Re.Lit (lit "www.")))
       (Re.Seq (Re.Alt (Re.Lit (lit "youtube"))
                  (Re.Alt (Re.Lit (lit "youtu"))
                     (Re.Lit (lit "youtube-nocookie"))))
          (Re.Seq (Re.Chr 46%N)
             (Re.Seq (Re.Alt (Re.Lit (lit "com")) (Re.Lit (lit "be")))
                (Re.Chr 47%N))))).

Definition is_youtube_url (url : str) : bool := Re.search youtube_pattern url.

(** ** The collaborators *)

(** What a call of yt-dlp ends in. *)
Inductive download_outcome :=
| NotInstalled
| DownloadError (msg : str)
| Downloaded (filename : str) (data : str).

(** What moviepy's part of [extract_audio] ends in: the waveform written, or
    an exception, raised before any file was created ([partial = None]) or
    after ([write_audiofile] failing midway, [video.close()] failing). *)
Inductive extract_outcome :=
| Extracted (data : str)
| ExtractError (msg : str) (partial : option str).

(** What Whisper ends in. *)
Inductive whisper_outcome :=
| LoadError (e : exn)
| TranscribeError (e : exn)
| Transcribed (result : Transcription) (elapsed : PyFloat.float).

Record env := {
  yt_dlp : str -> str -> download_outcome;
  moviepy : str -> extract_outcome;
  whisper : option str -> str -> option str -> whisper_outcome
}.

Record args := {
  a_video_path : str;
  a_model : str;
  a_language : option str;
  a_format : str;
  a_output : option str;
  a_keep_audio : bool
}.

Definition input_dir : Path.t := Path.parse (lit "input").
Definition output_dir : Path.t := Path.parse (lit "output").

Definition setup_directories : io unit :=
  exec mkdir_exist_ok input_dir ;
  mkdir_exist_ok output_dir.

Definition put_file (path : str) (data : str) : io unit :=
  fun w => (Ok tt, {| w_dirs := w_dirs w;
                      w_files := <[ Path.to_str (Path.parse path) := data ]>
                                   (w_files w);
                      w_out := w_out w |}).

(** [download_youtube_video(url, output_dir)]: [None] on any failure. *)
Definition download_youtube_video (E : env) (url : str) (dir : Path.t)
  : io (option Path.t) :=
  match yt_dlp E url (Path.to_str dir) with
  | NotInstalled =>
      exec print (lit "Error: yt-dlp not installed. Install with: pip install yt-dlp") ;
      ret None
  | DownloadError msg =>
      exec print (lit "Downloading video from YouTube: " ++ url) ;
      exec print (lit "Error downloading YouTube video: " ++ msg) ;
      ret None
  | Downloaded filename data =>
      exec print (lit "Downloading video from YouTube: " ++ url) ;
      exec put_file filename data ;
      exec print (lit "Video downloaded to: " ++ filename) ;
      ret (Some (Path.parse filename))
  end.

(** [extract_audio(video_path, audio_path)]: every exception is caught and
    turned into [False]. *)
Definition extract_audio (E : env) (video_path audio_path : str) : io bool :=
  match moviepy E video_path with
  | Extracted data =>
      exec print (lit "Extracting audio from " ++ video_path ++ lit "...") ;
      exec put_file audio_path data ;
      exec print (lit "Audio extracted to " ++ audio_path) ;
      ret true
  | ExtractError msg partial =>
      exec print (lit "Extracting audio from " ++ video_path ++ lit "...") ;
      exec match partial with
           | Some data => put_file audio_path data
           | None => ret tt
           end ;
      exec print (lit "Error extracting audio: " ++ msg) ;
      ret false
  end.

(** [transcribe_audio(audio_path, model_size, language, output_format)]. *)
Definition transcribe_audio (E : env) (audio_path : str) (model_size : str)
    (language : option str) : io (Transcription * PyFloat.float) :=
  exec print (lit "Loading Whisper " ++ model_size ++ lit " model...") ;
  run w <- get_world ;
  match whisper E (w_files w !! Path.to_str (Path.parse audio_path))
          model_size language with
  | LoadError e => raise e
  | TranscribeError e =>
      exec print (lit "Transcribing audio (this may take a while on CPU)...") ;
      raise e
  | Transcribed result elapsed =>
      exec print (lit "Transcribing audio (this may take a while on CPU)...") ;
      ret (result, elapsed)
  end.

(** ** [main] *)

Definition rule : str := replicate 60 61%N.

(** [formats]: the four formats for ["all"], the one asked for otherwise. *)
Definition formats_of (format : str) : list str :=
  if Path.str_eqb format (lit "all")
  then [lit "txt"; lit "json"; lit "srt"; lit "vtt"]
  else [format].

(** The truth value of [args.output]: given and not empty. *)
Definition truthy (o : option str) : bool :=
  match o with
  | Some (_ :: _) => true
  | _ => false
  end.

(** [output_path] of one iteration of the saving loop. *)
Definition output_path_for (a : args) (formats : list str)
    (video_output_dir : Path.t) (video_stem : str) (fmt : str) : Path.t :=
  if truthy (a_output a) && (length formats =? 1)%nat
  then Path.parse (default [] (a_output a))
  else Path.joinpath video_output_dir
         (video_stem ++ lit "_transcription." ++ fmt).

Fixpoint save_all (a : args) (result : Transcription) (formats : list str)
    (video_output_dir : Path.t) (video_stem : str) (todo : list str)
  : io unit :=
  match todo with
  | [] => ret tt
  | fmt :: rest =>
      exec save_transcription result
             (Path.to_str (output_path_for a formats video_output_dir
                             video_stem fmt)) fmt ;
      save_all a result formats video_output_dir video_stem rest
  end.

(** The input resolved to a local file, or [sys.exit(1)]. *)
Definition resolve_input (E : env) (a : args) : io Path.t :=
  if is_youtube_url (a_video_path a) then
    exec print (lit "YouTube URL detected. Downloading video...") ;
    run video_path <- download_youtube_video E (a_video_path a) input_dir ;
    match video_path with
    | None =>
        exec print (lit "Failed to download YouTube video.") ;
        raise (SystemExit 1)
    | Some p => ret p
    end
  else
    let video_path := Path.parse (a_video_path a) in
    run w <- get_world ;
    if exists_ w video_path then ret video_path
    else
      let alt_path := Path.joinpath input_dir (a_video_path a) in
      if exists_ w alt_path then ret alt_path
      else
        exec print (lit "Error: Video file '" ++ a_video_path a
                    ++ lit "' not found!") ;
        exec print (lit "Tip: Place videos in the 'input/' folder for automatic organization.") ;
        raise (SystemExit 1).

(** The line that reports the processing time. *)
Definition time_str (elapsed : PyFloat.float) : res str :=
  do m <- PyFloat.floordiv elapsed (PyFloat.of_Z 60) ;
  do minutes <- PyFloat.to_int m ;
  do s <- PyFloat.rem elapsed (PyFloat.of_Z 60) ;
  do seconds <- PyFloat.to_int s ;
  Ok (if 0 <? minutes
      then str_of_int minutes ++ lit "m " ++ str_of_int seconds ++ lit "s"
      else str_of_int seconds ++ lit "s").

(** [main()] after [parser.parse_args()] has accepted the arguments. *)
Definition main (E : env) (a : args) : io unit :=
  exec setup_directories ;
  run video_path <- resolve_input E a ;
  let video_stem := Path.stem video_path in
  let video_output_dir := Path.joinpath output_dir video_stem in
  exec mkdir_exist_ok video_output_dir ;
  let audio_path :=
    Path.joinpath video_output_dir (video_stem ++ lit "_audio.wav") in
  exec print (nl ++ rule) ;
  exec print (lit "Video: " ++ Path.name video_path) ;
  exec print (lit "Output folder: " ++ Path.to_str video_output_dir) ;
  exec print (rule ++ nl) ;
  run extracted <- extract_audio E (Path.to_str video_path)
                     (Path.to_str audio_path) ;
  if negb extracted then raise (SystemExit 1)
  else
    try_finally
      (run tr <- transcribe_audio E (Path.to_str audio_path) (a_model a)
                   (a_language a) ;
       let '(result, elapsed) := tr in
       let formats := formats_of (a_format a) in
       exec save_all a result formats video_output_dir video_stem formats ;
       run ts <- lift (time_str elapsed) ;
       exec print (nl ++ rule) ;
       exec print ([10003%N] ++ lit " Transcription complete!") ;
       exec print (lit "  Model: " ++ a_model a) ;
       exec print (lit "  Detected language: " ++ r_language result) ;
       exec print (lit "  Processing time: " ++ ts) ;
       exec print (lit "  Output location: " ++ Path.to_str video_output_dir) ;
       exec (if a_keep_audio a
             then print (lit "  Audio saved: " ++ Path.name audio_path)
             else ret tt) ;
       print rule)
      (run w <- get_world ;
       if negb (a_keep_audio a) && exists_ w audio_path
       then exec remove audio_path ;
            print (nl ++ lit "Temporary audio file removed.")
       else ret tt).

(** * Properties *)

(** ** The format dispatch of [save_transcription] *)

Definition known_formats : list str :=
  [lit "txt"; lit "json"; lit "srt"; lit "vtt"].

(** The [choices] of the [--format] option. *)
Definition format_choices : list str :=
  [lit "txt"; lit "json"; lit "srt"; lit "vtt"; lit "all"].

Lemma str_eqb_false (a b : str) : a <> b -> Path.str_eqb a b = false.
Proof. intros H. unfold Path.str_eqb. by apply bool_decide_eq_false. Qed.

Lemma str_eqb_true (a b : str) : a = b -> Path.str_eqb a b = true.
Proof. intros H. unfold Path.str_eqb. by apply bool_decide_eq_true. Qed.

Lemma formats_of_choice (fmt f : str) :
  In fmt format_choices -> In f (formats_of fmt) -> In f known_formats.
Proof.
  unfold format_choices, formats_of, known_formats.
  intros Hc. simpl in Hc.
  destruct Hc as [<-|[<-|[<-|[<-|[<-|[]]]]]]; vm_compute; tauto.
Qed.

(** C3, as the code has it: a format outside the four leaves every branch of
    the [if]/[elif] chain untaken, so the call returns normally, with no file
    written and nothing printed; and the saving loop of [main] only passes
    formats among the four when [--format] is one of argparse's choices. *)
Theorem save_transcription_unknown_format
    (result : Transcription) (output_path format_type : str) (w : world) :
  ~ In format_type known_formats ->
  save_transcription result output_path format_type w = (Ok tt, w)
  /\ (forall fmt f, In fmt format_choices -> In f (formats_of fmt) ->
        In f known_formats).
Proof.
  intros Hn. split; [|apply formats_of_choice].
  unfold save_transcription, known_formats in *. simpl in Hn.
  rewrite !str_eqb_false; [reflexivity|..]; intros ->; tauto.
Qed.

Definition sample_result : Transcription :=
  {| r_text := lit "hello world";
     r_language := lit "en";
     r_segments :=
       [ {| seg_start := PyFloat.of_ratio 0 1;
            seg_end := PyFloat.of_ratio 12 10;
            seg_text := lit " hello ";
            seg_others := [] |};
         {| seg_start := PyFloat.of_ratio 12 10;
            seg_end := PyFloat.of_ratio 25 10;
            seg_text := lit " world ";
            seg_others := [] |} ] |}.

Definition empty_world : world :=
  {| w_dirs := ∅; w_files := ∅; w_out := [] |}.

Lemma save_transcription_unknown_format_witness :
  save_transcription sample_result (lit "out.xml") (lit "xml") empty_world
  = (Ok tt, empty_world).
Proof.
  apply (save_transcription_unknown_format sample_result (lit "out.xml")
           (lit "xml") empty_world).
  vm_compute. intuition discriminate.
Defined.

(** C3 as stated fails: with the format ["xml"] no exception is raised. *)
Lemma save_transcription_xml_no_error :
  ~ In (lit "xml") known_formats
  /\ ~ (exists e, fst (save_transcription sample_result (lit "out.xml")
                         (lit "xml") empty_world) = Raise e).
Proof.
  split.
  - vm_compute. intuition discriminate.
  - intros [e He]. vm_compute in He. discriminate.
Qed.

(** ** URL classification *)

Lemma search_here (r : Re.regex) (s : str) :
  Re.match_at r s <> [] -> Re.search r s = true.
Proof.
  intros H. destruct s; simpl; destruct (Re.match_at r _); congruence.
Qed.

(** [re.search] looks at every position: a match after any prefix counts. *)
Lemma search_skip (r : Re.regex) (pre s : str) :
  Re.search r s = true -> Re.search r (pre ++ s) = true.
Proof.
  intros H. induction pre as [|c pre IH]; [exact H|].
  simpl. destruct (Re.match_at r (c :: pre ++ s)); [exact IH|reflexivity].
Qed.

Definition schemes : list str := [[]; lit "http://"; lit "https://"].
Definition www_prefixes : list str := [[]; lit "www."].
Definition hostnames : list str :=
  [lit "youtube"; lit "youtu"; lit "youtube-nocookie"].
Definition tlds : list str := [lit "com"; lit "be"].

(** The branch of [resolve_input] that a YouTube URL takes. *)
Definition download_branch (E : env) (a : args) : io Path.t :=
  exec print (lit "YouTube URL detected. Downloading video...") ;
  run video_path <- download_youtube_video E (a_video_path a) input_dir ;
  match video_path with
  | None =>
      exec print (lit "Failed to download YouTube video.") ;
      raise (SystemExit 1)
  | Some p => ret p
  end.

(** C9: [is_youtube_url] accepts every string that holds, at any position,
    an optional scheme, an optional [www.], one of the three host names, a
    dot, [com] or [be], and a slash. A local path such as
    [my_youtube.com/clip.mp4] is therefore taken for a URL, and
    [resolve_input] hands every accepted string to the downloader without
    looking at the file store. *)
Theorem is_youtube_url_substring
    (pre scheme www host tld post : str) (E : env) (a : args) :
  In scheme schemes -> In www www_prefixes ->
  In host hostnames -> In tld tlds ->
  is_youtube_url (pre ++ scheme ++ www ++ host ++ lit "." ++ tld ++ lit "/"
                  ++ post) = true
  /\ is_youtube_url (lit "my_youtube.com/clip.mp4") = true
  /\ (is_youtube_url (a_video_path a) = true ->
      resolve_input E a = download_branch E a).
Proof.
  intros Hs Hw Hh Ht. split; [|split].
  - unfold is_youtube_url. apply search_skip, search_here.
    unfold schemes, www_prefixes, hostnames, tlds in *. simpl in Hs, Hw, Hh, Ht.
    destruct Hs as [<-|[<-|[<-|[]]]]; destruct Hw as [<-|[<-|[]]];
      destruct Hh as [<-|[<-|[<-|[]]]]; destruct Ht as [<-|[<-|[]]];
      vm_compute; discriminate.
  - reflexivity.
  - intros H. unfold resolve_input, download_branch. rewrite H. reflexivity.
Qed.

Definition sample_env : env :=
  {| yt_dlp := fun _ _ => NotInstalled;
     moviepy := fun _ => Extracted (lit "RIFF");
     whisper := fun _ _ _ => Transcribed sample_result (PyFloat.of_ratio 125 1) |}.

Definition local_clip_args : args :=
  {| a_video_path := lit "my_youtube.com/clip.mp4";
     a_model := lit "medium";
     a_language := None;
     a_format := lit "txt";
     a_output := None;
     a_keep_audio := false |}.

Lemma is_youtube_url_substring_witness :
  is_youtube_url (lit "see https://www.youtube.com/watch?v=abc") = true.
Proof.
  apply (is_youtube_url_substring (lit "see ") (lit "https://") (lit "www.")
           (lit "youtube") (lit "com") (lit "watch?v=abc")
           sample_env local_clip_args);
    vm_compute; tauto.
Defined.

(** With the clip present in the working directory and yt-dlp absent, the
    run ends in exit status 1: the local file is never looked at. *)
Example local_clip_goes_to_downloader :
  let w := {| w_dirs := {[ lit "my_youtube.com" ]};
              w_files := {[ lit "my_youtube.com/clip.mp4" := lit "video" ]};
              w_out := [] |} in
  exists_ w (Path.parse (lit "my_youtube.com/clip.mp4")) = true
  /\ fst (main sample_env local_clip_args w) = Raise (SystemExit 1).
Proof. vm_compute. split; reflexivity. Qed.

(** ** The clock string of [format_timestamp] *)

(** X22. Below one day the result is [H:MM:SS], the hours unpadded and
    the fraction of [seconds] dropped by [int()]. *)
Lemma format_timestamp_below_one_day (seconds : PyFloat.float) (n : Z) :
  PyFloat.to_int seconds = Ok n -> 0 <= n < 86400 ->
  format_timestamp seconds
  = Ok (str_of_int (n / 3600) ++ lit ":" ++ format_0d 2 (n / 60 mod 60)
        ++ lit ":" ++ format_0d 2 (n mod 60)).
Proof.
  intros Hn Hr. unfold format_timestamp. rewrite Hn. simpl.
  unfold timedelta_of_seconds.
  rewrite (Z.div_small n 86400), (Z.mod_small n 86400) by lia.
  simpl. rewrite Z.div_div by lia. reflexivity.
Qed.

Example format_timestamp_examples :
  format_timestamp (PyFloat.of_Z 0) = Ok (lit "0:00:00")
  /\ format_timestamp (PyFloat.of_Z 125) = Ok (lit "0:02:05")
  /\ format_timestamp (PyFloat.of_ratio 1259 10) = Ok (lit "0:02:05").
Proof. vm_compute. repeat split; reflexivity. Qed.

(** C4 at its failing inputs: from 86400 seconds on, [timedelta.__str__]
    puts the day count in front, so the result is not of the form
    [H:MM:SS]. *)
Theorem format_timestamp_one_day :
  format_timestamp (PyFloat.of_Z 86400) = Ok (lit "1 day, 0:00:00")
  /\ format_timestamp (PyFloat.of_Z 90000) = Ok (lit "1 day, 1:00:00")
  /\ format_timestamp (PyFloat.of_Z 172805) = Ok (lit "2 days, 0:00:05").
Proof. vm_compute. repeat split; reflexivity. Qed.

(** ** Paths *)

Lemma split_no_slash (s : str) :
  ~ In Path.slash s -> Path.split Path.slash s = [s].
Proof.
  induction s as [|c s IH]; intros H; [reflexivity|].
  simpl. destruct (N.eqb_spec c Path.slash) as [->|Hc].
  - exfalso. apply H. by left.
  - rewrite IH; [reflexivity|]. intros Hin. apply H. by right.
Qed.

(** A plain name: one path component. *)
Definition plain (s : str) : Prop :=
  ~ In Path.slash s /\ s <> [] /\ s <> [Path.dot].

Lemma parse_plain (s : str) :
  plain s -> Path.parse s = {| Path.root := []; Path.parts := [s] |}.
Proof.
  intros (Hs & Hne & Hd). unfold Path.parse.
  rewrite split_no_slash by exact Hs. simpl.
  rewrite !str_eqb_false by assumption. simpl.
  destruct s as [|c s]; [done|]. simpl.
  destruct (N.eqb_spec c Path.slash) as [->|_]; [|reflexivity].
  exfalso. apply Hs. by left.
Qed.

Lemma joinpath_plain (p : Path.t) (s : str) :
  plain s ->
  Path.joinpath p s
  = {| Path.root := Path.root p; Path.parts := Path.parts p ++ [s] |}.
Proof. intros H. unfold Path.joinpath. by rewrite parse_plain. Qed.

Lemma known_format_no_slash (f : str) :
  In f known_formats -> ~ In Path.slash f.
Proof.
  unfold known_formats. simpl.
  intros [<-|[<-|[<-|[<-|[]]]]]; vm_compute; intuition discriminate.
Qed.

Lemma transcription_name_plain (stem f : str) :
  ~ In Path.slash stem -> In f known_formats ->
  plain (stem ++ lit "_transcription." ++ f).
Proof.
  intros Hs Hf. split; [|split].
  - rewrite !in_app_iff. intros [H|[H|H]].
    + by apply Hs.
    + vm_compute in H. intuition discriminate.
    + by apply (known_format_no_slash f).
  - intros H. apply (f_equal (@length _)) in H.
    rewrite !length_app in H. simpl in H. lia.
  - intros H. apply (f_equal (@length _)) in H.
    rewrite !length_app in H. simpl in H. lia.
Qed.

(** The per-video default path, as a string. *)
Lemma default_path_string (stem f : str) :
  plain stem -> In f known_formats ->
  Path.to_str (Path.joinpath (Path.joinpath output_dir stem)
                 (stem ++ lit "_transcription." ++ f))
  = lit "output/" ++ stem ++ lit "/" ++ stem ++ lit "_transcription." ++ f.
Proof.
  intros Hp Hf.
  rewrite (joinpath_plain _ (stem ++ _))
    by (apply transcription_name_plain; [apply Hp|exact Hf]).
  rewrite joinpath_plain by exact Hp.
  unfold Path.to_str. simpl.
  destruct stem as [|c stem]; [by destruct Hp as (_ & ? & _)|].
  simpl. reflexivity.
Qed.


(** ** The destination of each rendering *)


Definition sample_args : args :=
  {| a_video_path := lit "talk.mp4";
     a_model := lit "medium";
     a_language := None;
     a_format := lit "txt";
     a_output := Some (lit "notes/talk.txt");
     a_keep_audio := false |}.



(** ** Resolving a local input *)

Lemma joinpath_input_relative (arg : str) :
  Path.leading Path.slash arg = O ->
  Path.joinpath input_dir arg = Path.parse (lit "input/" ++ arg).
Proof.
  intros H. unfold Path.joinpath, Path.parse at 1 2. rewrite H.
  unfold Path.parse. cbn. reflexivity.
Qed.

Lemma joinpath_input_absolute (arg : str) :
  Path.leading Path.slash arg <> O ->
  Path.joinpath input_dir arg = Path.parse arg.
Proof.
  intros H. unfold Path.joinpath. cbv zeta.
  unfold Path.parse at 1. cbn [Path.root].
  destruct (Path.leading Path.slash arg) as [|[|[|n]]]; [done|reflexivity..].
Qed.

(** C10, as the code has it. A relative path that does not exist as given:
    [input/<video_path>] is tried and used if it exists; when both are
    missing the run ends in exit status 1, and the directories and files
    are those [setup_directories] left, with no per-video directory made.
    An absolute path that does not exist: [input_dir / video_path] is the
    absolute path again, so nothing under [input/] is looked at and the run
    ends in exit status 1 in the same way, whatever [input/] holds. *)
Theorem resolve_local_fallback (E : env) (a : args) (w : world) :
  is_youtube_url (a_video_path a) = false ->
  exists_ w (Path.parse (a_video_path a)) = false ->
  (Path.leading Path.slash (a_video_path a) = O ->
   let alt := Path.parse (lit "input/" ++ a_video_path a) in
   (exists_ w alt = true -> resolve_input E a w = (Ok alt, w))
   /\ (exists_ w alt = false ->
       forall w0, setup_directories w0 = (Ok tt, w) ->
       exists w', main E a w0 = (Raise (SystemExit 1), w')
                  /\ w_dirs w' = w_dirs w /\ w_files w' = w_files w))
  /\ (Path.leading Path.slash (a_video_path a) <> O ->
      Path.joinpath input_dir (a_video_path a) = Path.parse (a_video_path a)
      /\ forall w0, setup_directories w0 = (Ok tt, w) ->
         exists w', main E a w0 = (Raise (SystemExit 1), w')
                    /\ w_dirs w' = w_dirs w /\ w_files w' = w_files w).
Proof.
  intros Hu Hex. split.
  - intros Hrel alt. subst alt.
    rewrite <- (joinpath_input_relative _ Hrel).
    split.
    + intros Halt. unfold resolve_input. rewrite Hu.
      unfold iobind, get_world. rewrite Hex, Halt. reflexivity.
    + intros Halt w0 Hsetup. unfold main, iobind at 1. rewrite Hsetup.
      unfold iobind at 1. unfold resolve_input. rewrite Hu.
      unfold iobind at 1, get_world. rewrite Hex, Halt.
      eexists. split; [reflexivity|]. split; reflexivity.
  - intros Habs. pose proof (joinpath_input_absolute _ Habs) as Hj.
    split; [exact Hj|].
    intros w0 Hsetup. unfold main, iobind at 1. rewrite Hsetup.
    unfold iobind at 1. unfold resolve_input. rewrite Hu.
    unfold iobind at 1, get_world. rewrite Hj, Hex.
    eexists. split; [reflexivity|]. split; reflexivity.
Qed.

Definition input_world : world :=
  {| w_dirs := {[ lit "input"; lit "output" ]};
     w_files := {[ lit "input/talk.mp4" := lit "video" ]};
     w_out := [] |}.

Definition absolute_args : args :=
  {| a_video_path := lit "/videos/talk.mp4";
     a_model := lit "medium";
     a_language := None;
     a_format := lit "txt";
     a_output := None;
     a_keep_audio := false |}.

Definition videos_world : world :=
  {| w_dirs := {[ lit "input"; lit "output"; lit "input/videos" ]};
     w_files := {[ lit "input/videos/talk.mp4" := lit "video" ]};
     w_out := [] |}.

Lemma resolve_local_fallback_witness :
  resolve_input sample_env sample_args input_world
  = (Ok (Path.parse (lit "input/talk.mp4")), input_world)
  /\ exists w', main sample_env absolute_args videos_world
                = (Raise (SystemExit 1), w')
                /\ w_dirs w' = w_dirs videos_world
                /\ w_files w' = w_files videos_world.
Proof.
  split.
  - apply (resolve_local_fallback sample_env sample_args input_world);
      vm_compute; reflexivity.
  - apply (resolve_local_fallback sample_env absolute_args
             (snd (setup_directories videos_world)));
      vm_compute; try reflexivity. discriminate.
Defined.

(** C10 as stated fails for an absolute path: [input_dir / "/v.mp4"] is
    ["/v.mp4"] again, so [input/v.mp4], though present, is not tried. *)
Lemma absolute_path_no_fallback :
  let a := {| a_video_path := lit "/v.mp4";
              a_model := lit "medium";
              a_language := None;
              a_format := lit "txt";
              a_output := None;
              a_keep_audio := false |} in
  let w := {| w_dirs := {[ lit "input"; lit "output" ]};
              w_files := {[ lit "input/v.mp4" := lit "video" ]};
              w_out := [] |} in
  is_youtube_url (a_video_path a) = false
  /\ exists_ w (Path.parse (a_video_path a)) = false
  /\ exists_ w (Path.parse (lit "input/" ++ a_video_path a)) = true
  /\ fst (main sample_env a w) = Raise (SystemExit 1).
Proof. vm_compute. repeat split; reflexivity. Qed.

(** ** The temporary waveform file *)

Lemma is_file_lookup (w : world) (p : Path.t) :
  is_file w p = false -> w_files w !! Path.to_str p = None.
Proof.
  unfold is_file. intros H. apply bool_decide_eq_false in H.
  by apply eq_None_not_Some.
Qed.

(** The [finally] clause leaves no waveform file, whatever the [try] body
    did, unless [--keep-audio] was given. *)
Lemma cleanup_removes (a : args) (audio_path : Path.t) {A} (body : io A)
    (w : world) :
  a_keep_audio a = false ->
  let cleanup :=
    (run w <- get_world ;
     if negb (a_keep_audio a) && exists_ w audio_path
     then exec remove audio_path ;
          print (nl ++ lit "Temporary audio file removed.")
     else ret tt) in
  w_files (snd (try_finally body cleanup w)) !! Path.to_str audio_path = None.
Proof.
  intros Hk cleanup. subst cleanup. unfold try_finally.
  destruct (body w) as [r w1]. unfold iobind at 1, get_world.
  rewrite Hk. simpl negb. rewrite andb_true_l.
  destruct (exists_ w1 audio_path) eqn:Hex.
  - unfold iobind, remove. destruct (is_file w1 audio_path) eqn:Hf; simpl.
    + apply lookup_delete_eq.
    + by apply is_file_lookup.
  - simpl. unfold exists_ in Hex. apply orb_false_iff in Hex as [_ Hf].
    by apply is_file_lookup.
Qed.

(** X14. Once [extract_audio] has succeeded, every way [main] ends
    (success, an error while saving, an error of Whisper) leaves no waveform
    file, unless [--keep-audio] was given. *)
Lemma audio_removed_after_extraction (E : env) (a : args)
    (w w1 w2 w3 : world) (video_path : Path.t) (data : str) :
  a_keep_audio a = false ->
  setup_directories w = (Ok tt, w1) ->
  resolve_input E a w1 = (Ok video_path, w2) ->
  mkdir_exist_ok (Path.joinpath output_dir (Path.stem video_path)) w2
  = (Ok tt, w3) ->
  moviepy E (Path.to_str video_path) = Extracted data ->
  w_files (snd (main E a w))
    !! Path.to_str (Path.joinpath (Path.joinpath output_dir (Path.stem video_path))
                      (Path.stem video_path ++ lit "_audio.wav"))
  = None.
Proof.
  intros Hk Hs Hr Hm He. unfold main.
  unfold iobind at 1. rewrite Hs.
  unfold iobind at 1. rewrite Hr.
  unfold iobind at 1. rewrite Hm.
  unfold iobind at 1, print at 1.
  unfold iobind at 1, print at 1.
  unfold iobind at 1, print at 1.
  unfold iobind at 1, print at 1.
  unfold iobind at 1, extract_audio. rewrite He.
  unfold iobind at 1 2 3, print at 1 2, put_file, ret. simpl negb. cbv iota.
  apply cleanup_removes. exact Hk.
Qed.

Definition failing_extraction : env :=
  {| yt_dlp := fun _ _ => NotInstalled;
     moviepy := fun _ => ExtractError (lit "No space left on device")
                           (Some (lit "RIFF"));
     whisper := fun _ _ _ => Transcribed sample_result (PyFloat.of_ratio 125 1) |}.

(** C5 at its failing input: moviepy fails after part of the waveform has
    been written; [main] exits with status 1 from outside the [try], and the
    file stays although [--keep-audio] was not given. *)
Theorem audio_left_after_failed_extraction :
  a_keep_audio sample_args = false
  /\ fst (main failing_extraction sample_args input_world)
     = Raise (SystemExit 1)
  /\ w_files (snd (main failing_extraction sample_args input_world))
       !! lit "output/talk/talk_audio.wav" = Some (lit "RIFF").
Proof. vm_compute. repeat split; reflexivity. Qed.

(** With the extraction done, a later failure still removes the waveform:
    here [open] raises because the directory [notes] of [--output] is
    missing. *)
Example audio_removed_on_write_error :
  fst (main sample_env sample_args input_world) = Raise OSError
  /\ w_files (snd (main sample_env sample_args input_world))
       !! lit "output/talk/talk_audio.wav" = None.
Proof. vm_compute. split; reflexivity. Qed.

(** ** The subtitle renderings *)

(** The timestamp text of a float that [format_srt_timestamp] accepts. *)
Definition stamp (x : PyFloat.float) : str :=
  match format_srt_timestamp x with
  | Ok s => s
  | Raise _ => []
  end.

Definition stampable (seg : Segment) : Prop :=
  format_srt_timestamp (seg_start seg) = Ok (stamp (seg_start seg))
  /\ format_srt_timestamp (seg_end seg) = Ok (stamp (seg_end seg)).

(** The timestamp range line of a cue. *)
Definition cue_line (seg : Segment) : str :=
  stamp (seg_start seg) ++ lit " --> " ++ stamp (seg_end seg) ++ nl.

(** One cue without its index: the range line, the stripped text, and the
    blank line. *)
Definition vtt_block (seg : Segment) : str :=
  cue_line seg ++ strip (seg_text seg) ++ nl ++ nl.

(** One SRT cue: the index line, then the rest. *)
Definition srt_block (i : Z) (seg : Segment) : str :=
  str_of_int i ++ nl ++ vtt_block seg.

Definition file_key (path : str) : str := Path.to_str (Path.parse path).

(** [open(path, "w")] succeeds: [path] is no directory and its parent is
    one. *)
Definition writable (w : world) (path : str) : Prop :=
  is_dir w (Path.parse path) = false
  /\ is_dir w (Path.parent (Path.parse path)) = true.

Definition with_file (k : str) (data : str) (w : world) : world :=
  {| w_dirs := w_dirs w; w_files := <[ k := data ]> (w_files w);
     w_out := w_out w |}.

Definition with_out (s : str) (w : world) : world :=
  {| w_dirs := w_dirs w; w_files := w_files w; w_out := w_out w ++ [s] |}.

Lemma open_w_writable (w : world) (path : str) :
  writable w path -> open_w path w = (Ok tt, with_file (file_key path) [] w).
Proof. intros [Hd Hp]. unfold open_w. rewrite Hd, Hp. reflexivity. Qed.

Lemma fwrite_open (w : world) (path old s : str) :
  w_files w !! file_key path = Some old ->
  fwrite path s w = (Ok tt, with_file (file_key path) (old ++ s) w).
Proof. intros H. unfold fwrite, file_key in *. cbv zeta. by rewrite H. Qed.

Lemma with_file_lookup (k data : str) (w : world) :
  w_files (with_file k data w) !! k = Some data.
Proof. apply lookup_insert_eq. Qed.

Lemma with_file_twice (k d1 d2 : str) (w : world) :
  with_file k d2 (with_file k d1 w) = with_file k d2 w.
Proof. unfold with_file. simpl. by rewrite insert_insert_eq. Qed.

Lemma with_file_same (k data : str) (w : world) :
  w_files w !! k = Some data -> with_file k data w = w.
Proof.
  intros H. destruct w as [d f o]. unfold with_file. simpl in *.
  by rewrite insert_id.
Qed.

(** Three writes on an open file append the three texts. *)
Lemma fwrite_open_append (w : world) (path old s : str) {A} (k : io A) :
  w_files w !! file_key path = Some old ->
  (exec fwrite path s ; k) w = k (with_file (file_key path) (old ++ s) w).
Proof. intros H. unfold iobind. by rewrite (fwrite_open w path old s). Qed.

Lemma srt_loop_appends (path : str) (segs : list Segment) :
  Forall stampable segs ->
  forall (i : Z) (old : str) (w : world),
    w_files w !! file_key path = Some old ->
    srt_loop path i segs w
    = (Ok tt,
       with_file (file_key path)
         (old ++ concat (zip_with srt_block (seqZ i (Z.of_nat (length segs))) segs))
         w).
Proof.
  induction 1 as [|seg segs [Hs He] _ IH]; intros i old w Hw.
  - simpl. rewrite app_nil_r. by rewrite with_file_same.
  - cbn [srt_loop]. unfold iobind at 1, lift at 1. rewrite Hs.
    unfold iobind at 1, lift at 1. rewrite He.
    rewrite (fwrite_open_append w path old) by exact Hw.
    erewrite (fwrite_open_append _ path) by apply with_file_lookup.
    erewrite (fwrite_open_append _ path) by apply with_file_lookup.
    erewrite IH by apply with_file_lookup.
    rewrite !with_file_twice. f_equal. f_equal.
    cbn [length]. rewrite Nat2Z.inj_succ.
    rewrite (seqZ_cons i) by lia.
    cbn [zip_with concat]. unfold srt_block, vtt_block, cue_line.
    replace (Z.succ i) with (i + 1) by lia.
    replace (Z.pred (Z.succ (Z.of_nat (length segs))))
      with (Z.of_nat (length segs)) by lia.
    by rewrite <- !app_assoc.
Qed.

Lemma vtt_loop_appends (path : str) (segs : list Segment) :
  Forall stampable segs ->
  forall (old : str) (w : world),
    w_files w !! file_key path = Some old ->
    vtt_loop path segs w
    = (Ok tt,
       with_file (file_key path) (old ++ concat (map vtt_block segs)) w).
Proof.
  induction 1 as [|seg segs [Hs He] _ IH]; intros old w Hw.
  - simpl. rewrite app_nil_r. by rewrite with_file_same.
  - cbn [vtt_loop]. unfold iobind at 1, lift at 1. rewrite Hs.
    unfold iobind at 1, lift at 1. rewrite He.
    rewrite (fwrite_open_append w path old) by exact Hw.
    erewrite (fwrite_open_append _ path) by apply with_file_lookup.
    erewrite IH by apply with_file_lookup.
    rewrite !with_file_twice. f_equal. f_equal.
    cbn [map concat]. unfold vtt_block, cue_line. by rewrite <- !app_assoc.
Qed.

(** The SRT file holds the cues numbered from 1. *)
Lemma save_srt (result : Transcription) (path : str) (w : world) :
  writable w path -> Forall stampable (r_segments result) ->
  save_transcription result path (lit "srt") w
  = (Ok tt,
     with_out (lit "SRT subtitle file saved to " ++ path)
       (with_file (file_key path)
          (concat (zip_with srt_block
                     (seqZ 1 (Z.of_nat (length (r_segments result))))
                     (r_segments result))) w)).
Proof.
  intros Hw Hs. unfold save_transcription.
  rewrite (str_eqb_false (lit "srt") (lit "txt")) by discriminate.
  rewrite (str_eqb_false (lit "srt") (lit "json")) by discriminate.
  rewrite (str_eqb_true (lit "srt") (lit "srt")) by reflexivity.
  unfold iobind at 1. rewrite open_w_writable by exact Hw.
  unfold iobind at 1.
  rewrite (srt_loop_appends path _ Hs 1 []) by apply with_file_lookup.
  rewrite with_file_twice. reflexivity.
Qed.

Lemma save_vtt (result : Transcription) (path : str) (w : world) :
  writable w path -> Forall stampable (r_segments result) ->
  save_transcription result path (lit "vtt") w
  = (Ok tt,
     with_out (lit "VTT subtitle file saved to " ++ path)
       (with_file (file_key path)
          (lit "WEBVTT" ++ nl ++ nl
           ++ concat (map vtt_block (r_segments result))) w)).
Proof.
  intros Hw Hs. unfold save_transcription.
  rewrite (str_eqb_false (lit "vtt") (lit "txt")) by discriminate.
  rewrite (str_eqb_false (lit "vtt") (lit "json")) by discriminate.
  rewrite (str_eqb_false (lit "vtt") (lit "srt")) by discriminate.
  rewrite (str_eqb_true (lit "vtt") (lit "vtt")) by reflexivity.
  unfold iobind at 1. rewrite open_w_writable by exact Hw.
  rewrite (fwrite_open_append _ path []) by apply with_file_lookup.
  unfold iobind at 1.
  erewrite (vtt_loop_appends path _ Hs) by apply with_file_lookup.
  rewrite !with_file_twice. reflexivity.
Qed.

(** * Facts about binary64 arithmetic *)

Section FloatFacts.
Import PyFloat.

Lemma digits2_pos_size (p : positive) : digits2_pos p = Pos.size p.
Proof. induction p; simpl; congruence. Qed.

Lemma Zdigits2_log2 (M : Z) : 0 < M -> Zdigits2 M = Z.log2 M + 1.
Proof.
  destruct M as [|p|p]; try lia. intros _. simpl. rewrite digits2_pos_size.
  destruct p; simpl; lia.
Qed.

Lemma log2_bounds (M : Z) : 0 < M -> 2 ^ Z.log2 M <= M < 2 ^ (Z.log2 M + 1).
Proof. intros H. pose proof (Z.log2_spec M H). lia. Qed.

Lemma log2_shift (M k : Z) : 0 < M -> 0 <= k -> Z.log2 (M * 2 ^ k) = Z.log2 M + k.
Proof. intros. rewrite Z.log2_mul_pow2; lia. Qed.

Lemma iter_pos_nat {A} (f : A -> A) (p : positive) (x : A) :
  SpecFloat.iter_pos f p x = Nat.iter (Pos.to_nat p) f x.
Proof.
  revert x. induction p as [p IH|p IH|]; intros x; cbn [SpecFloat.iter_pos].
  - rewrite !IH. rewrite Pos2Nat.inj_xI.
    replace (S (2 * Pos.to_nat p)) with (Pos.to_nat p + (Pos.to_nat p + 1))%nat by lia.
    rewrite !Nat.iter_add. simpl. reflexivity.
  - rewrite !IH. rewrite Pos2Nat.inj_xO.
    replace (2 * Pos.to_nat p)%nat with (Pos.to_nat p + Pos.to_nat p)%nat by lia.
    rewrite Nat.iter_add. reflexivity.
  - reflexivity.
Qed.

Lemma shr_1_nonneg (m : Z) (r s : bool) :
  0 <= m ->
  shr_1 {| shr_m := m; shr_r := r; shr_s := s |}
  = {| shr_m := m / 2; shr_r := Z.odd m; shr_s := r || s |}.
Proof.
  intros H. rewrite <- Z.div2_div.
  destruct m as [|[p|p|]|]; try lia; reflexivity.
Qed.

(** [n] right shifts from an exact record: the quotient, the bit just
    shifted out, and no sticky bit when nothing was lost. *)
Lemma shr_iter (M : Z) (n : nat) :
  0 <= M -> (0 < n)%nat ->
  let rec := Nat.iter n shr_1 {| shr_m := M; shr_r := false; shr_s := false |} in
  shr_m rec = M / 2 ^ Z.of_nat n
  /\ shr_r rec = Z.testbit M (Z.of_nat n - 1)
  /\ (M mod 2 ^ Z.of_nat n = 0 -> shr_r rec = false /\ shr_s rec = false).
Proof.
  intros HM Hn. induction n as [|n IH]; [lia|].
  destruct n as [|n].
  - cbn [Nat.iter]. rewrite shr_1_nonneg by lia. cbn [shr_m shr_r shr_s].
    change (Z.of_nat 1) with 1. change (2 ^ 1) with 2. change (1 - 1) with 0. split; [reflexivity|]. split.
    + symmetry. apply Z.bit0_odd.
    + intros H. split; [|reflexivity].
      rewrite Zmod_odd in H. destruct (Z.odd M); [discriminate|reflexivity].
  - specialize (IH ltac:(lia)). cbv zeta in IH.
    destruct IH as (Hm & Hr & Hs).
    cbv zeta. rewrite Nat.iter_succ.
    destruct (Nat.iter (S n) shr_1 _) as [m r s] eqn:E. simpl in Hm, Hr, Hs.
    assert (0 <= m) by (subst m; apply Z.div_pos; lia).
    rewrite shr_1_nonneg by assumption. cbn [shr_m shr_r shr_s].
    replace (Z.of_nat (S (S n))) with (Z.of_nat (S n) + 1) by lia.
    split; [|split].
    + subst m. rewrite Z.pow_add_r, Z.div_div by lia. reflexivity.
    + subst m. replace (Z.of_nat (S n) + 1 - 1) with (Z.of_nat (S n)) by lia.
      rewrite Z.testbit_odd, Z.shiftr_div_pow2 by lia. reflexivity.
    + intros Hd.
      assert (Hk : M = 2 ^ (Z.of_nat (S n) + 1) * (M / 2 ^ (Z.of_nat (S n) + 1))).
      { apply Z.div_exact; lia. }
      assert (Hlow : M mod 2 ^ Z.of_nat (S n) = 0).
      { rewrite Hk. rewrite Z.pow_add_r by lia.
        rewrite <- Z.mul_assoc, Z.mul_comm. apply Z.mod_mul. lia. }
      destruct (Hs Hlow) as [-> ->]. split; [|reflexivity].
      subst m. rewrite Hk. rewrite Z.pow_add_r by lia.
      rewrite <- Z.mul_assoc, (Z.mul_comm (2 ^ _)), Z.div_mul by lia.
      rewrite Z.pow_1_r, Z.odd_mul. reflexivity.
Qed.


Lemma shr_exact (M k e : Z) :
  0 <= M -> 0 <= k ->
  shr {| shr_m := M * 2 ^ k; shr_r := false; shr_s := false |} e k
  = ({| shr_m := M; shr_r := false; shr_s := false |}, e + k).
Proof.
  intros HM Hk. destruct k as [|p|p]; try lia.
  - simpl. rewrite Z.mul_1_r, Z.add_0_r. reflexivity.
  - unfold shr. rewrite iter_pos_nat.
    assert (H0 : 0 <= M * 2 ^ Z.pos p) by (apply Z.mul_nonneg_nonneg; lia).
    pose proof (shr_iter (M * 2 ^ Z.pos p) (Pos.to_nat p) H0
                  (Pos2Nat.is_pos p)) as Hit.
    cbv zeta in Hit. rewrite positive_nat_Z in Hit.
    destruct (Nat.iter _ _ _) as [m r s]. simpl in Hit.
    destruct Hit as (Hm & _ & Hz).
    rewrite Z.div_mul in Hm by lia.
    destruct Hz as [-> ->]; [apply Z.mod_mul; lia|]. by subst m.
Qed.

Lemma fexp_eq (e : Z) : fexp prec emax e = Z.max (e - 53) (-1074).
Proof. reflexivity. Qed.

Lemma bounded_iff (m : positive) (e : Z) :
  bounded prec emax m e = true
  <-> e = Z.max (Z.log2 (Z.pos m) + e - 52) (-1074) /\ e <= 971.
Proof.
  unfold bounded, canonical_mantissa. rewrite andb_true_iff, Z.eqb_eq, Z.leb_le.
  change (Z.pos (digits2_pos m)) with (Zdigits2 (Z.pos m)).
  rewrite Zdigits2_log2, fexp_eq by lia.
  change (emax - prec) with 971. lia.
Qed.

(** Rounding a mantissa that is a canonical one shifted left returns the
    canonical form. *)
Lemma round_aux_exact (s : bool) (m : positive) (k e : Z) :
  0 <= k -> bounded prec emax m (e + k) = true ->
  binary_round_aux prec emax s (Z.pos m * 2 ^ k) e loc_Exact
  = S754_finite s m (e + k).
Proof.
  intros Hk Hb. pose proof Hb as Hb'. apply bounded_iff in Hb' as [Hc He].
  assert (Hpos : 0 < Z.pos m * 2 ^ k) by (apply Z.mul_pos_pos; lia).
  unfold binary_round_aux, shr_fexp.
  rewrite Zdigits2_log2, log2_shift, fexp_eq by lia.
  replace (Z.max (Z.log2 (Z.pos m) + k + 1 + e - 53) (-1074) - e) with k by lia.
  cbn [shr_record_of_loc]. rewrite shr_exact by lia.
  cbn [shr_m loc_of_shr_record round_nearest_even].
  rewrite Zdigits2_log2, fexp_eq by lia.
  replace (Z.max (Z.log2 (Z.pos m) + 1 + (e + k) - 53) (-1074) - (e + k))
    with 0 by lia.
  cbn [shr_record_of_loc shr shr_m].
  change (emax - prec) with 971.
  destruct (Z.leb_spec (e + k) 971); [reflexivity|lia].
Qed.

Lemma pos_iter_xO (p d : positive) :
  Z.pos (Pos.iter xO p d) = Z.pos p * 2 ^ Z.pos d.
Proof.
  induction d as [|d IH] using Pos.peano_ind.
  - simpl. lia.
  - rewrite Pos.iter_succ, Pos2Z.inj_xO, IH, Pos2Z.inj_succ, Z.pow_succ_r; lia.
Qed.

(** ** Values in units of the least positive binary64 *)

(** Every finite binary64 is a whole multiple of [2^-1074]. *)
Definition units_of_one : Z := 2 ^ 1074.

Definition units (x : float) : Z :=
  match x with
  | S754_finite false m e => Z.pos m * 2 ^ (e + 1074)
  | _ => 0
  end.

(** Zero, or a positive finite binary64 in canonical form. *)
Definition nonneg_finite (x : float) : Prop :=
  match x with
  | S754_zero _ => True
  | S754_finite false m e => bounded prec emax m e = true
  | _ => False
  end.

(** The multiples of [2^-1074] that are binary64 numbers: at most 53
    significant bits, below [2^1024]. *)
Definition representable (n : Z) : Prop :=
  0 < n /\ Z.log2 n < 2098 /\ n mod 2 ^ Z.max (Z.log2 n - 52) 0 = 0.

Lemma normalize_units (M e : Z) :
  0 < M -> -1074 <= e -> representable (M * 2 ^ (e + 1074)) ->
  nonneg_finite (normalize M e false)
  /\ units (normalize M e false) = M * 2 ^ (e + 1074)
  /\ is_zero (normalize M e false) = false.
Proof.
  intros HM He (_ & Hlog & Hdiv).
  destruct M as [|p|p]; try lia. clear HM.
  rewrite log2_shift in Hlog, Hdiv by lia.
  unfold normalize, binary_normalize, binary_round.
  change (Z.pos (digits2_pos p)) with (Zdigits2 (Z.pos p)).
  rewrite Zdigits2_log2, fexp_eq by lia.
  remember (Z.max (Z.log2 (Z.pos p) + 1 + e - 53) (-1074)) as ec eqn:Hec.
  unfold shl_align. destruct (ec - e) as [|d|d] eqn:Hd.
  - (* already at the canonical exponent *)
    assert (Hb : bounded prec emax p (e + 0) = true).
    { apply bounded_iff. lia. }
    pose proof (round_aux_exact false p 0 e ltac:(lia) Hb) as Hr.
    rewrite Z.mul_1_r in Hr. rewrite Hr. rewrite Z.add_0_r in *.
    simpl. auto.
  - (* the mantissa carries [ec - e] trailing zeros *)
    assert (Hz : Z.pos p mod 2 ^ (ec - e) = 0).
    { replace (Z.max (Z.log2 (Z.pos p) + (e + 1074) - 52) 0) with (ec + 1074) in Hdiv by lia.
      replace (ec + 1074) with ((e + 1074) + (ec - e)) in Hdiv by lia.
      rewrite (Z.pow_add_r 2 (e + 1074) (ec - e)) in Hdiv by lia.
      rewrite (Z.mul_comm (2 ^ (e + 1074))) in Hdiv.
      rewrite Z.mul_mod_distr_r in Hdiv by lia.
      apply Z.mul_eq_0_l in Hdiv; lia. }
    apply Z.div_exact in Hz; [|lia].
    set (q := Z.pos p / 2 ^ (ec - e)) in *.
    assert (Hq : 0 < q) by nia.
    destruct q as [|m|m] eqn:Eq; try lia.
    assert (Hlq : Z.log2 (Z.pos p) = Z.log2 (Z.pos m) + (ec - e)).
    { rewrite Hz, Z.mul_comm. apply log2_shift; lia. }
    assert (Hb : bounded prec emax m (e + (ec - e)) = true).
    { apply bounded_iff. lia. }
    pose proof (round_aux_exact false m (ec - e) e ltac:(lia) Hb) as Hr.
    rewrite (Z.mul_comm (Z.pos m)), <- Hz in Hr. rewrite Hr.
    replace (e + (ec - e)) with ec in * by lia.
    cbn [nonneg_finite units is_zero]. split; [exact Hb|]. split; [|reflexivity].
    rewrite Hz. replace (ec + 1074) with ((ec - e) + (e + 1074)) by lia.
    rewrite (Z.pow_add_r 2 (ec - e) (e + 1074)) by lia. ring.
  - (* the mantissa is shifted left to the canonical exponent *)
    assert (Hb : bounded prec emax (Pos.iter xO p d) (ec + 0) = true).
    { apply bounded_iff. rewrite pos_iter_xO, log2_shift by lia. lia. }
    pose proof (round_aux_exact false _ 0 ec ltac:(lia) Hb) as Hr.
    rewrite Z.mul_1_r in Hr. rewrite Hr. rewrite Z.add_0_r in *.
    cbn [nonneg_finite units is_zero]. split; [exact Hb|]. split; [|reflexivity].
    rewrite pos_iter_xO.
    replace (e + 1074) with (Z.pos d + (ec + 1074)) by lia.
    rewrite (Z.pow_add_r 2 (Z.pos d) (ec + 1074)) by lia. ring.
Qed.


Lemma bounded_facts (m : positive) (e : Z) :
  bounded prec emax m e = true ->
  -1074 <= e <= 971 /\ Z.log2 (Z.pos m) <= 52 /\ Z.pos m < 2 ^ 53
  /\ e + 1074 = Z.max (Z.log2 (Z.pos m) + e + 1022) 0.
Proof.
  intros H. apply bounded_iff in H as [Hc He].
  assert (Z.log2 (Z.pos m) <= 52) by lia.
  repeat split; try lia.
  apply Z.log2_lt_pow2; lia.
Qed.

Lemma units_nonneg (x : float) : 0 <= units x.
Proof. destruct x as [| | |[] m e]; simpl; try lia. Qed.

Lemma to_int_units (x : float) :
  nonneg_finite x -> to_int x = Ok (units x / units_of_one).
Proof.
  destruct x as [s|s| |[] m e]; cbn [nonneg_finite to_int units];
    try tauto; intros H.
  apply bounded_facts in H as (He & _). f_equal. unfold units_of_one.
  destruct (Z.leb_spec 0 e).
  - rewrite Z.shiftl_mul_pow2, Z.pow_add_r, Z.mul_assoc, Z.div_mul by lia.
    reflexivity.
  - rewrite Z.shiftr_div_pow2 by lia.
    replace 1074 with ((e + 1074) + - e) at 2 by lia.
    rewrite (Z.pow_add_r 2 (e + 1074) (- e)) by lia.
    rewrite (Z.mul_comm (Z.pos m)), Z.div_mul_cancel_l by lia. reflexivity.
Qed.

Lemma representable_small (R k : Z) :
  0 < R < 2 ^ 53 -> 0 <= k -> Z.log2 R + k < 2098 -> representable (R * 2 ^ k).
Proof.
  intros HR Hk Hl. unfold representable. rewrite log2_shift by lia.
  assert (Z.log2 R <= 52).
  { assert (Z.log2 R < 53) by (apply Z.log2_lt_pow2; lia). lia. }
  split; [apply Z.mul_pos_pos; lia|]. split; [lia|].
  set (j := Z.max (Z.log2 R + k - 52) 0).
  replace k with ((k - j) + j) by lia.
  rewrite (Z.pow_add_r 2 (k - j) j), Z.mul_assoc by lia.
  apply Z.mod_mul. lia.
Qed.

Lemma finite_representable (m : positive) (e : Z) :
  bounded prec emax m e = true -> representable (Z.pos m * 2 ^ (e + 1074)).
Proof.
  intros H. apply bounded_facts in H as (He & Hl & Hm & _).
  apply representable_small; lia.
Qed.

(** [fmod] is exact: in units, the remainder of the division. *)
Lemma fmod_units (x y : float) :
  nonneg_finite x -> nonneg_finite y -> 0 < units y ->
  nonneg_finite (fmod x y) /\ units (fmod x y) = units x mod units y.
Proof.
  intros Hx Hy Hpos.
  destruct y as [sy|sy| |[] my ey]; simpl in Hy, Hpos; try tauto; try lia.
  destruct x as [sx|sx| |[] mx ex]; simpl in Hx; try tauto.
  pose proof (bounded_facts _ _ Hx) as (Hex & _ & Hmx & _).
  pose proof (bounded_facts _ _ Hy) as (Hey & _ & Hmy & _).
  cbn [fmod units]. cbv zeta.
  set (e := Z.min ex ey).
  rewrite !Z.shiftl_mul_pow2 by lia.
  set (X := Z.pos mx * 2 ^ (ex - e)).
  set (Y := Z.pos my * 2 ^ (ey - e)).
  assert (HY : 0 < Y) by (apply Z.mul_pos_pos; lia).
  assert (HX : 0 < X) by (apply Z.mul_pos_pos; lia).
  assert (HUx : Z.pos mx * 2 ^ (ex + 1074) = X * 2 ^ (e + 1074)).
  { unfold X. replace (ex + 1074) with ((ex - e) + (e + 1074)) by lia.
    rewrite (Z.pow_add_r 2 (ex - e) (e + 1074)) by lia. ring. }
  assert (HUy : Z.pos my * 2 ^ (ey + 1074) = Y * 2 ^ (e + 1074)).
  { unfold Y. replace (ey + 1074) with ((ey - e) + (e + 1074)) by lia.
    rewrite (Z.pow_add_r 2 (ey - e) (e + 1074)) by lia. ring. }
  rewrite HUx, HUy, Z.mul_mod_distr_r by lia.
  pose proof (Z.mod_pos_bound X Y HY) as HR.
  assert (HR53 : X mod Y < 2 ^ 53).
  { destruct (Z.le_ge_cases ex ey).
    - assert (X = Z.pos mx).
      { unfold X. replace (ex - e) with 0 by lia. lia. }
      pose proof (Z.mod_le X Y ltac:(lia) HY). lia.
    - assert (Y = Z.pos my).
      { unfold Y. replace (ey - e) with 0 by lia. lia. }
      lia. }
  destruct (Z.eq_dec (X mod Y) 0) as [H0|H0].
  - rewrite H0. simpl. split; [exact I|reflexivity].
  - assert (Hrep : representable (X mod Y * 2 ^ (e + 1074))).
    { apply representable_small; try lia.
      assert (Z.log2 (X mod Y) < 53) by (apply Z.log2_lt_pow2; lia). lia. }
    pose proof (normalize_units (X mod Y) e ltac:(lia) ltac:(lia) Hrep)
      as (Hf & Hu & _).
    split; assumption.
Qed.

Lemma nonneg_finite_cases (x : float) :
  nonneg_finite x ->
  (exists s, x = S754_zero s)
  \/ (exists m e, x = S754_finite false m e /\ bounded prec emax m e = true).
Proof.
  destruct x as [s|s| |[] m e]; simpl; try tauto; eauto.
Qed.

(** [x % y] for a positive [y]. *)
Lemma rem_units (x y : float) :
  nonneg_finite x -> nonneg_finite y -> 0 < units y ->
  exists r, rem x y = Ok r /\ nonneg_finite r
            /\ units r = units x mod units y.
Proof.
  intros Hx Hy Hpos.
  destruct (fmod_units x y Hx Hy Hpos) as (Hf & Hu).
  destruct y as [sy|sy| |[] my ey]; simpl in Hy, Hpos; try tauto; try lia.
  unfold rem. cbn [is_zero].
  destruct (nonneg_finite_cases _ Hf) as [[s Hz]|(m & e & Hm & Hb)].
  - rewrite Hz in *. cbn [is_zero]. eexists. split; [reflexivity|].
    split; [exact I|]. simpl in Hu. simpl. exact Hu.
  - rewrite Hm in *. cbn [is_zero]. eexists. split; [reflexivity|].
    simpl. split; [exact Hb|exact Hu].
Qed.


Lemma units_pos_finite (m : positive) (e : Z) :
  bounded prec emax m e = true -> 0 < units (S754_finite false m e).
Proof.
  intros H. apply bounded_facts in H as (He & _). simpl.
  apply Z.mul_pos_pos; [lia|]. apply Z.pow_pos_nonneg; lia.
Qed.

Lemma units_zero_is_zero (x : float) :
  nonneg_finite x -> units x = 0 -> is_zero x = true.
Proof.
  destruct x as [s|s| |[] m e]; simpl; try tauto. intros H Hu.
  pose proof (units_pos_finite m e H). simpl in *. lia.
Qed.

Lemma is_zero_units (x : float) : is_zero x = true -> units x = 0.
Proof. destruct x; simpl; congruence. Qed.

Lemma ltb_zero_nonneg (x : float) : nonneg_finite x -> ltb x zero = false.
Proof. destruct x as [s|s| |[] m e]; simpl; tauto. Qed.

Lemma representable_canonical (n : Z) :
  representable n ->
  exists m e, bounded prec emax m e = true /\ Z.pos m * 2 ^ (e + 1074) = n.
Proof.
  intros Hr. pose proof Hr as (Hpos & _).
  assert (Hn : n = n * 2 ^ (-1074 + 1074)) by (simpl; lia).
  rewrite Hn in Hr.
  destruct (normalize_units n (-1074) Hpos ltac:(lia) Hr) as (Hf & Hu & Hz).
  destruct (nonneg_finite_cases _ Hf) as [[s E]|(m & e & E & Hb)].
  - rewrite E in Hz. discriminate.
  - exists m, e. split; [exact Hb|]. rewrite E in Hu. simpl in Hu. lia.
Qed.

Lemma shl_align_fst (m : positive) (e ez : Z) :
  ez <= e -> Z.pos (fst (shl_align m e ez)) = Z.pos m * 2 ^ (e - ez).
Proof.
  intros H. unfold shl_align. destruct (ez - e) as [|d|d] eqn:Hd; simpl.
  - replace (e - ez) with 0 by lia. lia.
  - lia.
  - rewrite pos_iter_xO. replace (e - ez) with (Z.pos d) by lia. reflexivity.
Qed.

(** A subtraction whose result is a binary64 number is exact. *)
Lemma sub_units (x y : float) :
  nonneg_finite x -> nonneg_finite y -> units y <= units x ->
  units x - units y = 0 \/ representable (units x - units y) ->
  nonneg_finite (sub x y) /\ units (sub x y) = units x - units y.
Proof.
  intros Hx Hy Hle Hrep.
  destruct (nonneg_finite_cases _ Hy) as [[sy ->]|(my & ey & -> & Hby)];
    destruct (nonneg_finite_cases _ Hx) as [[sx ->]|(mx & ex & -> & Hbx)].
  - destruct sx, sy; simpl; auto.
  - simpl. split; [exact Hbx|lia].
  - pose proof (units_pos_finite _ _ Hby). simpl in *. lia.
  - pose proof (bounded_facts _ _ Hbx) as (Hex & _).
    pose proof (bounded_facts _ _ Hby) as (Hey & _).
    unfold sub, SFsub. cbn [cond_Zopp units] in *.
    set (ez := Z.min ex ey).
    rewrite !shl_align_fst by lia.
    assert (HUx : Z.pos mx * 2 ^ (ex + 1074)
                  = Z.pos mx * 2 ^ (ex - ez) * 2 ^ (ez + 1074)).
    { replace (ex + 1074) with ((ex - ez) + (ez + 1074)) by lia.
      rewrite (Z.pow_add_r 2 (ex - ez) (ez + 1074)) by lia. ring. }
    assert (HUy : Z.pos my * 2 ^ (ey + 1074)
                  = Z.pos my * 2 ^ (ey - ez) * 2 ^ (ez + 1074)).
    { replace (ey + 1074) with ((ey - ez) + (ez + 1074)) by lia.
      rewrite (Z.pow_add_r 2 (ey - ez) (ez + 1074)) by lia. ring. }
    rewrite HUx, HUy in *. rewrite <- Z.mul_sub_distr_r in *.
    set (D := Z.pos mx * 2 ^ (ex - ez) - Z.pos my * 2 ^ (ey - ez)) in *.
    assert (Hp : 0 < 2 ^ (ez + 1074)) by (apply Z.pow_pos_nonneg; lia).
    assert (HD : 0 <= D) by nia.
    destruct (Z.eq_dec D 0) as [H0|H0].
    + rewrite H0. simpl. auto.
    + destruct Hrep as [Hrep|Hrep]; [nia|].
      fold (normalize D ez false).
      destruct (normalize_units D ez ltac:(lia) ltac:(lia) Hrep)
        as (Hf & Hu & _).
      auto.
Qed.

(** A division with a whole quotient below [2^53] is exact. *)
Lemma div_units (x y : float) (q : Z) :
  nonneg_finite x -> nonneg_finite y -> 0 < units y ->
  units x = q * units y -> 0 <= q < 2 ^ 53 ->
  nonneg_finite (div x y) /\ units (div x y) = q * units_of_one.
Proof.
  intros Hx Hy Hpos Hq Hq53.
  destruct (nonneg_finite_cases _ Hy) as [[sy ->]|(my & ey & -> & Hby)];
    [simpl in Hpos; lia|].
  destruct (nonneg_finite_cases _ Hx) as [[sx ->]|(mx & ex & -> & Hbx)].
  { simpl in *. assert (q = 0) by nia. subst q. simpl. auto. }
  pose proof (units_pos_finite _ _ Hbx) as HUx.
  assert (Hq0 : 0 < q) by nia.
  pose proof (bounded_facts _ _ Hbx) as (Hex & Hlx & _).
  pose proof (bounded_facts _ _ Hby) as (Hey & Hly & _).
  (* the canonical form of the quotient *)
  assert (Hrq : representable (q * 2 ^ 1074)).
  { apply representable_small; try lia.
    assert (Z.log2 q < 53) by (apply Z.log2_lt_pow2; lia). lia. }
  destruct (representable_canonical _ Hrq) as (m & ec & Hb & Hm).
  pose proof (bounded_facts _ _ Hb) as (Hec & Hlm & _ & Hcan).
  assert (Hlq : Z.log2 (Z.pos m) + ec = Z.log2 q).
  { assert (H1 : Z.log2 (Z.pos m * 2 ^ (ec + 1074)) = Z.log2 (q * 2 ^ 1074))
      by (f_equal; exact Hm).
    rewrite !log2_shift in H1 by lia. lia. }
  (* the exponents of the operands against the size of the quotient *)
  cbn [units] in Hq, HUx, Hpos.
  assert (Hlog : Z.log2 q <= Z.log2 (Z.pos mx) + ex - (Z.log2 (Z.pos my) + ey)
                 <= Z.log2 q + 1).
  { assert (H1 : Z.log2 (Z.pos mx * 2 ^ (ex + 1074))
                 = Z.log2 (q * (Z.pos my * 2 ^ (ey + 1074))))
      by (f_equal; exact Hq).
    rewrite log2_shift in H1 by lia.
    pose proof (Z.log2_mul_below q (Z.pos my * 2 ^ (ey + 1074)) Hq0 Hpos).
    pose proof (Z.log2_mul_above q (Z.pos my * 2 ^ (ey + 1074))
                  ltac:(lia) ltac:(lia)).
    rewrite log2_shift in * by lia. lia. }
  unfold div, SFdiv, SFdiv_core_binary.
  rewrite !Zdigits2_log2, fexp_eq by lia.
  set (e' := Z.min (Z.max (Z.log2 (Z.pos mx) + 1 + ex
                           - (Z.log2 (Z.pos my) + 1 + ey) - 53) (-1074))
               (ex - ey)).
  assert (Hq52 : Z.log2 q <= 52).
  { assert (Z.log2 q < 53) by (apply Z.log2_lt_pow2; lia). lia. }
  assert (He' : e' <= ec /\ e' <= 0 /\ e' <= ex - ey /\ -2045 <= e')
    by (unfold e'; lia).
  set (s := ex - ey - e').
  assert (Hs : 0 <= s) by (unfold s; lia).
  assert (Hm' : match s with
                | Z.pos _ => Z.pos mx ≪ s
                | 0 => Z.pos mx
                | Z.neg _ => 0
                end = Z.pos mx * 2 ^ s).
  { clearbody s.
    destruct s as [|p|p];
      [simpl; lia | rewrite Z.shiftl_mul_pow2 by lia; reflexivity | lia]. }
  rewrite Hm'.
  (* the scaled dividend is the quotient times the divisor *)
  assert (Hexact : Z.pos mx * 2 ^ s = q * 2 ^ (- e') * Z.pos my).
  { apply (Z.mul_reg_r _ _ (2 ^ (ey + 1074 + e' + 2045)));
      [apply Z.pow_nonzero; lia|].
    transitivity (Z.pos mx * 2 ^ (ex + 1074) * 2 ^ 2045).
    - rewrite <- !Z.mul_assoc. f_equal. rewrite <- !Z.pow_add_r by lia.
      f_equal. lia.
    - rewrite Hq. rewrite <- !Z.mul_assoc. f_equal.
      rewrite (Z.mul_comm (Z.pos my)), !Z.mul_assoc.
      rewrite <- (Z.mul_assoc _ (Z.pos my)), (Z.mul_comm (Z.pos my)).
      rewrite !Z.mul_assoc. f_equal.
      rewrite <- !Z.pow_add_r by lia. f_equal. lia. }
  rewrite Hexact.
  assert (Hdm : Z.div_eucl (q * 2 ^ (- e') * Z.pos my) (Z.pos my)
                = (q * 2 ^ (- e'), 0)).
  { pose proof (Z.div_eucl_eq (q * 2 ^ (- e') * Z.pos my) (Z.pos my) ltac:(lia)).
    pose proof (Z.mod_mul (q * 2 ^ (- e')) (Z.pos my) ltac:(lia)) as Hmod.
    pose proof (Z.div_mul (q * 2 ^ (- e')) (Z.pos my) ltac:(lia)) as Hdiv.
    unfold Z.modulo, Z.div in Hmod, Hdiv.
    destruct (Z.div_eucl _ _) as [a b]. simpl in *. congruence. }
  rewrite Hdm.
  assert (Hloc : new_location (Z.pos my) 0 = loc_Exact).
  { unfold new_location, new_location_even, new_location_odd.
    destruct (Z.even (Z.pos my)); reflexivity. }
  rewrite Hloc.
  (* the quotient's mantissa is the canonical one shifted left *)
  assert (Hqm : q * 2 ^ (- e') = Z.pos m * 2 ^ (ec - e')).
  { apply (Z.mul_reg_r _ _ (2 ^ 1074)); [apply Z.pow_nonzero; lia|].
    rewrite <- (Z.mul_assoc (Z.pos m)), <- Z.pow_add_r by lia.
    replace (ec - e' + 1074) with ((ec + 1074) + - e') by lia.
    rewrite (Z.pow_add_r 2 (ec + 1074) (- e')), Z.mul_assoc, Hm by lia. ring. }
  rewrite Hqm.
  simpl xorb.
  pose proof (round_aux_exact false m (ec - e') e' ltac:(lia)) as Hr.
  replace (e' + (ec - e')) with ec in Hr by lia.
  rewrite (Hr Hb). cbn [nonneg_finite units]. split; [exact Hb|].
  unfold units_of_one. exact Hm.
Qed.


(** [math.floor] of a whole number below [2^53]. *)
Lemma floor_units (d : float) (j : Z) :
  nonneg_finite d -> units d = j * units_of_one -> 0 <= j < 2 ^ 53 ->
  nonneg_finite (floor d) /\ units (floor d) = j * units_of_one.
Proof.
  intros Hd Hu Hj.
  destruct (nonneg_finite_cases _ Hd) as [[s ->]|(m & e & -> & Hb)];
    [simpl in *; auto|].
  pose proof (bounded_facts _ _ Hb) as (He & _).
  cbn [floor]. destruct (Z.leb_spec 0 e); [simpl in *; auto|].
  cbn [units] in Hu. unfold units_of_one in *.
  assert (Hm : Z.pos m = j * 2 ^ (- e)).
  { apply (Z.mul_reg_r _ _ (2 ^ (e + 1074))); [apply Z.pow_nonzero; lia|].
    rewrite Hu, <- Z.mul_assoc, <- Z.pow_add_r by lia. do 2 f_equal. lia. }
  rewrite Z.shiftr_div_pow2, Hm, Z.div_mul by lia.
  assert (Hj0 : 0 < j).
  { assert (0 < 2 ^ (- e)) by (apply Z.pow_pos_nonneg; lia). nia. }
  assert (Hrep : representable (j * 2 ^ (0 + 1074))).
  { apply representable_small; try lia.
    assert (Z.log2 j < 53) by (apply Z.log2_lt_pow2; lia). lia. }
  destruct (normalize_units j 0 Hj0 ltac:(lia) Hrep) as (Hf & Hv & _).
  split; [exact Hf|]. rewrite Hv. reflexivity.
Qed.

(** [x // y] when the quotient is below [2^53] and [x - x % y] is a
    binary64 number: the whole quotient, exactly. *)
Lemma floordiv_units (x y : float) :
  nonneg_finite x -> nonneg_finite y -> 0 < units y ->
  units x / units y < 2 ^ 53 ->
  (units y * (units x / units y) = 0
   \/ representable (units y * (units x / units y))) ->
  exists f, floordiv x y = Ok f /\ nonneg_finite f
            /\ units f = units x / units y * units_of_one.
Proof.
  intros Hx Hy Hpos Hq Hrep.
  set (q := units x / units y) in *.
  assert (Hq0 : 0 <= q) by (apply Z.div_pos; [apply units_nonneg|lia]).
  destruct (fmod_units x y Hx Hy Hpos) as (Hmf & Hmu).
  assert (Hdm : units x = units y * q + units x mod units y)
    by (apply Z.div_mod; lia).
  pose proof (Z.mod_pos_bound (units x) (units y) Hpos) as Hmb.
  assert (Hdiff : units x - units (fmod x y) = units y * q) by lia.
  destruct (sub_units x (fmod x y) Hx Hmf ltac:(lia)
              ltac:(rewrite Hdiff; exact Hrep)) as (Hsf & Hsu).
  destruct (div_units (sub x (fmod x y)) y q Hsf Hy Hpos ltac:(lia)
              ltac:(lia)) as (Hdf & Hdu).
  unfold floordiv.
  assert (Hzy : is_zero y = false).
  { destruct (is_zero y) eqn:E; [|reflexivity].
    apply is_zero_units in E. lia. }
  rewrite Hzy, (ltb_zero_nonneg y Hy), (ltb_zero_nonneg _ Hmf).
  simpl Bool.eqb. simpl negb at 3. rewrite andb_false_r.
  destruct (is_zero (div (sub x (fmod x y)) y)) eqn:Ez.
  - eexists. split; [reflexivity|]. unfold copysign_zero. simpl.
    split; [exact I|]. apply is_zero_units in Ez. lia.
  - destruct (floor_units _ q Hdf Hdu ltac:(lia)) as (Hff & Hfu).
    destruct (sub_units _ (floor (div (sub x (fmod x y)) y)) Hdf Hff
                ltac:(lia) ltac:(left; lia)) as (Hzf & Hzu).
    assert (Hz : is_zero (sub (div (sub x (fmod x y)) y)
                            (floor (div (sub x (fmod x y)) y))) = true).
    { apply units_zero_is_zero; [exact Hzf|lia]. }
    destruct (sub _ (floor _)) as [sz| | |]; try discriminate.
    assert (Hhalf : of_ratio 1 2 = S754_finite false 4503599627370496 (-53))
      by (vm_compute; reflexivity).
    rewrite Hhalf. cbn [ltb SFltb SFcompare].
    eexists. split; [reflexivity|]. split; assumption.
Qed.


Lemma shr_nonpos (r : shr_record) (e n : Z) : n <= 0 -> shr r e n = (r, e).
Proof. intros H. destruct n; try lia; reflexivity. Qed.

(** The second half of [binary_round_aux]: the rounded mantissa is
    normalised once more and packed. *)
Definition round_tail (s : bool) (rnd t : Z) : float :=
  let '(mrs, e) := shr_fexp prec emax rnd t loc_Exact in
  match shr_m mrs with
  | 0 => S754_zero s
  | Z.pos m => if e <=? emax - prec then S754_finite s m e else S754_infinity s
  | Z.neg _ => S754_nan
  end.

Lemma round_tail_cases (s : bool) (rnd t : Z) :
  0 <= rnd <= 2 ^ 53 -> -1074 <= t ->
  (rnd = 0 /\ round_tail s rnd t = S754_zero s)
  \/ exists m e2,
      Z.pos m * 2 ^ (e2 - t) = rnd /\ t <= e2 <= t + 1
      /\ round_tail s rnd t = if e2 <=? 971 then S754_finite s m e2
                              else S754_infinity s.
Proof.
  intros Hr Ht. unfold round_tail, shr_fexp. change (emax - prec) with 971.
  destruct (Z.eq_dec rnd 0) as [H0|H0].
  - left. split; [exact H0|]. subst rnd.
    cbn [Zdigits2]. rewrite fexp_eq. rewrite shr_nonpos by lia. reflexivity.
  - right. assert (Hpos : 0 < rnd) by lia.
    rewrite Zdigits2_log2, fexp_eq by lia.
    destruct (Z.eq_dec rnd (2 ^ 53)) as [Htop|Htop].
    + exists (Z.to_pos (2 ^ 52)), (t + 1).
      split; [rewrite Htop; replace (t + 1 - t) with 1 by lia; reflexivity|].
      split; [lia|].
      rewrite Htop. change (Z.log2 (2 ^ 53)) with 53.
      replace (Z.max (53 + 1 + t - 53) (-1074) - t) with 1 by lia.
      cbn [shr_record_of_loc].
      change (2 ^ 53) with (2 ^ 52 * 2 ^ 1).
      rewrite shr_exact by lia. cbn [shr_m]. reflexivity.
    + exists (Z.to_pos rnd), t.
      split; [rewrite Z.sub_diag, Z2Pos.id by lia; simpl; lia|].
      split; [lia|].
      assert (Hl : Z.log2 rnd <= 52).
      { assert (Z.log2 rnd < 53) by (apply Z.log2_lt_pow2; lia). lia. }
      rewrite shr_nonpos by lia. cbn [shr_record_of_loc shr_m].
      destruct rnd; try lia. reflexivity.
Qed.

(** What rounding to nearest does to a positive mantissa: nothing when it
    is short enough; otherwise the mantissa is shifted right by [t - e]
    places and the quotient is kept or incremented, the latter only if the
    last bit shifted out is set. *)
Lemma round_aux_cases (s : bool) (M e : Z) :
  0 < M ->
  let t := Z.max (Z.log2 M + 1 + e - 53) (-1074) in
  let result := binary_round_aux prec emax s M e loc_Exact in
  (t <= e
   /\ result = if e <=? 971 then S754_finite s (Z.to_pos M) e
               else S754_infinity s)
  \/ (e < t
      /\ exists rnd,
          (rnd = M / 2 ^ (t - e)
           \/ (rnd = M / 2 ^ (t - e) + 1
               /\ Z.testbit M (t - e - 1) = true))
          /\ ((rnd = 0 /\ result = S754_zero s)
              \/ exists m e2,
                  Z.pos m * 2 ^ (e2 - t) = rnd /\ t <= e2 <= t + 1
                  /\ result = if e2 <=? 971 then S754_finite s m e2
                              else S754_infinity s)).
Proof.
  intros HM t result.
  assert (Ht : -1074 <= t) by (unfold t; lia).
  assert (Hres : result
                 = let '(mrs, e') :=
                     shr {| shr_m := M; shr_r := false; shr_s := false |} e
                       (t - e) in
                   round_tail s (round_nearest_even (shr_m mrs)
                                   (loc_of_shr_record mrs)) e').
  { unfold result, binary_round_aux, round_tail. unfold shr_fexp at 1.
    rewrite Zdigits2_log2, fexp_eq by lia. reflexivity. }
  clearbody result. subst result.
  destruct (Z.le_gt_cases t e) as [Hte|Hte].
  - left. split; [exact Hte|].
    rewrite shr_nonpos by lia.
    cbn [shr_m loc_of_shr_record round_nearest_even].
    unfold round_tail, shr_fexp. rewrite Zdigits2_log2, fexp_eq by lia.
    fold t. rewrite shr_nonpos by lia. cbn [shr_record_of_loc shr_m].
    change (emax - prec) with 971. destruct M; try lia. reflexivity.
  - right. split; [exact Hte|].
    destruct (t - e) as [|pn|pn] eqn:En; try lia.
    unfold shr. rewrite iter_pos_nat.
    pose proof (shr_iter M (Pos.to_nat pn) ltac:(lia) (Pos2Nat.is_pos pn))
      as Hit.
    cbv zeta in Hit. rewrite positive_nat_Z in Hit.
    destruct (Nat.iter _ _ _) as [m1 r1 s1]. cbn [shr_m shr_r shr_s] in Hit.
    destruct Hit as (Hm1 & Hr1 & _).
    cbn [shr_m].
    set (rnd := round_nearest_even m1
                  (loc_of_shr_record
                     {| shr_m := m1; shr_r := r1; shr_s := s1 |})).
    assert (Hm1lo : 0 <= m1) by (subst m1; apply Z.div_pos; lia).
    assert (Hm1hi : m1 < 2 ^ 53).
    { subst m1. apply Z.div_lt_upper_bound; [lia|].
      rewrite <- Z.pow_add_r by lia.
      pose proof (log2_bounds M HM) as [_ Hlt].
      eapply Z.lt_le_trans; [exact Hlt|].
      apply Z.pow_le_mono_r; unfold t in *; lia. }
    assert (Hrnd : rnd = m1 \/ (rnd = m1 + 1 /\ r1 = true)).
    { unfold rnd. destruct r1, s1; cbn [loc_of_shr_record round_nearest_even];
        try destruct (Z.even m1); auto. }
    exists rnd. split.
    { rewrite <- Hm1, <- Hr1. exact Hrnd. }
    replace (e + Z.pos pn) with t by lia.
    apply round_tail_cases; lia.
Qed.


Lemma testbit_mod_ge (M n : Z) :
  0 <= M -> 0 < n -> Z.testbit M (n - 1) = true ->
  2 ^ (n - 1) <= M mod 2 ^ n.
Proof.
  intros HM Hn Hb.
  assert (Hp : 0 < 2 ^ n) by (apply Z.pow_pos_nonneg; lia).
  pose proof (Z.mod_pos_bound M (2 ^ n) Hp) as Ha.
  rewrite <- (Z.mod_pow2_bits_low M n (n - 1)) in Hb by lia.
  destruct (Z.lt_ge_cases (M mod 2 ^ n) (2 ^ (n - 1))) as [Hlt|]; [|lia].
  exfalso. destruct (Z.eq_dec (M mod 2 ^ n) 0) as [H0|H0].
  - rewrite H0, Z.bits_0 in Hb. discriminate.
  - rewrite Z.bits_above_log2 in Hb; [discriminate|lia|].
    apply Z.log2_lt_pow2; lia.
Qed.

Lemma of_Z_1000 : of_Z 1000 = S754_finite false 8796093022208000 (-43).
Proof. vm_compute. reflexivity. Qed.

(** The milliseconds: the float product of a fraction below one and 1000
    never reaches 1000. *)
Lemma mul_1000_bound (f : float) :
  nonneg_finite f -> units f < units_of_one ->
  exists ms, to_int (mul f (of_Z 1000)) = Ok ms /\ 0 <= ms <= 999
             /\ units f * 1000 / units_of_one <= ms
                <= units f * 1000 / units_of_one + 1.
Proof.
  intros Hf Hlt. rewrite of_Z_1000.
  destruct (nonneg_finite_cases _ Hf) as [[s ->]|(mf & ef & -> & Hb)].
  { exists 0. split; [reflexivity|]. cbn [units].
    rewrite Z.mul_0_l, Zdiv_0_l. lia. }
  pose proof (bounded_facts _ _ Hb) as (Hef & Hlf & Hmf & _).
  cbn [units] in Hlt. unfold units_of_one in Hlt.
  (* the fraction is below one: a negative exponent, a short mantissa *)
  assert (Hneg : ef < 0).
  { destruct (Z.lt_ge_cases ef 0); [assumption|exfalso].
    assert (2 ^ 1074 <= 2 ^ (ef + 1074)) by (apply Z.pow_le_mono_r; lia).
    nia. }
  assert (Hfrac : Z.pos mf < 2 ^ (- ef)).
  { apply (Z.mul_lt_mono_pos_r (2 ^ (ef + 1074)));
      [apply Z.pow_pos_nonneg; lia|].
    rewrite <- Z.pow_add_r by lia. replace (- ef + (ef + 1074)) with 1074 by lia.
    exact Hlt. }
  unfold mul, SFmul. simpl xorb. rewrite Pos2Z.inj_mul.
  change (Z.pos 8796093022208000) with (1000 * 2 ^ 43).
  set (M := Z.pos mf * (1000 * 2 ^ 43)).
  set (e := ef + -43).
  assert (HM : 0 < M) by (unfold M; lia).
  (* the exact product is below 1000 by at least 1000 * 2^43 mantissa units *)
  assert (Hgap : M + 1000 * 2 ^ 43 <= 1000 * 2 ^ (- e)).
  { unfold M, e. replace (- (ef + -43)) with (- ef + 43) by lia.
    rewrite Z.pow_add_r by lia. nia. }
  assert (Hlog : Z.log2 M + e <= 9).
  { assert (Z.log2 M < 10 - e); [|lia].
    apply Z.log2_lt_pow2; [lia|].
    replace (10 - e) with (10 + - e) by lia. rewrite Z.pow_add_r by (unfold e; lia).
    change (2 ^ 10) with 1024.
    assert (0 < 2 ^ (- e)) by (apply Z.pow_pos_nonneg; unfold e; lia). nia. }
  assert (HlogM : Z.log2 M <= 105).
  { assert (Z.log2 M < 106); [|lia]. apply Z.log2_lt_pow2; [lia|].
    unfold M. change (2 ^ 106) with (2 ^ 53 * 2 ^ 53). nia. }
  (* the whole part of the exact product *)
  assert (Hfloor : Z.pos mf * 2 ^ (ef + 1074) * 1000 / units_of_one
                   = M / 2 ^ (- e)).
  { unfold units_of_one, M, e.
    replace (2 ^ 1074) with (2 ^ (- ef) * 2 ^ (ef + 1074))
      by (rewrite <- Z.pow_add_r by lia; f_equal; lia).
    replace (Z.pos mf * 2 ^ (ef + 1074) * 1000)
      with (Z.pos mf * 1000 * 2 ^ (ef + 1074)) by ring.
    rewrite Z.div_mul_cancel_r
      by (apply Z.pow_nonzero || apply Z.neq_sym, Z.lt_neq,
          Z.pow_pos_nonneg; lia).
    replace (- (ef + -43)) with (- ef + 43) by lia.
    rewrite Z.pow_add_r by lia.
    replace (Z.pos mf * (1000 * 2 ^ 43)) with (Z.pos mf * 1000 * 2 ^ 43)
      by ring.
    rewrite Z.div_mul_cancel_r by (try apply Z.pow_nonzero; lia).
    reflexivity. }
  cbn [units]. rewrite Hfloor. clear Hfloor.
  destruct (round_aux_cases false M e HM) as [(Hte & Hres)|(Hte & rnd & Hrnd & Hres)].
  - (* no rounding: the product itself *)
    rewrite Hres. destruct (Z.leb_spec e 971); [|unfold e in *; lia].
    cbn [to_int]. destruct (Z.leb_spec 0 e); [unfold e in *; lia|].
    eexists. split; [reflexivity|].
    rewrite Z2Pos.id, Z.shiftr_div_pow2 by (unfold e in *; lia).
    assert (Hp : 0 < 2 ^ (- e)) by (apply Z.pow_pos_nonneg; unfold e; lia).
    split; [|lia].
    split; [apply Z.div_pos; lia|].
    assert (M / 2 ^ (- e) < 1000); [|lia].
    apply Z.div_lt_upper_bound; lia.
  - set (t := Z.max (Z.log2 M + 1 + e - 53) (-1074)) in *.
    assert (Ht : -1074 <= t <= -43) by (unfold t; lia).
    assert (Hpn : 0 < 2 ^ (t - e)) by (apply Z.pow_pos_nonneg; lia).
    assert (Hpt : 0 < 2 ^ (- t)) by (apply Z.pow_pos_nonneg; lia).
    assert (Hsplit : 2 ^ (- e) = 2 ^ (- t) * 2 ^ (t - e)).
    { rewrite <- Z.pow_add_r by lia. f_equal. lia. }
    (* the rounded mantissa stays below 1000 at the exponent [t] *)
    assert (Hbelow : rnd < 1000 * 2 ^ (- t)).
    { assert (Hq : M / 2 ^ (t - e) < 1000 * 2 ^ (- t)).
      { apply Z.div_lt_upper_bound; [lia|]. nia. }
      destruct Hrnd as [->|[-> Hbit]]; [exact Hq|].
      destruct (Z.eq_dec (M / 2 ^ (t - e)) (1000 * 2 ^ (- t) - 1)) as [Htop|];
        [exfalso|lia].
      pose proof (testbit_mod_ge M (t - e) ltac:(lia) ltac:(lia) Hbit) as Hhalf.
      pose proof (Z.div_mod M (2 ^ (t - e)) ltac:(lia)) as Hdm.
      rewrite Htop in Hdm.
      (* the quotient has at most 53 bits, so [t = -43] *)
      assert (Hq53 : M / 2 ^ (t - e) < 2 ^ 53).
      { apply Z.div_lt_upper_bound; [lia|]. rewrite <- Z.pow_add_r by lia.
        pose proof (log2_bounds M HM) as [_ Hlt'].
        eapply Z.lt_le_trans; [exact Hlt'|].
        apply Z.pow_le_mono_r; unfold t; lia. }
      assert (Ht43 : t = -43).
      { destruct (Z.eq_dec t (-43)); [assumption|exfalso].
        assert (2 ^ 44 <= 2 ^ (- t)) by (apply Z.pow_le_mono_r; lia).
        change (2 ^ 44) with 17592186044416 in *.
        change (2 ^ 53) with 9007199254740992 in *. lia. }
      (* then the shift is [- ef], at most 53 places *)
      assert (Hshift : t - e <= 53) by (unfold t, e in *; lia).
      assert (Hhalf' : 2 * 2 ^ (t - e - 1) = 2 ^ (t - e)).
      { rewrite <- Z.pow_succ_r by lia. f_equal. lia. }
      assert (2 ^ (t - e - 1) <= 2 ^ 52) by (apply Z.pow_le_mono_r; lia).
      change (2 ^ 52) with 4503599627370496 in *.
      change (2 ^ 43) with 8796093022208 in *.
      nia. }
    (* the quotient kept by the shift has the whole part of the product *)
    assert (Hq0 : 0 <= M / 2 ^ (t - e)) by (apply Z.div_pos; lia).
    assert (Hqf : M / 2 ^ (t - e) / 2 ^ (- t) = M / 2 ^ (- e)).
    { rewrite Z.div_div by lia. rewrite (Z.mul_comm (2 ^ (t - e))), <- Hsplit.
      reflexivity. }
    assert (Hnear : M / 2 ^ (- e) <= rnd / 2 ^ (- t) <= M / 2 ^ (- e) + 1).
    { rewrite <- Hqf. destruct Hrnd as [->|[-> _]]; [lia|].
      split; [apply Z.div_le_mono; lia|].
      assert (1 <= 2 ^ (- t)) by lia.
      replace (M / 2 ^ (t - e) / 2 ^ (- t) + 1)
        with ((M / 2 ^ (t - e) + 1 * 2 ^ (- t)) / 2 ^ (- t))
        by (rewrite Z.div_add by lia; reflexivity).
      apply Z.div_le_mono; lia. }
    destruct Hres as [[H0 Hres]|(m & e2 & Hm & He2 & Hres)].
    + rewrite Hres. exists 0. split; [reflexivity|]. split; [lia|].
      rewrite H0, Z.div_0_l in Hnear by lia. exact Hnear.
    + rewrite Hres. destruct (Z.leb_spec e2 971); [|lia].
      cbn [to_int]. destruct (Z.leb_spec 0 e2); [lia|].
      eexists. split; [reflexivity|].
      rewrite Z.shiftr_div_pow2 by lia.
      assert (Hp2 : 0 < 2 ^ (- e2)) by (apply Z.pow_pos_nonneg; lia).
      assert (Hs2 : 2 ^ (- t) = 2 ^ (- e2) * 2 ^ (e2 - t)).
      { rewrite <- Z.pow_add_r by lia. f_equal. lia. }
      assert (0 < 2 ^ (e2 - t)) by (apply Z.pow_pos_nonneg; lia).
      split.
      * split; [apply Z.div_pos; lia|].
        assert (Z.pos m / 2 ^ (- e2) < 1000); [|lia].
        apply Z.div_lt_upper_bound; [lia|]. nia.
      * replace (Z.pos m / 2 ^ (- e2)) with (rnd / 2 ^ (- t)); [exact Hnear|].
        rewrite <- Hm, Hs2. rewrite Z.div_mul_cancel_r by lia. reflexivity.
Qed.



Lemma of_Z_units (n : Z) :
  0 < n < 2 ^ 53 ->
  nonneg_finite (of_Z n) /\ units (of_Z n) = n * units_of_one.
Proof.
  intros Hn. unfold of_Z.
  assert (Hrep : representable (n * 2 ^ (0 + 1074))).
  { apply representable_small; try lia.
    assert (Z.log2 n < 53) by (apply Z.log2_lt_pow2; lia). lia. }
  destruct (normalize_units n 0 ltac:(lia) ltac:(lia) Hrep) as (Hf & Hu & _).
  split; [exact Hf|exact Hu].
Qed.

Lemma units_of_one_pos : 0 < units_of_one.
Proof. unfold units_of_one. apply Z.pow_pos_nonneg; lia. Qed.

(** The whole part of a remainder by a whole number. *)
Lemma mod_units_div (a n : Z) :
  0 < n ->
  (a mod (n * units_of_one)) / units_of_one = (a / units_of_one) mod n.
Proof.
  intros Hn. pose proof units_of_one_pos as Hu.
  rewrite (Z.mul_comm n), Z.rem_mul_r by lia.
  rewrite (Z.mul_comm units_of_one), Z.div_add by lia.
  rewrite Z.mod_div by lia. lia.
Qed.

Lemma zfill_length (w : nat) (s : str) :
  length (zfill w s) = Nat.max w (length s).
Proof. unfold zfill. rewrite length_app, length_replicate. lia. Qed.

Lemma format_0d_min_length (w : nat) (z : Z) :
  0 <= z -> (w <= length (format_0d w z))%nat.
Proof.
  intros Hz. unfold format_0d. destruct (Z.ltb_spec z 0); [lia|].
  rewrite zfill_length. lia.
Qed.

Lemma format_0d_2_length (z : Z) :
  0 <= z < 60 -> length (format_0d 2 z) = 2%nat.
Proof.
  intros Hz.
  assert (H : forallb (fun k => Nat.eqb (length (format_0d 2 k)) 2)
                (seqZ 0 60) = true) by (vm_compute; reflexivity).
  rewrite forallb_forall in H. apply Nat.eqb_eq, H.
  apply list_elem_of_In, elem_of_seqZ. lia.
Qed.

Lemma format_0d_3_length (z : Z) :
  0 <= z < 1000 -> length (format_0d 3 z) = 3%nat.
Proof.
  intros Hz.
  assert (H : forallb (fun k => Nat.eqb (length (format_0d 3 k)) 3)
                (seqZ 0 1000) = true) by (vm_compute; reflexivity).
  rewrite forallb_forall in H. apply Nat.eqb_eq, H.
  apply list_elem_of_In, elem_of_seqZ. lia.
Qed.

(** The fields of the subtitle timestamp, for a float below [2^53]
    seconds: whole hours, minutes and seconds of the whole part [n], and
    the milliseconds from the float product of the exact fraction and
    1000. *)
Lemma format_srt_timestamp_exact (x : float) (n : Z) :
  nonneg_finite x -> to_int x = Ok n -> n < 2 ^ 53 ->
  exists frac ms,
    rem x (of_Z 1) = Ok frac
    /\ nonneg_finite frac
    /\ units frac = units x - n * units_of_one
    /\ to_int (mul frac (of_Z 1000)) = Ok ms
    /\ (0 <= ms <= 999
        /\ units frac * 1000 / units_of_one <= ms
           <= units frac * 1000 / units_of_one + 1)
    /\ format_srt_timestamp x
       = Ok (format_0d 2 (n / 3600) ++ lit ":"
             ++ format_0d 2 (n mod 3600 / 60) ++ lit ":"
             ++ format_0d 2 (n mod 60) ++ lit ","
             ++ format_0d 3 ms).
Proof.
  intros Hx Hn Hlt. pose proof units_of_one_pos as Hu.
  rewrite (to_int_units x Hx) in Hn. injection Hn as Hn.
  pose proof (units_nonneg x) as Hux.
  assert (Hn0 : 0 <= n) by (subst n; apply Z.div_pos; lia).
  destruct (of_Z_units 3600 ltac:(lia)) as (Hf3600 & Hu3600).
  destruct (of_Z_units 60 ltac:(lia)) as (Hf60 & Hu60).
  destruct (of_Z_units 1 ltac:(lia)) as (Hf1 & Hu1).
  rewrite Z.mul_1_l in Hu1.
  (* hours *)
  assert (Hqh : units x / units (of_Z 3600) = n / 3600).
  { rewrite Hu3600, (Z.mul_comm 3600), <- Z.div_div, Hn by lia. reflexivity. }
  destruct (floordiv_units x (of_Z 3600) Hx Hf3600 ltac:(lia))
    as (h & Hh & Hhf & Hhu).
  { rewrite Hqh.
    assert (n / 3600 <= n) by (apply Z.div_le_upper_bound; lia). lia. }
  { rewrite Hqh, Hu3600.
    destruct (Z.eq_dec (n / 3600) 0) as [->|H0]; [left; lia|right].
    replace (3600 * units_of_one * (n / 3600))
      with (3600 * (n / 3600) * 2 ^ 1074) by (unfold units_of_one; ring).
    assert (0 <= n / 3600) by (apply Z.div_pos; lia).
    pose proof (Z.mul_div_le n 3600 ltac:(lia)).
    apply representable_small; try lia.
    assert (Z.log2 (3600 * (n / 3600)) < 53)
      by (apply Z.log2_lt_pow2; lia). lia. }
  rewrite Hqh in Hhu.
  (* the remainder by an hour, and its minutes *)
  destruct (rem_units x (of_Z 3600) Hx Hf3600 ltac:(lia))
    as (r & Hr & Hrf & Hru).
  assert (Hqm : units r / units (of_Z 60) = n mod 3600 / 60).
  { rewrite Hru, Hu3600, Hu60, (Z.mul_comm 60), <- Z.div_div by lia.
    rewrite mod_units_div, Hn by lia. reflexivity. }
  assert (Hm60 : 0 <= n mod 3600 / 60 < 60).
  { pose proof (Z.mod_pos_bound n 3600 ltac:(lia)).
    split; [apply Z.div_pos; lia|apply Z.div_lt_upper_bound; lia]. }
  destruct (floordiv_units r (of_Z 60) Hrf Hf60 ltac:(lia))
    as (mi & Hmi & Hmif & Hmiu).
  { rewrite Hqm. lia. }
  { rewrite Hqm, Hu60.
    destruct (Z.eq_dec (n mod 3600 / 60) 0) as [->|H0]; [left; lia|right].
    replace (60 * units_of_one * (n mod 3600 / 60))
      with (60 * (n mod 3600 / 60) * 2 ^ 1074) by (unfold units_of_one; ring).
    apply representable_small; try lia.
    assert (Z.log2 (60 * (n mod 3600 / 60)) < 53)
      by (apply Z.log2_lt_pow2; lia). lia. }
  rewrite Hqm in Hmiu.
  (* seconds *)
  destruct (rem_units x (of_Z 60) Hx Hf60 ltac:(lia)) as (s & Hs & Hsf & Hsu).
  rewrite Hu60 in Hsu.
  (* the fraction and the milliseconds *)
  destruct (rem_units x (of_Z 1) Hx Hf1 ltac:(lia)) as (f & Hfr & Hff & Hfu).
  rewrite Hu1 in Hfu.
  destruct (mul_1000_bound f Hff) as (ms & Hms & Hmsr).
  { rewrite Hfu. apply Z.mod_pos_bound. lia. }
  exists f, ms. split; [exact Hfr|]. split; [exact Hff|].
  split.
  { rewrite Hfu, <- Hn, Z.mod_eq by lia. lia. }
  split; [exact Hms|]. split; [exact Hmsr|].
  unfold format_srt_timestamp.
  rewrite Hh. cbn [bind]. rewrite (to_int_units h Hhf), Hhu, Z.div_mul by lia.
  cbn [bind]. rewrite Hr. cbn [bind]. rewrite Hmi. cbn [bind].
  rewrite (to_int_units mi Hmif), Hmiu, Z.div_mul by lia. cbn [bind].
  rewrite Hs. cbn [bind].
  rewrite (to_int_units s Hsf), Hsu, mod_units_div, Hn by lia. cbn [bind].
  rewrite Hfr. cbn [bind]. rewrite Hms. cbn [bind]. reflexivity.
Qed.

End FloatFacts.

(** ** The subtitle timestamp *)

(** A number of seconds a timestamp can hold here: a non-negative binary64
    number below [2^53]. *)
Definition seconds_value (x : PyFloat.float) : Prop :=
  nonneg_finite x /\ units x < 2 ^ 53 * units_of_one.

Lemma seconds_value_to_int (x : PyFloat.float) :
  seconds_value x ->
  exists n, PyFloat.to_int x = Ok n /\ 0 <= n < 2 ^ 53.
Proof.
  intros [Hf Hlt]. pose proof units_of_one_pos as Hu.
  exists (units x / units_of_one). split; [by apply to_int_units|].
  split; [apply Z.div_pos; [apply units_nonneg|lia]|].
  apply Z.div_lt_upper_bound; lia.
Qed.

(** [format_srt_timestamp] returns on every such value. *)
Lemma seconds_value_stamp (x : PyFloat.float) :
  seconds_value x -> format_srt_timestamp x = Ok (stamp x).
Proof.
  intros Hx. destruct (seconds_value_to_int x Hx) as (n & Hn & Hr).
  destruct (format_srt_timestamp_exact x n (proj1 Hx) Hn ltac:(lia))
    as (f & ms & _ & _ & _ & _ & _ & H).
  unfold stamp. by rewrite H.
Qed.

Lemma seconds_value_stampable (seg : Segment) :
  seconds_value (seg_start seg) -> seconds_value (seg_end seg) ->
  stampable seg.
Proof. intros Hs He. split; by apply seconds_value_stamp. Qed.

(** C2: for a non-negative number of seconds [x] with whole part [n] below
    [2^53], [format_srt_timestamp] returns [HH:MM:SS,mmm] where the hours
    are [n div 3600] (at least two digits, more beyond 99 hours), the minutes
    [(n mod 3600) div 60] and the seconds [n mod 60] on two digits each, and
    the milliseconds are the whole part of the float product of the exact
    fraction [x - n] and 1000: the whole part of the exact product or one
    more, between 0 and 999, on three digits; no field is rounded into its
    neighbour. The three sample values give the strings of the
    specification. *)
Theorem format_srt_timestamp_fields (x : PyFloat.float) (n : Z) :
  nonneg_finite x -> PyFloat.to_int x = Ok n -> n < 2 ^ 53 ->
  (exists frac ms,
      PyFloat.rem x (PyFloat.of_Z 1) = Ok frac
      /\ units frac = units x - n * units_of_one
      /\ PyFloat.to_int (PyFloat.mul frac (PyFloat.of_Z 1000)) = Ok ms
      /\ 0 <= ms <= 999
      /\ units frac * 1000 / units_of_one <= ms
         <= units frac * 1000 / units_of_one + 1
      /\ format_srt_timestamp x
         = Ok (format_0d 2 (n / 3600) ++ lit ":"
               ++ format_0d 2 (n mod 3600 / 60) ++ lit ":"
               ++ format_0d 2 (n mod 60) ++ lit ","
               ++ format_0d 3 ms)
      /\ (2 <= length (format_0d 2 (n / 3600)))%nat
      /\ length (format_0d 2 (n mod 3600 / 60)) = 2%nat
      /\ length (format_0d 2 (n mod 60)) = 2%nat
      /\ length (format_0d 3 ms) = 3%nat)
  /\ format_srt_timestamp (PyFloat.of_ratio 0 1) = Ok (lit "00:00:00,000")
  /\ format_srt_timestamp (PyFloat.of_ratio 36615 10)
     = Ok (lit "01:01:01,500")
  /\ format_srt_timestamp (PyFloat.of_ratio 599996 10000)
     = Ok (lit "00:00:59,999").
Proof.
  intros Hx Hn Hlt. split; [|by vm_compute].
  destruct (format_srt_timestamp_exact x n Hx Hn Hlt)
    as (f & ms & Hf & _ & Hu & Hms & [Hr Hfl] & H).
  assert (Hn0 : 0 <= n).
  { rewrite (to_int_units x Hx) in Hn. injection Hn as <-.
    apply Z.div_pos; [apply units_nonneg|apply units_of_one_pos]. }
  exists f, ms.
  split; [exact Hf|]. split; [exact Hu|]. split; [exact Hms|].
  split; [exact Hr|]. split; [exact Hfl|]. split; [exact H|].
  split; [|split; [|split]].
  - apply format_0d_min_length. apply Z.div_pos; lia.
  - apply format_0d_2_length.
    pose proof (Z.mod_pos_bound n 3600 ltac:(lia)).
    split; [apply Z.div_pos; lia|apply Z.div_lt_upper_bound; lia].
  - apply format_0d_2_length. apply Z.mod_pos_bound. lia.
  - apply format_0d_3_length. lia.
Qed.

Lemma format_srt_timestamp_fields_witness :
  format_srt_timestamp (PyFloat.of_ratio 36615 10) = Ok (lit "01:01:01,500").
Proof.
  refine (proj1 (proj2 (proj2
    (format_srt_timestamp_fields (PyFloat.of_ratio 36615 10) 3661 _ _ _)))).
  - vm_compute. reflexivity.
  - vm_compute. reflexivity.
  - lia.
Defined.

(** The binary64 number [(2^52 + 19) * 2^11], above [2^53]. *)
Definition beyond_exact_seconds : PyFloat.float :=
  S754_finite false (2 ^ 52 + 19) 11.

(** C2 as stated fails, twice. The float nearest to 0.3 is below 0.3 and
    the whole part of a thousand times it is 299, yet the float product is
    300.0 and the timestamp ends in [,300]. And for a float above [2^53]
    the float quotient [seconds // 3600] is not the whole quotient: at
    [(2^52 + 19) * 2^11] seconds, a whole number, the hours printed are one
    less than [seconds div 3600]. *)
Lemma format_srt_timestamp_not_exact :
  (let x := PyFloat.of_ratio 3 10 in
   nonneg_finite x
   /\ PyFloat.to_int x = Ok 0
   /\ units x * 1000 / units_of_one = 299
   /\ format_srt_timestamp x = Ok (lit "00:00:00,300"))
  /\ (let y := beyond_exact_seconds in
      nonneg_finite y
      /\ PyFloat.to_int y = Ok 9223372036854814720
      /\ units y = 9223372036854814720 * units_of_one
      /\ 9223372036854814720 / 3600 = 2562047788015226
      /\ format_srt_timestamp y = Ok (lit "2562047788015225:18:40,000")).
Proof. vm_compute. repeat split; reflexivity. Qed.

(** More than 24 hours are rendered as hours; the milliseconds are cut,
    never rounded up into the seconds; the float nearest to 1.2 has a
    fraction below 0.2, so that its milliseconds are 199. *)
Example format_srt_timestamp_more :
  format_srt_timestamp (PyFloat.of_ratio 360000 1) = Ok (lit "100:00:00,000")
  /\ format_srt_timestamp (PyFloat.of_ratio 599999999 10000000)
     = Ok (lit "00:00:59,999")
  /\ format_srt_timestamp (PyFloat.of_ratio 12 10) = Ok (lit "00:00:01,199").
Proof. by vm_compute. Qed.

(** ** The SRT and VTT files *)

(** C1: the [srt] branch writes, for the [k]-th segment (from 0), a block
    made of the index line [k + 1], the line
    [format_srt_timestamp(start) --> format_srt_timestamp(end)], the
    stripped text and a blank line; the file is these blocks in the order
    of the segments, so the index lines are [1..N] whatever the timings. *)
Theorem srt_rendering (result : Transcription) (path : str) (w : world) :
  writable w path -> Forall stampable (r_segments result) ->
  let segs := r_segments result in
  let blocks := zip_with srt_block (seqZ 1 (Z.of_nat (length segs))) segs in
  exists w',
    save_transcription result path (lit "srt") w = (Ok tt, w')
    /\ w_files w' !! file_key path = Some (concat blocks)
    /\ length blocks = length segs
    /\ (forall (k : nat) (seg : Segment),
          segs !! k = Some seg ->
          format_srt_timestamp (seg_start seg) = Ok (stamp (seg_start seg))
          /\ format_srt_timestamp (seg_end seg) = Ok (stamp (seg_end seg))
          /\ blocks !! k
             = Some (str_of_int (Z.of_nat k + 1) ++ nl
                     ++ stamp (seg_start seg) ++ lit " --> "
                     ++ stamp (seg_end seg) ++ nl
                     ++ strip (seg_text seg) ++ nl ++ nl)).
Proof.
  intros Hw Hs segs blocks. eexists. split; [by apply save_srt|].
  split; [apply lookup_insert_eq|].
  split.
  - unfold blocks. rewrite length_zip_with, length_seqZ. lia.
  - intros k seg Hk.
    pose proof (proj1 (Forall_lookup _ _) Hs k seg Hk) as [Hst Hen].
    split; [exact Hst|]. split; [exact Hen|].
    unfold blocks. rewrite lookup_zip_with.
    rewrite lookup_seqZ_lt by (apply lookup_lt_Some in Hk; fold segs; lia).
    simpl. fold segs. rewrite Hk. simpl.
    replace (1 + Z.of_nat k) with (Z.of_nat k + 1) by lia.
    unfold srt_block, vtt_block, cue_line. by rewrite <- !app_assoc.
Qed.

Definition output_world : world :=
  {| w_dirs := {[ lit "output" ]}; w_files := ∅; w_out := [] |}.

Lemma sample_stampable : Forall stampable (r_segments sample_result).
Proof. repeat constructor. Qed.

Lemma srt_rendering_witness :
  exists w',
    save_transcription sample_result (lit "output/talk.srt") (lit "srt")
      output_world = (Ok tt, w')
    /\ w_files w' !! lit "output/talk.srt"
       = Some (lit "1" ++ nl ++ lit "00:00:00,000 --> 00:00:01,199" ++ nl
               ++ lit "hello" ++ nl ++ nl
               ++ lit "2" ++ nl ++ lit "00:00:01,199 --> 00:00:02,500" ++ nl
               ++ lit "world" ++ nl ++ nl).
Proof.
  destruct (srt_rendering sample_result (lit "output/talk.srt") output_world)
    as (w' & Hsave & Hfile & _).
  - split; reflexivity.
  - exact sample_stampable.
  - exists w'. split; [exact Hsave|exact Hfile].
Defined.

Lemma ends_blank_app (segs : list Segment) :
  forall acc : str,
    (exists pre, acc = pre ++ nl ++ nl) ->
    exists pre, acc ++ concat (map vtt_block segs) = pre ++ nl ++ nl.
Proof.
  induction segs as [|seg segs IH]; intros acc (pre & Hacc).
  - exists pre. cbn [map concat]. by rewrite app_nil_r.
  - cbn [map concat]. rewrite app_assoc. apply IH.
    exists (acc ++ cue_line seg ++ strip (seg_text seg)).
    unfold vtt_block. by rewrite <- !app_assoc.
Qed.

Lemma vtt_prefix_ends_blank (segs : list Segment) :
  exists pre,
    lit "WEBVTT" ++ nl ++ nl ++ concat (map vtt_block segs) = pre ++ nl ++ nl.
Proof.
  destruct (ends_blank_app segs (lit "WEBVTT" ++ nl ++ nl)) as (pre & H).
  - by exists (lit "WEBVTT").
  - exists pre. rewrite <- H. by rewrite <- !app_assoc.
Qed.

(** C7: the [vtt] branch writes the header [WEBVTT] and a blank line, then
    for each segment in order the timestamp range line (the one of the SRT
    block), the stripped text and a blank line. No index is written: the
    range line of every cue comes right after a blank line, and an SRT block
    is its index line followed by the VTT block. *)
Theorem vtt_rendering (result : Transcription) (path : str) (w : world) :
  writable w path -> Forall stampable (r_segments result) ->
  let segs := r_segments result in
  let text := lit "WEBVTT" ++ nl ++ nl ++ concat (map vtt_block segs) in
  exists w',
    save_transcription result path (lit "vtt") w = (Ok tt, w')
    /\ w_files w' !! file_key path = Some text
    /\ (forall seg,
          vtt_block seg
          = stamp (seg_start seg) ++ lit " --> " ++ stamp (seg_end seg) ++ nl
            ++ strip (seg_text seg) ++ nl ++ nl)
    /\ (forall before seg after,
          segs = before ++ seg :: after ->
          exists pre,
            text = pre ++ nl ++ nl
                   ++ stamp (seg_start seg) ++ lit " --> "
                   ++ stamp (seg_end seg) ++ nl
                   ++ strip (seg_text seg) ++ nl ++ nl
                   ++ concat (map vtt_block after))
    /\ (forall i seg, srt_block i seg = str_of_int i ++ nl ++ vtt_block seg).
Proof.
  intros Hw Hs segs text. eexists. split; [by apply save_vtt|].
  split; [apply lookup_insert_eq|].
  split.
  { intros seg. unfold vtt_block, cue_line. by rewrite <- !app_assoc. }
  split; [|reflexivity].
  intros before seg after Hsplit.
  destruct (vtt_prefix_ends_blank before) as (pre & Hpre).
  exists pre. unfold text. rewrite Hsplit, map_app, concat_app.
  cbn [map concat].
  transitivity ((lit "WEBVTT" ++ nl ++ nl ++ concat (map vtt_block before))
                ++ vtt_block seg ++ concat (map vtt_block after)).
  { by rewrite <- !app_assoc. }
  rewrite Hpre. unfold vtt_block at 1, cue_line. by rewrite <- !app_assoc.
Qed.

Lemma vtt_rendering_witness :
  exists w',
    save_transcription sample_result (lit "output/talk.vtt") (lit "vtt")
      output_world = (Ok tt, w')
    /\ w_files w' !! lit "output/talk.vtt"
       = Some (lit "WEBVTT" ++ nl ++ nl
               ++ lit "00:00:00,000 --> 00:00:01,199" ++ nl
               ++ lit "hello" ++ nl ++ nl
               ++ lit "00:00:01,199 --> 00:00:02,500" ++ nl
               ++ lit "world" ++ nl ++ nl).
Proof.
  destruct (vtt_rendering sample_result (lit "output/talk.vtt") output_world)
    as (w' & Hsave & Hfile & _).
  - split; reflexivity.
  - exact sample_stampable.
  - exists w'. split; [exact Hsave|exact Hfile].
Defined.

(** * The JSON rendering read back *)

(** ** Decimal numerals *)

Definition digits_value (ds : str) (v : Z) : Z :=
  fold_left (fun acc c => acc * 10 + (Z.of_N c - 48)) ds v.

Lemma digits_fuel_value (fuel : nat) :
  forall (n : N) (acc : str),
    (n < 10 ^ N.of_nat fuel)%N ->
    exists D,
      digits_fuel fuel n acc = D ++ acc
      /\ forall v, digits_value D v = v * 10 ^ Z.of_nat (length D) + Z.of_N n.
Proof.
  induction fuel as [|fuel IH]; intros n acc Hn.
  - exists []. split; [reflexivity|]. intros v.
    change (10 ^ N.of_nat 0)%N with 1%N in Hn.
    cbn [digits_value fold_left length]. change (10 ^ Z.of_nat 0) with 1. lia.
  - cbn [digits_fuel]. destruct (N.ltb_spec n 10) as [Hlt|Hge].
    + exists [digit (n mod 10)]. split; [reflexivity|].
      intros v. cbn [digits_value fold_left length]. unfold digit.
      rewrite N.mod_small by exact Hlt. change (10 ^ Z.of_nat 1) with 10. lia.
    + destruct (IH (n / 10)%N (digit (n mod 10) :: acc)) as (D & HD & Hv).
      { apply N.Div0.div_lt_upper_bound.
        rewrite Nat2N.inj_succ, N.pow_succ_r' in Hn. lia. }
      exists (D ++ [digit (n mod 10)]). split; [by rewrite HD, <- app_assoc|].
      intros v. unfold digits_value. rewrite fold_left_app. cbn [fold_left].
      fold (digits_value D v). rewrite Hv, length_app. cbn [length].
      rewrite Nat2Z.inj_add, Z.pow_add_r by lia. unfold digit.
      pose proof (N.mod_upper_bound n 10 ltac:(lia)).
      pose proof (N.div_mod n 10 ltac:(lia)).
      replace (Z.of_N (48 + n mod 10) - 48) with (Z.of_N (n mod 10)) by lia.
      replace (Z.of_N n) with (10 * Z.of_N (n / 10) + Z.of_N (n mod 10)) by lia.
      change (10 ^ Z.of_nat 1) with 10. ring.
Qed.

Lemma digits_value_digits (n : N) :
  JsonRead.int_of_digits (digits n) = Z.of_N n.
Proof.
  unfold digits.
  destruct (digits_fuel_value (S (N.to_nat (N.log2 n))) n []) as (D & HD & Hv).
  - rewrite Nat2N.inj_succ, N2Nat.id.
    destruct (N.eq_dec n 0%N) as [->|Hn0]; [reflexivity|].
    pose proof (N.log2_spec n ltac:(lia)) as [_ Hup].
    eapply N.lt_le_trans; [exact Hup|].
    apply N.pow_le_mono_l. lia.
  - rewrite HD, app_nil_r. exact (Hv 0).
Qed.

Lemma digits_value_zeros (k : nat) (ds : str) :
  JsonRead.int_of_digits (replicate k (digit 0) ++ ds)
  = JsonRead.int_of_digits ds.
Proof.
  unfold JsonRead.int_of_digits. rewrite fold_left_app. f_equal.
  induction k as [|k IH]; [reflexivity|]. cbn [replicate fold_left].
  exact IH.
Qed.





Section JsonRoundTrip.
Import Json JsonRead.














Ltac eval_lits :=
  repeat match goal with
         | |- context [lit ?s] =>
             let v := eval vm_compute in (lit s) in change (lit s) with v
         end.

Definition num_text (s : str) : Prop := Forall (fun c => is_num_char c = true) s.

(** A text that starts like a number: with a digit or a minus sign. *)
Definition num_start (s : str) : Prop :=
  match s with
  | c :: _ => is_digit c || (c =? 45)%N = true
  | [] => False
  end.

Lemma is_digit_digit (d : N) : (d < 10)%N -> is_digit (digit d) = true.
Proof.
  intros H. unfold is_digit, digit. apply andb_true_iff.
  split; apply N.leb_le; lia.
Qed.

Lemma is_digit_num_char (c : char) : is_digit c = true -> is_num_char c = true.
Proof. intros H. unfold is_num_char. by rewrite H. Qed.

Lemma digits_fuel_digits (fuel : nat) :
  forall (n : N) (acc : str),
    Forall (fun c => is_digit c = true) acc ->
    Forall (fun c => is_digit c = true) (digits_fuel fuel n acc).
Proof.
  induction fuel as [|fuel IH]; intros n acc Hacc; [exact Hacc|].
  cbn [digits_fuel].
  assert (Hd : Forall (fun c => is_digit c = true) (digit (n mod 10) :: acc)).
  { constructor; [|exact Hacc]. apply is_digit_digit. apply N.mod_lt. lia. }
  destruct (n <? 10)%N; [exact Hd|]. by apply IH.
Qed.

Lemma digits_fuel_nonempty (fuel : nat) :
  forall (n : N) (acc : str),
    (acc <> [] \/ fuel <> O) -> digits_fuel fuel n acc <> [].
Proof.
  induction fuel as [|fuel IH]; intros n acc H.
  - simpl. destruct H; [assumption|congruence].
  - cbn [digits_fuel]. destruct (n <? 10)%N; [discriminate|].
    apply IH. left. discriminate.
Qed.

Lemma digits_digits (n : N) : Forall (fun c => is_digit c = true) (digits n).
Proof. apply digits_fuel_digits. constructor. Qed.

Lemma digits_nonempty (n : N) : digits n <> [].
Proof. apply digits_fuel_nonempty. right. discriminate. Qed.

Lemma num_text_digits (ds : str) :
  Forall (fun c => is_digit c = true) ds -> num_text ds.
Proof.
  intros H. eapply Forall_impl; [exact H|]. intros c. apply is_digit_num_char.
Qed.

Lemma num_text_app (a b : str) : num_text a -> num_text b -> num_text (a ++ b).
Proof. intros. by apply Forall_app. Qed.

Lemma num_text_zeros (n : nat) : num_text (replicate n (digit 0)).
Proof. apply Forall_replicate. reflexivity. Qed.

Lemma num_text_format_0d (w : nat) (z : Z) : 0 <= z -> num_text (format_0d w z).
Proof.
  intros Hz. unfold format_0d. destruct (Z.ltb_spec z 0); [lia|].
  unfold zfill. apply num_text_app; [apply num_text_zeros|].
  apply num_text_digits, digits_digits.
Qed.

Lemma num_start_digits_app (ds t : str) :
  Forall (fun c => is_digit c = true) ds -> ds <> [] -> num_start (ds ++ t).
Proof.
  intros Hd Hne. destruct ds as [|c ds]; [done|].
  simpl. inversion Hd as [|? ? Hc _]; subst. by rewrite Hc.
Qed.

(** [repr] of a finite float is made of number characters and starts with
    a digit. *)
Lemma layout_num_text (ds : str) (decpt : Z) :
  Forall (fun c => is_digit c = true) ds -> ds <> [] ->
  num_text (layout ds decpt) /\ num_start (layout ds decpt).
Proof.
  intros Hd Hne. pose proof (num_text_digits ds Hd) as Hn.
  unfold layout.
  destruct ((decpt <=? -4) || (16 <? decpt)).
  - split.
    + apply num_text_app; [by apply Forall_take|].
      apply num_text_app.
      { destruct (1 <? _); [|constructor].
        apply num_text_app; [by repeat constructor|by apply Forall_drop]. }
      apply num_text_app; [by repeat constructor|].
      apply num_text_app; [destruct (_ <? 0); by repeat constructor|].
      apply num_text_format_0d. lia.
    + destruct ds as [|c ds]; [done|]. simpl.
      inversion Hd as [|? ? Hc _]; subst. by rewrite Hc.
  - destruct (Z.leb_spec decpt 0).
    + split; [|reflexivity].
      apply num_text_app; [by repeat constructor|].
      apply num_text_app; [apply num_text_zeros|exact Hn].
    + destruct (Z.of_nat (length ds) <=? decpt).
      * split; [|by apply num_start_digits_app].
        apply num_text_app; [exact Hn|].
        apply num_text_app; [apply num_text_zeros|by repeat constructor].
      * split.
        -- apply num_text_app; [by apply Forall_take|].
           apply num_text_app; [by repeat constructor|by apply Forall_drop].
        -- apply num_start_digits_app; [by apply Forall_take|].
           destruct ds as [|c ds]; [done|].
           destruct (Z.to_nat decpt) eqn:E; [lia|]. discriminate.
Qed.

Lemma floatstr_finite_text (s : bool) (m : positive) (e : Z) :
  num_text (floatstr (S754_finite s m e))
  /\ num_start (floatstr (S754_finite s m e)).
Proof.
  cbn [floatstr]. unfold repr_finite.
  destruct (shortest 17 1 m e) as [D k].
  destruct (layout_num_text (digits (Z.to_N D))
              (k + Z.of_nat (length (digits (Z.to_N D))))
              (digits_digits _) (digits_nonempty _)) as [Ht Hs].
  destruct s.
  - split; [apply num_text_app; [by repeat constructor|exact Ht]|reflexivity].
  - split; [exact Ht|exact Hs].
Qed.
































(** What [repr] prints: the shortest digits that read back, in fixed
    notation up to sixteen places before the point and four zeros after
    it, in exponent notation beyond. Where two decimals of the shortest
    length read back, the nearer is printed. *)
Example float_repr_samples :
  floatstr (PyFloat.of_ratio 1 10) = lit "0.1"
  /\ floatstr (PyFloat.of_ratio 1 3) = lit "0.3333333333333333"
  /\ floatstr (PyFloat.of_ratio 36615 10) = lit "3661.5"
  /\ floatstr (PyFloat.of_ratio 100 1) = lit "100.0"
  /\ floatstr (PyFloat.of_ratio 1 10000) = lit "0.0001"
  /\ floatstr (PyFloat.of_ratio 1 100000) = lit "1e-05"
  /\ floatstr (PyFloat.of_ratio (2 ^ 53) 1) = lit "9007199254740992.0"
  /\ floatstr (PyFloat.of_ratio (10 ^ 16) 1) = lit "1e+16"
  /\ floatstr (PyFloat.of_ratio (10 ^ 23) 1) = lit "1e+23"
  /\ floatstr (PyFloat.of_ratio (- 25) 10) = lit "-2.5"
  /\ floatstr (S754_finite false (2 ^ 52) (-76)) = lit "5.960464477539063e-08"
  /\ floatstr (S754_finite false 1 (-1074)) = lit "5e-324"
  /\ floatstr (S754_finite false (2 ^ 53 - 1) 971)
     = lit "1.7976931348623157e+308".
Proof. vm_compute. repeat split; reflexivity. Qed.





(** *** Lists and dictionaries *)



Lemma join_cons_cons (sep x y : str) (l : list str) :
  join sep (x :: y :: l) = x ++ sep ++ join sep (y :: l).
Proof. reflexivity. Qed.


















(** *** The rendering of [output_data] *)

(** The dictionary [save_transcription] makes of one segment. *)
Definition segment_data (seg : Segment) : value :=
  Dict [ (lit "start", Float (seg_start seg));
         (lit "end", Float (seg_end seg));
         (lit "text", Str (seg_text seg)) ].

Lemma output_data_segments (result : Transcription) :
  output_data result
  = Dict [ (lit "text", Str (r_text result));
           (lit "language", Str (r_language result));
           (lit "segments", List (map segment_data (r_segments result))) ].
Proof. reflexivity. Qed.









(** *** The layout of the file *)

(** The layout written out: every member on a line of its own, indented by
    two spaces for each level of nesting, keys in double quotes followed by
    a colon and a space, members separated by a comma at the end of the
    line. *)
Definition indent (depth : nat) : str := replicate (2 * depth) 32%N.

Definition quoted (s : str) : str := [34%N] ++ s ++ [34%N].

Definition member_line (depth : nat) (key rendering : str) : str :=
  nl ++ indent depth ++ quoted key ++ lit ": " ++ rendering.

Definition segment_text (seg : Segment) : str :=
  lit "{"
  ++ member_line 3 (lit "start") (floatstr (seg_start seg)) ++ lit ","
  ++ member_line 3 (lit "end") (floatstr (seg_end seg)) ++ lit ","
  ++ member_line 3 (lit "text") (encode_basestring (seg_text seg))
  ++ nl ++ indent 2 ++ lit "}".

Definition segments_text (segs : list Segment) : str :=
  match segs with
  | [] => lit "[]"
  | _ :: _ =>
      lit "[" ++ nl ++ indent 2
      ++ join (lit "," ++ nl ++ indent 2) (map segment_text segs)
      ++ nl ++ indent 1 ++ lit "]"
  end.

Definition json_text (result : Transcription) : str :=
  lit "{"
  ++ member_line 1 (lit "text") (encode_basestring (r_text result)) ++ lit ","
  ++ member_line 1 (lit "language") (encode_basestring (r_language result))
  ++ lit ","
  ++ member_line 1 (lit "segments") (segments_text (r_segments result))
  ++ nl ++ lit "}".

Lemma encode_dict3 (level : nat) (k1 k2 k3 : str) (v1 v2 v3 : value) :
  encode level (Dict [(k1, v1); (k2, v2); (k3, v3)])
  = lit "{" ++ newline_indent (S level)
    ++ encode_basestring k1 ++ lit ": " ++ encode (S level) v1
    ++ lit "," ++ newline_indent (S level)
    ++ encode_basestring k2 ++ lit ": " ++ encode (S level) v2
    ++ lit "," ++ newline_indent (S level)
    ++ encode_basestring k3 ++ lit ": " ++ encode (S level) v3
    ++ newline_indent level ++ lit "}".
Proof.
  cbn [encode map fst snd]. rewrite !join_cons_cons. cbn [join].
  by rewrite <- !app_assoc.
Qed.

Lemma encode_list_cons (level : nat) (v : value) (vs : list value) :
  encode level (List (v :: vs))
  = lit "[" ++ newline_indent (S level)
    ++ join (lit "," ++ newline_indent (S level))
         (map (encode (S level)) (v :: vs))
    ++ newline_indent level ++ lit "]".
Proof. reflexivity. Qed.

Lemma encode_segment (seg : Segment) :
  encode 2 (segment_data seg) = segment_text seg.
Proof.
  unfold segment_data. rewrite encode_dict3.
  unfold segment_text, member_line. rewrite <- !app_assoc. reflexivity.
Qed.

Lemma encode_segments (segs : list Segment) :
  encode 1 (List (map segment_data segs)) = segments_text segs.
Proof.
  destruct segs as [|seg segs]; [reflexivity|].
  change (map segment_data (seg :: segs))
    with (segment_data seg :: map segment_data segs).
  rewrite encode_list_cons.
  change (segment_data seg :: map segment_data segs)
    with (map segment_data (seg :: segs)).
  rewrite List.map_map.
  rewrite (List.map_ext _ segment_text encode_segment).
  reflexivity.
Qed.

(** The file is laid out with two spaces per level of nesting. *)
Lemma dumps_layout (result : Transcription) :
  dumps (output_data result) = json_text result.
Proof.
  rewrite output_data_segments. unfold dumps. rewrite encode_dict3.
  rewrite encode_segments. unfold json_text, member_line.
  rewrite <- !app_assoc. reflexivity.
Qed.



Lemma save_json (result : Transcription) (path : str) (w : world) :
  writable w path ->
  save_transcription result path (lit "json") w
  = (Ok tt,
     with_out (lit "Transcription with timestamps saved to " ++ path)
       (with_file (file_key path) (dumps (output_data result)) w)).
Proof.
  intros Hw. unfold save_transcription.
  rewrite (str_eqb_false (lit "json") (lit "txt")) by discriminate.
  rewrite (str_eqb_true (lit "json") (lit "json")) by reflexivity.
  unfold iobind at 1. rewrite open_w_writable by exact Hw.
  rewrite (fwrite_open_append _ path []) by apply with_file_lookup.
  rewrite with_file_twice. reflexivity.
Qed.




End JsonRoundTrip.

(** * Further properties of the code *)

(** ** What [save_transcription] leaves on disk *)

Lemma open_w_refused (w : world) (path : str) :
  is_dir w (Path.parse path) = true
  \/ is_dir w (Path.parent (Path.parse path)) = false ->
  open_w path w = (Raise OSError, w).
Proof.
  intros H. unfold open_w. cbv zeta.
  destruct H as [-> | ->]; [reflexivity|]. by rewrite orb_true_r.
Qed.

Lemma writable_dec (w : world) (path : str) :
  writable w path
  \/ (is_dir w (Path.parse path) = true
      \/ is_dir w (Path.parent (Path.parse path)) = false).
Proof.
  unfold writable.
  destruct (is_dir w (Path.parse path)),
    (is_dir w (Path.parent (Path.parse path))); tauto.
Qed.

(** X1. The [txt] branch: the file holds [result["text"]] as it is,
    whatever it held before; no other file, no directory changes, and one
    line is printed. *)
Theorem save_txt_verbatim (result : Transcription) (path : str) (w : world) :
  writable w path ->
  exists w',
    save_transcription result path (lit "txt") w = (Ok tt, w')
    /\ w_files w' !! file_key path = Some (r_text result)
    /\ (forall k, k <> file_key path -> w_files w' !! k = w_files w !! k)
    /\ w_dirs w' = w_dirs w
    /\ w_out w' = w_out w ++ [lit "Transcription saved to " ++ path].
Proof.
  intros Hw. unfold save_transcription.
  rewrite (str_eqb_true (lit "txt") (lit "txt")) by reflexivity.
  unfold iobind at 1. rewrite open_w_writable by exact Hw.
  rewrite (fwrite_open_append _ path []) by apply with_file_lookup.
  rewrite with_file_twice. eexists. split; [reflexivity|].
  cbn [print w_files w_dirs w_out with_file app].
  split; [apply lookup_insert_eq|].
  split; [|split; reflexivity].
  intros k Hk. by apply lookup_insert_ne.
Qed.

Lemma save_txt_verbatim_witness :
  exists w',
    save_transcription sample_result (lit "output/talk.txt") (lit "txt")
      output_world = (Ok tt, w')
    /\ w_files w' !! lit "output/talk.txt" = Some (lit "hello world").
Proof.
  destruct (save_txt_verbatim sample_result (lit "output/talk.txt")
              output_world) as (w' & Hsave & Hfile & _).
  - split; reflexivity.
  - exists w'. split; [exact Hsave|exact Hfile].
Defined.

(** [open] raises when the directory of [output_path] is missing or
    [output_path] is a directory; the world stays as it was. *)
Lemma save_refused (result : Transcription) (path fmt : str)
    (w : world) :
  In fmt known_formats ->
  is_dir w (Path.parse path) = true
  \/ is_dir w (Path.parent (Path.parse path)) = false ->
  save_transcription result path fmt w = (Raise OSError, w).
Proof.
  intros Hf Hd. unfold known_formats in Hf. simpl in Hf.
  unfold save_transcription.
  destruct Hf as [<-|[<-|[<-|[<-|[]]]]].
  - rewrite (str_eqb_true (lit "txt") (lit "txt")) by reflexivity.
    unfold iobind at 1. by rewrite open_w_refused.
  - rewrite (str_eqb_false (lit "json") (lit "txt")) by discriminate.
    rewrite (str_eqb_true (lit "json") (lit "json")) by reflexivity.
    unfold iobind at 1. by rewrite open_w_refused.
  - rewrite (str_eqb_false (lit "srt") (lit "txt")) by discriminate.
    rewrite (str_eqb_false (lit "srt") (lit "json")) by discriminate.
    rewrite (str_eqb_true (lit "srt") (lit "srt")) by reflexivity.
    unfold iobind at 1. by rewrite open_w_refused.
  - rewrite (str_eqb_false (lit "vtt") (lit "txt")) by discriminate.
    rewrite (str_eqb_false (lit "vtt") (lit "json")) by discriminate.
    rewrite (str_eqb_false (lit "vtt") (lit "srt")) by discriminate.
    rewrite (str_eqb_true (lit "vtt") (lit "vtt")) by reflexivity.
    unfold iobind at 1. by rewrite open_w_refused.
Qed.

(** X3. No format creates a directory: when the directory of
    [output_path] is missing, or [output_path] is itself a directory,
    [open] raises and nothing is written or printed. *)
Theorem save_transcription_refused (result : Transcription) (path fmt : str)
    (w : world) :
  In fmt known_formats ->
  is_dir w (Path.parse path) = true
  \/ is_dir w (Path.parent (Path.parse path)) = false ->
  save_transcription result path fmt w = (Raise OSError, w).
Proof. apply save_refused. Qed.

Lemma save_transcription_refused_witness :
  save_transcription sample_result (lit "notes/talk.json") (lit "json")
    output_world = (Raise OSError, output_world).
Proof.
  apply (save_transcription_refused sample_result (lit "notes/talk.json")
           (lit "json") output_world).
  - vm_compute. tauto.
  - right. vm_compute. reflexivity.
Defined.

(** A cue whose timestamps cannot be formatted: the start raises, or the
    start is fine and the end raises. *)
Definition raises (seg : Segment) (e : exn) : Prop :=
  format_srt_timestamp (seg_start seg) = Raise e
  \/ ((exists s, format_srt_timestamp (seg_start seg) = Ok s)
      /\ format_srt_timestamp (seg_end seg) = Raise e).

Lemma stampable_or_raises (seg : Segment) :
  stampable seg \/ exists e, raises seg e.
Proof.
  unfold stampable, raises.
  destruct (format_srt_timestamp (seg_start seg)) as [s|e] eqn:Hs.
  - destruct (format_srt_timestamp (seg_end seg)) as [s'|e] eqn:He.
    + left. unfold stamp. by rewrite Hs, He.
    + right. exists e. right. split; [by exists s|reflexivity].
  - right. exists e. by left.
Qed.

(** The segments are all fine, or there is a first one that is not. *)
Lemma first_bad_segment (segs : list Segment) :
  Forall stampable segs
  \/ exists good bad rest e,
       segs = good ++ bad :: rest /\ Forall stampable good /\ raises bad e.
Proof.
  induction segs as [|seg segs IH]; [left; constructor|].
  destruct (stampable_or_raises seg) as [Hs|[e He]].
  - destruct IH as [IH|(good & bad & rest & e & -> & Hg & Hb)].
    + left. by constructor.
    + right. exists (seg :: good), bad, rest, e.
      split; [reflexivity|]. split; [by constructor|exact Hb].
  - right. exists [], seg, segs, e. split; [reflexivity|]. split; [constructor|exact He].
Qed.

Lemma srt_loop_stops (path : str) (good : list Segment) (bad : Segment)
    (rest : list Segment) (e : exn) :
  Forall stampable good -> raises bad e ->
  forall (i : Z) (old : str) (w : world),
    w_files w !! file_key path = Some old ->
    srt_loop path i (good ++ bad :: rest) w
    = (Raise e,
       with_file (file_key path)
         (old ++ concat (zip_with srt_block
                           (seqZ i (Z.of_nat (length good))) good)) w).
Proof.
  intros Hg Hb. induction Hg as [|seg good [Hs He] _ IH]; intros i old w Hw.
  - cbn [app srt_loop length zip_with concat]. rewrite app_nil_r.
    rewrite with_file_same by exact Hw.
    unfold iobind at 1, lift at 1.
    destruct Hb as [-> | [[s ->] Hb]]; [reflexivity|].
    unfold iobind at 1, lift at 1. by rewrite Hb.
  - cbn [app srt_loop]. unfold iobind at 1, lift at 1. rewrite Hs.
    unfold iobind at 1, lift at 1. rewrite He.
    rewrite (fwrite_open_append w path old) by exact Hw.
    erewrite (fwrite_open_append _ path) by apply with_file_lookup.
    erewrite (fwrite_open_append _ path) by apply with_file_lookup.
    erewrite IH by apply with_file_lookup.
    rewrite !with_file_twice. f_equal. f_equal.
    cbn [length]. rewrite Nat2Z.inj_succ.
    rewrite (seqZ_cons i) by lia.
    cbn [zip_with concat]. unfold srt_block, vtt_block, cue_line.
    replace (Z.succ i) with (i + 1) by lia.
    replace (Z.pred (Z.succ (Z.of_nat (length good))))
      with (Z.of_nat (length good)) by lia.
    by rewrite <- !app_assoc.
Qed.

Lemma vtt_loop_stops (path : str) (good : list Segment) (bad : Segment)
    (rest : list Segment) (e : exn) :
  Forall stampable good -> raises bad e ->
  forall (old : str) (w : world),
    w_files w !! file_key path = Some old ->
    vtt_loop path (good ++ bad :: rest) w
    = (Raise e,
       with_file (file_key path) (old ++ concat (map vtt_block good)) w).
Proof.
  intros Hg Hb. induction Hg as [|seg good [Hs He] _ IH]; intros old w Hw.
  - cbn [app vtt_loop map concat]. rewrite app_nil_r.
    rewrite with_file_same by exact Hw.
    unfold iobind at 1, lift at 1.
    destruct Hb as [-> | [[s ->] Hb]]; [reflexivity|].
    unfold iobind at 1, lift at 1. by rewrite Hb.
  - cbn [app vtt_loop]. unfold iobind at 1, lift at 1. rewrite Hs.
    unfold iobind at 1, lift at 1. rewrite He.
    rewrite (fwrite_open_append w path old) by exact Hw.
    erewrite (fwrite_open_append _ path) by apply with_file_lookup.
    erewrite IH by apply with_file_lookup.
    rewrite !with_file_twice. f_equal. f_equal.
    cbn [map concat]. unfold vtt_block, cue_line. by rewrite <- !app_assoc.
Qed.

Lemma save_srt_stops (result : Transcription) (path : str) (w : world)
    (good : list Segment) (bad : Segment) (rest : list Segment) (e : exn) :
  writable w path -> r_segments result = good ++ bad :: rest ->
  Forall stampable good -> raises bad e ->
  save_transcription result path (lit "srt") w
  = (Raise e,
     with_file (file_key path)
       (concat (zip_with srt_block (seqZ 1 (Z.of_nat (length good))) good))
       w).
Proof.
  intros Hw Hsegs Hg Hb. unfold save_transcription.
  rewrite (str_eqb_false (lit "srt") (lit "txt")) by discriminate.
  rewrite (str_eqb_false (lit "srt") (lit "json")) by discriminate.
  rewrite (str_eqb_true (lit "srt") (lit "srt")) by reflexivity.
  unfold iobind at 1. rewrite open_w_writable by exact Hw.
  unfold iobind at 1. rewrite Hsegs.
  rewrite (srt_loop_stops path good bad rest e Hg Hb 1 [])
    by apply with_file_lookup.
  by rewrite with_file_twice.
Qed.

Lemma save_vtt_stops (result : Transcription) (path : str) (w : world)
    (good : list Segment) (bad : Segment) (rest : list Segment) (e : exn) :
  writable w path -> r_segments result = good ++ bad :: rest ->
  Forall stampable good -> raises bad e ->
  save_transcription result path (lit "vtt") w
  = (Raise e,
     with_file (file_key path)
       (lit "WEBVTT" ++ nl ++ nl ++ concat (map vtt_block good)) w).
Proof.
  intros Hw Hsegs Hg Hb. unfold save_transcription.
  rewrite (str_eqb_false (lit "vtt") (lit "txt")) by discriminate.
  rewrite (str_eqb_false (lit "vtt") (lit "json")) by discriminate.
  rewrite (str_eqb_false (lit "vtt") (lit "srt")) by discriminate.
  rewrite (str_eqb_true (lit "vtt") (lit "vtt")) by reflexivity.
  unfold iobind at 1. rewrite open_w_writable by exact Hw.
  rewrite (fwrite_open_append _ path []) by apply with_file_lookup.
  unfold iobind at 1. rewrite Hsegs.
  erewrite (vtt_loop_stops path good bad rest e Hg Hb)
    by apply with_file_lookup.
  rewrite !with_file_twice. by rewrite <- !app_assoc.
Qed.

(** X4. A timestamp that cannot be formatted stops the [srt] and [vtt]
    branches with its exception at that cue: the file, already opened,
    keeps the cues before it (and the [WEBVTT] header), nothing of the
    failing cue or of those after it, and the line that reports the save
    is not printed. *)
Theorem subtitles_stop_at_bad_timestamp (result : Transcription) (path : str)
    (w : world) (good : list Segment) (bad : Segment) (rest : list Segment)
    (e : exn) :
  writable w path -> r_segments result = good ++ bad :: rest ->
  Forall stampable good -> raises bad e ->
  (exists w',
      save_transcription result path (lit "srt") w = (Raise e, w')
      /\ w_files w' !! file_key path
         = Some (concat (zip_with srt_block
                           (seqZ 1 (Z.of_nat (length good))) good))
      /\ w_out w' = w_out w)
  /\ (exists w',
        save_transcription result path (lit "vtt") w = (Raise e, w')
        /\ w_files w' !! file_key path
           = Some (lit "WEBVTT" ++ nl ++ nl ++ concat (map vtt_block good))
        /\ w_out w' = w_out w).
Proof.
  intros Hw Hsegs Hg Hb. split.
  - eexists. split; [by apply (save_srt_stops result path w good bad rest e)|].
    split; [apply lookup_insert_eq|reflexivity].
  - eexists. split; [by apply (save_vtt_stops result path w good bad rest e)|].
    split; [apply lookup_insert_eq|reflexivity].
Qed.

(** Two cues, the second one starting at NaN. *)
Definition broken_result : Transcription :=
  {| r_text := lit "hello world";
     r_language := lit "en";
     r_segments :=
       [ {| seg_start := PyFloat.of_ratio 0 1;
            seg_end := PyFloat.of_ratio 25 10;
            seg_text := lit " hello ";
            seg_others := [] |};
         {| seg_start := S754_nan;
            seg_end := PyFloat.of_ratio 5 1;
            seg_text := lit " world ";
            seg_others := [] |} ] |}.

Lemma subtitles_stop_at_bad_timestamp_witness :
  (exists w',
      save_transcription broken_result (lit "output/talk.srt") (lit "srt")
        output_world = (Raise ValueError, w')
      /\ w_files w' !! lit "output/talk.srt"
         = Some (lit "1" ++ nl ++ lit "00:00:00,000 --> 00:00:02,500" ++ nl
                 ++ lit "hello" ++ nl ++ nl))
  /\ (exists w',
        save_transcription broken_result (lit "output/talk.srt") (lit "vtt")
          output_world = (Raise ValueError, w')
        /\ w_files w' !! lit "output/talk.srt"
           = Some (lit "WEBVTT" ++ nl ++ nl
                   ++ lit "00:00:00,000 --> 00:00:02,500" ++ nl
                   ++ lit "hello" ++ nl ++ nl)).
Proof.
  destruct (subtitles_stop_at_bad_timestamp broken_result
              (lit "output/talk.srt") output_world
              [ {| seg_start := PyFloat.of_ratio 0 1;
                   seg_end := PyFloat.of_ratio 25 10;
                   seg_text := lit " hello ";
                   seg_others := [] |} ]
              {| seg_start := S754_nan;
                 seg_end := PyFloat.of_ratio 5 1;
                 seg_text := lit " world ";
                 seg_others := [] |} [] ValueError)
    as [(w1 & H1 & F1 & _) (w2 & H2 & F2 & _)].
  - split; reflexivity.
  - reflexivity.
  - repeat constructor.
  - left. reflexivity.
  - split; [exists w1|exists w2]; (split; [assumption|assumption]).
Defined.

Lemma writable_same_dirs (w w' : world) (path : str) :
  w_dirs w' = w_dirs w -> writable w path -> writable w' path.
Proof. unfold writable, is_dir. by intros ->. Qed.

Lemma save_txt (result : Transcription) (path : str) (w : world) :
  writable w path ->
  save_transcription result path (lit "txt") w
  = (Ok tt,
     with_out (lit "Transcription saved to " ++ path)
       (with_file (file_key path) (r_text result) w)).
Proof.
  intros Hw. unfold save_transcription.
  rewrite (str_eqb_true (lit "txt") (lit "txt")) by reflexivity.
  unfold iobind at 1. rewrite open_w_writable by exact Hw.
  rewrite (fwrite_open_append _ path []) by apply with_file_lookup.
  rewrite with_file_twice. reflexivity.
Qed.

Lemma save_other (result : Transcription) (path fmt : str) (w : world) :
  ~ In fmt known_formats -> save_transcription result path fmt w = (Ok tt, w).
Proof.
  intros H. unfold known_formats in H. simpl in H. unfold save_transcription.
  rewrite !str_eqb_false by (intros ->; tauto). reflexivity.
Qed.

(** The text a format puts in the file when it is saved to the end. *)
Definition rendering (result : Transcription) (fmt : str) : str :=
  if Path.str_eqb fmt (lit "txt") then r_text result
  else if Path.str_eqb fmt (lit "json") then Json.dumps (output_data result)
  else if Path.str_eqb fmt (lit "srt") then
    concat (zip_with srt_block
              (seqZ 1 (Z.of_nat (length (r_segments result))))
              (r_segments result))
  else lit "WEBVTT" ++ nl ++ nl ++ concat (map vtt_block (r_segments result)).

(** A save that returns has written the rendering at [output_path] and
    touched nothing else of the file store. *)
Lemma save_transcription_returns (result : Transcription) (path fmt : str)
    (w w1 : world) :
  In fmt known_formats ->
  save_transcription result path fmt w = (Ok tt, w1) ->
  writable w path
  /\ w_dirs w1 = w_dirs w
  /\ w_files w1 = <[ file_key path := rendering result fmt ]> (w_files w)
  /\ forall w0 : world,
       writable w0 path ->
       exists w2, save_transcription result path fmt w0 = (Ok tt, w2)
                  /\ w_dirs w2 = w_dirs w0
                  /\ w_files w2
                     = <[ file_key path := rendering result fmt ]> (w_files w0).
Proof.
  intros Hf Hsave.
  destruct (writable_dec w path) as [Hw|Hno];
    [|rewrite save_refused in Hsave by assumption;
      discriminate Hsave].
  split; [exact Hw|].
  unfold known_formats in Hf. simpl in Hf.
  destruct Hf as [<-|[<-|[<-|[<-|[]]]]].
  - rewrite save_txt in Hsave by exact Hw. injection Hsave as <-.
    split; [reflexivity|]. split; [reflexivity|].
    intros w0 Hw0. rewrite save_txt by exact Hw0. eexists.
    split; [reflexivity|]. split; reflexivity.
  - rewrite save_json in Hsave by exact Hw. injection Hsave as <-.
    split; [reflexivity|]. split; [reflexivity|].
    intros w0 Hw0. rewrite save_json by exact Hw0. eexists.
    split; [reflexivity|]. split; reflexivity.
  - destruct (first_bad_segment (r_segments result))
      as [Hs|(good & bad & rest & e & Hsegs & Hg & Hb)];
      [|rewrite (save_srt_stops result path w good bad rest e) in Hsave
          by assumption; discriminate Hsave].
    rewrite save_srt in Hsave by assumption. injection Hsave as <-.
    split; [reflexivity|]. split; [reflexivity|].
    intros w0 Hw0. rewrite save_srt by assumption. eexists.
    split; [reflexivity|]. split; reflexivity.
  - destruct (first_bad_segment (r_segments result))
      as [Hs|(good & bad & rest & e & Hsegs & Hg & Hb)];
      [|rewrite (save_vtt_stops result path w good bad rest e) in Hsave
          by assumption; discriminate Hsave].
    rewrite save_vtt in Hsave by assumption. injection Hsave as <-.
    split; [reflexivity|]. split; [reflexivity|].
    intros w0 Hw0. rewrite save_vtt by assumption. eexists.
    split; [reflexivity|]. split; reflexivity.
Qed.

(** X2. Saving again to the same path replaces the file by the same
    text: after a save that returned, a second one returns too and leaves
    the files and directories as the first one did (the file is opened
    with ["w"], nothing of the result changes between the two and nothing
    of the clock or of chance goes into the text). *)
Theorem save_transcription_twice (result : Transcription) (path fmt : str)
    (w w1 : world) :
  save_transcription result path fmt w = (Ok tt, w1) ->
  exists w2,
    save_transcription result path fmt w1 = (Ok tt, w2)
    /\ w_files w2 = w_files w1 /\ w_dirs w2 = w_dirs w1.
Proof.
  intros Hsave.
  destruct (decide (In fmt known_formats)) as [Hf|Hf].
  - destruct (save_transcription_returns result path fmt w w1 Hf Hsave)
      as (Hw & Hd & Hfiles & Hagain).
    destruct (Hagain w1 (writable_same_dirs w w1 path Hd Hw))
      as (w2 & H2 & Hd2 & Hf2).
    exists w2. split; [exact H2|]. split; [|exact Hd2].
    rewrite Hf2, Hfiles. apply insert_insert_eq.
  - rewrite save_other in Hsave |- * by exact Hf. injection Hsave as <-.
    exists w. split; [reflexivity|]. split; reflexivity.
Qed.

Lemma save_transcription_twice_witness :
  exists w1 w2,
    save_transcription sample_result (lit "output/talk.srt") (lit "srt")
      output_world = (Ok tt, w1)
    /\ save_transcription sample_result (lit "output/talk.srt") (lit "srt")
         w1 = (Ok tt, w2)
    /\ w_files w2 = w_files w1.
Proof.
  eexists.
  destruct (save_transcription_twice sample_result (lit "output/talk.srt")
              (lit "srt") output_world _
              (save_srt sample_result (lit "output/talk.srt") output_world
                 (conj eq_refl eq_refl) sample_stampable))
    as (w2 & H2 & Hf & _).
  exists w2. split; [apply save_srt; [split; reflexivity|exact sample_stampable]|].
  split; [exact H2|exact Hf].
Defined.

(** X5. Only finite numbers of seconds can be formatted.
    [format_srt_timestamp] raises [ValueError] on NaN and on either
    infinity (the quotient [seconds // 3600] is NaN, which [int] refuses);
    [format_timestamp] raises [ValueError] on NaN and [OverflowError] on
    either infinity. *)
Theorem timestamps_not_finite :
  format_srt_timestamp S754_nan = Raise ValueError
  /\ (forall s : bool,
        format_srt_timestamp (S754_infinity s) = Raise ValueError)
  /\ format_timestamp S754_nan = Raise ValueError
  /\ (forall s : bool,
        format_timestamp (S754_infinity s) = Raise OverflowError).
Proof.
  split; [by vm_compute|]. split; [by intros []; vm_compute|].
  split; [by vm_compute|]. by intros []; vm_compute.
Qed.

(** X6. A result without segments: the [srt] file is empty, the [vtt]
    file is the header and its blank line, and the [json] file has the
    empty list [[]] after ["segments": ] on the same line. *)
Theorem save_without_segments (result : Transcription) (path : str)
    (w : world) :
  writable w path -> r_segments result = [] ->
  (exists w', save_transcription result path (lit "srt") w = (Ok tt, w')
              /\ w_files w' !! file_key path = Some [])
  /\ (exists w', save_transcription result path (lit "vtt") w = (Ok tt, w')
                 /\ w_files w' !! file_key path
                    = Some (lit "WEBVTT" ++ nl ++ nl))
  /\ (exists w', save_transcription result path (lit "json") w = (Ok tt, w')
                 /\ w_files w' !! file_key path
                    = Some (lit "{" ++ nl
                            ++ lit "  " ++ quoted (lit "text") ++ lit ": "
                            ++ Json.encode_basestring (r_text result)
                            ++ lit "," ++ nl
                            ++ lit "  " ++ quoted (lit "language") ++ lit ": "
                            ++ Json.encode_basestring (r_language result)
                            ++ lit "," ++ nl
                            ++ lit "  " ++ quoted (lit "segments")
                            ++ lit ": []" ++ nl
                            ++ lit "}")).
Proof.
  intros Hw Hsegs.
  assert (Hst : Forall stampable (r_segments result))
    by (rewrite Hsegs; constructor).
  split; [|split].
  - rewrite save_srt by assumption. eexists. split; [reflexivity|].
    rewrite Hsegs. apply lookup_insert_eq.
  - rewrite save_vtt by assumption. eexists. split; [reflexivity|].
    rewrite Hsegs. cbn [map concat]. rewrite app_nil_r.
    apply lookup_insert_eq.
  - rewrite save_json by assumption. eexists. split; [reflexivity|].
    rewrite dumps_layout. unfold json_text, member_line. rewrite Hsegs.
    cbn [segments_text]. rewrite <- !app_assoc.
    apply lookup_insert_eq.
Qed.

Lemma save_without_segments_witness :
  exists w',
    save_transcription
      {| r_text := []; r_language := lit "en"; r_segments := [] |}
      (lit "output/talk.vtt") (lit "vtt") output_world = (Ok tt, w')
    /\ w_files w' !! lit "output/talk.vtt" = Some (lit "WEBVTT" ++ nl ++ nl).
Proof.
  destruct (save_without_segments
              {| r_text := []; r_language := lit "en"; r_segments := [] |}
              (lit "output/talk.vtt") output_world)
    as (_ & (w' & Hsave & Hfile) & _).
  - split; reflexivity.
  - reflexivity.
  - exists w'. split; [exact Hsave|exact Hfile].
Defined.

(** ** What [is_youtube_url] accepts *)

(** The strings a pattern of this fragment matches; there is no
    repetition in the fragment, so they are finitely many. *)
Fixpoint words (r : Re.regex) : list str :=
  match r with
  | Re.Empty => [[]]
  | Re.Chr c => [[c]]
  | Re.Seq r1 r2 =>
      concat (map (fun a => map (fun b => a ++ b) (words r2)) (words r1))
  | Re.Alt r1 r2 => words r1 ++ words r2
  | Re.Opt r1 => words r1 ++ [[]]
  end.

(** Every way [r] matches at the start of [s] consumes one of its words. *)
Lemma match_at_word (r : Re.regex) :
  forall s rest : str,
    In rest (Re.match_at r s) -> exists m, In m (words r) /\ s = m ++ rest.
Proof.
  induction r as [|c|r1 IH1 r2 IH2|r1 IH1 r2 IH2|r1 IH1]; intros s rest Hin;
    cbn [Re.match_at words] in *.
  - destruct Hin as [<-|[]]. exists []. split; [by left|reflexivity].
  - destruct s as [|c' s']; [destruct Hin|].
    destruct (N.eqb_spec c c') as [->|_]; [|destruct Hin].
    destruct Hin as [<-|[]]. exists [c']. split; [by left|reflexivity].
  - apply in_concat in Hin as (l & Hl & Hrest).
    apply in_map_iff in Hl as (mid & <- & Hmid).
    destruct (IH1 _ _ Hmid) as (m1 & Hm1 & ->).
    destruct (IH2 _ _ Hrest) as (m2 & Hm2 & ->).
    exists (m1 ++ m2). split; [|by rewrite app_assoc].
    apply in_concat. exists (map (fun b => m1 ++ b) (words r2)).
    split; [apply in_map_iff; by exists m1|apply in_map_iff; by exists m2].
  - apply in_app_or in Hin as [Hin|Hin].
    + destruct (IH1 _ _ Hin) as (m & Hm & ->). exists m.
      split; [apply in_or_app; by left|reflexivity].
    + destruct (IH2 _ _ Hin) as (m & Hm & ->). exists m.
      split; [apply in_or_app; by right|reflexivity].
  - apply in_app_or in Hin as [Hin|[<-|[]]].
    + destruct (IH1 _ _ Hin) as (m & Hm & ->). exists m.
      split; [apply in_or_app; by left|reflexivity].
    + exists []. split; [apply in_or_app; right; by left|reflexivity].
Qed.

(** A successful [re.search] found a word of the pattern somewhere. *)
Lemma search_word (r : Re.regex) (s : str) :
  Re.search r s = true ->
  exists pre m post, In m (words r) /\ s = pre ++ m ++ post.
Proof.
  induction s as [|c s IH]; cbn [Re.search].
  - destruct (Re.match_at r []) as [|rest l] eqn:Hm; [discriminate|].
    intros _. destruct (match_at_word r [] rest) as (m & Hin & Heq).
    { rewrite Hm. by left. }
    exists [], m, rest. split; [exact Hin|exact Heq].
  - destruct (Re.match_at r (c :: s)) as [|rest l] eqn:Hm.
    + intros H. destruct (IH H) as (pre & m & post & Hin & ->).
      exists (c :: pre), m, post. split; [exact Hin|reflexivity].
    + intros _. destruct (match_at_word r (c :: s) rest) as (m & Hin & Heq).
      { rewrite Hm. by left. }
      exists [], m, rest. split; [exact Hin|exact Heq].
Qed.

(** The six ends a word of the YouTube pattern can have. *)
Definition host_ends : list str :=
  concat (map (fun host => map (fun tld => host ++ lit "." ++ tld ++ lit "/")
                             tlds) hostnames).

Lemma youtube_words_end :
  Forall (fun m => Exists (fun h => h `suffix_of` m) host_ends)
    (words youtube_pattern).
Proof. apply (bool_decide_unpack _). by vm_compute. Qed.

Lemma host_ends_shape (h : str) :
  In h host_ends ->
  exists host tld,
    In host hostnames /\ In tld tlds /\ h = host ++ lit "." ++ tld ++ lit "/".
Proof.
  unfold host_ends. intros Hin.
  apply in_concat in Hin as (l & Hl & Hh).
  apply in_map_iff in Hl as (host & <- & Hhost).
  apply in_map_iff in Hh as (tld & <- & Htld).
  by exists host, tld.
Qed.

(** X7. [is_youtube_url] accepts nothing else than a string that holds
    one of the three host names, a dot, [com] or [be], and a slash: with
    C9 this is exactly the set it accepts. In particular a name without a
    slash is never taken for a URL, and then [main] looks for a local
    file. *)
Theorem is_youtube_url_only_hosts (url : str) :
  is_youtube_url url = true ->
  (exists pre host tld post,
      In host hostnames /\ In tld tlds
      /\ url = pre ++ host ++ lit "." ++ tld ++ lit "/" ++ post)
  /\ In 47%N url.
Proof.
  intros H. unfold is_youtube_url in H.
  destruct (search_word _ _ H) as (pre & m & post & Hm & ->).
  pose proof youtube_words_end as Hall.
  rewrite Forall_forall in Hall. specialize (Hall m).
  destruct (proj1 (Exists_exists _ _) (Hall (proj2 (list_elem_of_In _ _) Hm)))
    as (h & Hh & [k ->]).
  apply list_elem_of_In in Hh.
  destruct (host_ends_shape h Hh) as (host & tld & Hhost & Htld & ->).
  split.
  - exists (pre ++ k), host, tld, post.
    split; [exact Hhost|]. split; [exact Htld|].
    by rewrite <- !app_assoc.
  - rewrite !in_app_iff. right. left. right. right. right. right.
    by left.
Qed.

Lemma is_youtube_url_only_hosts_witness :
  exists pre host tld post,
    In host hostnames /\ In tld tlds
    /\ lit "https://youtu.be/dQw4" = pre ++ host ++ lit "." ++ tld ++ lit "/" ++ post.
Proof.
  apply (is_youtube_url_only_hosts (lit "https://youtu.be/dQw4")).
  vm_compute. reflexivity.
Defined.

(** ** The processing time *)

(** X8. The processing time [main] reports: for [elapsed] seconds with
    whole part [n], the text is [<n div 60>m <n mod 60>s] from one minute
    on and [<n>s] below; the fraction is dropped and the minutes are never
    turned into hours. *)
Theorem time_str_minutes_seconds (elapsed : PyFloat.float) (n : Z) :
  nonneg_finite elapsed -> PyFloat.to_int elapsed = Ok n -> n < 2 ^ 53 ->
  time_str elapsed
  = Ok (if 60 <=? n
        then str_of_int (n / 60) ++ lit "m " ++ str_of_int (n mod 60)
             ++ lit "s"
        else str_of_int n ++ lit "s").
Proof.
  intros Hx Hn Hlt. pose proof units_of_one_pos as Hu.
  rewrite (to_int_units elapsed Hx) in Hn. injection Hn as Hn.
  pose proof (units_nonneg elapsed) as Hux.
  assert (Hn0 : 0 <= n) by (subst n; apply Z.div_pos; lia).
  destruct (of_Z_units 60 ltac:(lia)) as (Hf60 & Hu60).
  assert (Hq : units elapsed / units (PyFloat.of_Z 60) = n / 60).
  { rewrite Hu60, (Z.mul_comm 60), <- Z.div_div, Hn by lia. reflexivity. }
  destruct (floordiv_units elapsed (PyFloat.of_Z 60) Hx Hf60 ltac:(lia))
    as (m & Hm & Hmf & Hmu).
  { rewrite Hq.
    assert (n / 60 <= n) by (apply Z.div_le_upper_bound; lia). lia. }
  { rewrite Hq, Hu60.
    destruct (Z.eq_dec (n / 60) 0) as [->|H0]; [left; lia|right].
    replace (60 * units_of_one * (n / 60))
      with (60 * (n / 60) * 2 ^ 1074) by (unfold units_of_one; ring).
    assert (0 <= n / 60) by (apply Z.div_pos; lia).
    pose proof (Z.mul_div_le n 60 ltac:(lia)).
    apply representable_small; try lia.
    assert (Z.log2 (60 * (n / 60)) < 53) by (apply Z.log2_lt_pow2; lia).
    lia. }
  rewrite Hq in Hmu.
  destruct (rem_units elapsed (PyFloat.of_Z 60) Hx Hf60 ltac:(lia))
    as (s & Hs & Hsf & Hsu).
  rewrite Hu60 in Hsu.
  unfold time_str. rewrite Hm. cbn [bind].
  rewrite (to_int_units m Hmf), Hmu, Z.div_mul by lia. cbn [bind].
  rewrite Hs. cbn [bind].
  rewrite (to_int_units s Hsf), Hsu, mod_units_div, Hn by lia. cbn [bind].
  f_equal. destruct (Z.leb_spec 60 n) as [Hge|Hsmall].
  - assert (0 < n / 60) by (apply Z.div_str_pos; lia).
    by destruct (Z.ltb_spec 0 (n / 60)); [|lia].
  - rewrite (Z.div_small n 60), (Z.mod_small n 60) by lia. reflexivity.
Qed.

Lemma time_str_minutes_seconds_witness :
  time_str (PyFloat.of_ratio 73259 10) = Ok (lit "122m 5s").
Proof.
  apply (time_str_minutes_seconds (PyFloat.of_ratio 73259 10) 7325).
  - vm_compute. reflexivity.
  - vm_compute. reflexivity.
  - lia.
Defined.

(** ** Paths and their strings *)

(** One component of a path: not empty, not ["."], without a slash. *)
Definition component (c : str) : Prop :=
  c <> [] /\ c <> [Path.dot] /\ ~ In Path.slash c.

(** Paths as [PurePosixPath] keeps them. *)
Definition normal (p : Path.t) : Prop :=
  (Path.root p = [] \/ Path.root p = [Path.slash]
   \/ Path.root p = [Path.slash; Path.slash])
  /\ Forall component (Path.parts p).

Lemma split_no_slash_parts (s : str) :
  Forall (fun c => ~ In Path.slash c) (Path.split Path.slash s).
Proof.
  induction s as [|c s IH]; [constructor; [intros []|constructor]|].
  cbn [Path.split]. destruct (N.eqb_spec c Path.slash) as [->|Hc].
  - constructor; [intros []|exact IH].
  - destruct (Path.split Path.slash s) as [|x xs].
    + constructor; [|constructor]. intros [H|[]]. by apply Hc.
    + inversion IH as [|? ? Hx Hxs]; subst. constructor; [|exact Hxs].
      intros [H|H]; [by apply Hc|by apply Hx].
Qed.

Lemma parse_normal (s : str) : normal (Path.parse s).
Proof.
  split.
  - unfold Path.parse. cbn [Path.root].
    destruct (Path.leading Path.slash s) as [|[|[|n]]]; tauto.
  - unfold Path.parse. cbn [Path.parts]. apply Forall_forall. intros c Hc.
    apply list_elem_of_In, filter_In in Hc as [Hin Hok].
    apply negb_true_iff, orb_false_iff in Hok as [H1 H2].
    unfold Path.str_eqb in H1, H2.
    apply bool_decide_eq_false in H1, H2.
    split; [exact H1|]. split; [exact H2|].
    pose proof (split_no_slash_parts s) as Hall.
    rewrite Forall_forall in Hall. apply Hall. by apply list_elem_of_In.
Qed.

Lemma joinpath_normal (p : Path.t) (s : str) :
  normal p -> normal (Path.joinpath p s).
Proof.
  intros [Hr Hp]. pose proof (parse_normal s) as [Hrs Hps].
  unfold Path.joinpath. cbv zeta.
  destruct (Path.root (Path.parse s)) eqn:Hroot.
  - split; [exact Hr|]. cbn [Path.parts]. by apply Forall_app.
  - split; [rewrite Hroot; exact Hrs|exact Hps].
Qed.

Lemma split_app_slash (a b : str) :
  ~ In Path.slash a ->
  Path.split Path.slash (a ++ Path.slash :: b) = a :: Path.split Path.slash b.
Proof.
  induction a as [|c a IH]; intros Ha.
  - reflexivity.
  - cbn [app Path.split]. destruct (N.eqb_spec c Path.slash) as [->|Hc].
    + exfalso. apply Ha. by left.
    + rewrite IH; [reflexivity|]. intros H. apply Ha. by right.
Qed.

Lemma split_join (ps : list str) :
  ps <> [] -> Forall component ps ->
  Path.split Path.slash (Json.join [Path.slash] ps) = ps.
Proof.
  intros Hne Hall. induction Hall as [|c ps (_ & _ & Hc) Hps IH]; [done|].
  destruct ps as [|d ps].
  - cbn [Json.join]. by apply split_no_slash.
  - change (Json.join [Path.slash] (c :: d :: ps))
      with (c ++ Path.slash :: Json.join [Path.slash] (d :: ps)).
    rewrite split_app_slash by exact Hc. by rewrite IH.
Qed.

Lemma join_head_component (c : str) (ps : list str) :
  component c ->
  exists x t, Json.join [Path.slash] (c :: ps) = x :: t /\ x <> Path.slash.
Proof.
  intros (Hne & _ & Hs). destruct c as [|x c]; [done|].
  exists x. destruct ps as [|d ps]; eexists; (split; [reflexivity|]);
    intros ->; apply Hs; by left.
Qed.

Lemma filter_components (ps : list str) :
  Forall component ps ->
  List.filter (fun c => negb (Path.str_eqb c [] || Path.str_eqb c [Path.dot])) ps
  = ps.
Proof.
  induction 1 as [|c ps (H1 & H2 & _) _ IH]; [reflexivity|].
  cbn [List.filter]. rewrite !str_eqb_false by assumption.
  cbn [orb negb]. by rewrite IH.
Qed.

Lemma parts_parse_slash (s : str) :
  Path.parts (Path.parse (Path.slash :: s)) = Path.parts (Path.parse s).
Proof.
  unfold Path.parse. cbn [Path.parts Path.split]. rewrite N.eqb_refl.
  reflexivity.
Qed.

Lemma parts_parse_join (ps : list str) :
  Forall component ps ->
  Path.parts (Path.parse (Json.join [Path.slash] ps)) = ps.
Proof.
  intros Hps. destruct ps as [|c ps]; [reflexivity|].
  unfold Path.parse. cbn [Path.parts].
  rewrite split_join by done. by apply filter_components.
Qed.

Lemma root_parse (s : str) :
  Path.root (Path.parse s)
  = match Path.leading Path.slash s with
    | O => []
    | 2%nat => [Path.slash; Path.slash]
    | _ => [Path.slash]
    end.
Proof. reflexivity. Qed.

Lemma leading_join (ps : list str) :
  Forall component ps ->
  Path.leading Path.slash (Json.join [Path.slash] ps) = O.
Proof.
  intros Hps. destruct ps as [|c ps]; [reflexivity|].
  apply Forall_cons in Hps as [Hc _].
  destruct (join_head_component c ps Hc) as (x & t & -> & Hx).
  cbn [Path.leading]. by destruct (N.eqb_spec x Path.slash).
Qed.

(** [PurePosixPath(str(p)) == p]. *)
Lemma parse_to_str (p : Path.t) : normal p -> Path.parse (Path.to_str p) = p.
Proof.
  destruct p as [r ps]. intros [Hr Hps]. cbn [Path.root Path.parts] in *.
  assert (Hfields : forall s,
            Path.root (Path.parse s) = r -> Path.parts (Path.parse s) = ps ->
            Path.parse s = {| Path.root := r; Path.parts := ps |}).
  { intros s H1 H2. destruct (Path.parse s) as [r' ps']. cbn in H1, H2.
    by subst. }
  pose proof (leading_join ps Hps) as Hlead.
  pose proof (parts_parse_join ps Hps) as Hparts.
  destruct Hr as [->|[->| ->]].
  - destruct ps as [|c ps]; [reflexivity|].
    apply Hfields; [|exact Hparts]. rewrite root_parse.
    unfold Path.to_str. cbn [Path.root Path.parts app]. by rewrite Hlead.
  - apply Hfields.
    + rewrite root_parse. unfold Path.to_str. cbn [Path.root Path.parts app].
      cbn [Path.leading]. rewrite N.eqb_refl, Hlead. reflexivity.
    + unfold Path.to_str. cbn [Path.root Path.parts app].
      by rewrite parts_parse_slash.
  - apply Hfields.
    + rewrite root_parse. unfold Path.to_str. cbn [Path.root Path.parts app].
      cbn [Path.leading]. rewrite N.eqb_refl, Hlead. reflexivity.
    + unfold Path.to_str. cbn [Path.root Path.parts app].
      by rewrite !parts_parse_slash.
Qed.

Lemma file_key_to_str (p : Path.t) :
  normal p -> file_key (Path.to_str p) = Path.to_str p.
Proof. intros H. unfold file_key. by rewrite parse_to_str. Qed.

Lemma to_str_inj (p q : Path.t) :
  normal p -> normal q -> Path.to_str p = Path.to_str q -> p = q.
Proof.
  intros Hp Hq H. rewrite <- (parse_to_str p Hp), <- (parse_to_str q Hq).
  by rewrite H.
Qed.

Lemma output_dir_normal : normal output_dir.
Proof. apply parse_normal. Qed.

(** ** The directories [input] and [output] *)

Lemma mkdir_exist_ok_present (p : Path.t) (w : world) :
  is_dir w p = true -> mkdir_exist_ok p w = (Ok tt, w).
Proof. intros H. unfold mkdir_exist_ok. by rewrite H. Qed.

Lemma mkdir_exist_ok_top (d : str) (w : world) :
  plain d -> w_files w !! d = None ->
  exists w',
    mkdir_exist_ok (Path.parse d) w = (Ok tt, w')
    /\ w_dirs w' = {[ d ]} ∪ w_dirs w
    /\ w_files w' = w_files w /\ w_out w' = w_out w
    /\ is_dir w' (Path.parse d) = true.
Proof.
  intros Hd Hfile. rewrite parse_plain by exact Hd.
  assert (Hstr : Path.to_str {| Path.root := []; Path.parts := [d] |} = d).
  { unfold Path.to_str. cbn. by destruct d. }
  unfold mkdir_exist_ok, is_dir, is_file. cbn [Path.parts Path.parent removelast].
  rewrite Hstr, Hfile.
  rewrite (bool_decide_eq_false_2 (is_Some None)) by apply is_Some_None.
  cbn [orb negb]. destruct (decide (d ∈ w_dirs w)) as [Hin|Hin].
  - rewrite bool_decide_eq_true_2 by exact Hin.
    exists w. split; [reflexivity|].
    split; [symmetry; by apply subseteq_union_1_L, singleton_subseteq_l|].
    split; [reflexivity|]. split; [reflexivity|]. by apply bool_decide_eq_true.
  - rewrite bool_decide_eq_false_2 by exact Hin.
    eexists. split; [reflexivity|]. cbn [w_dirs w_files w_out].
    split; [reflexivity|]. split; [reflexivity|]. split; [reflexivity|].
    by apply bool_decide_eq_true, elem_of_union_l, elem_of_singleton_2.
Qed.

Lemma plain_input : plain (lit "input").
Proof. vm_compute. intuition discriminate. Qed.

Lemma plain_output : plain (lit "output").
Proof. vm_compute. intuition discriminate. Qed.

Lemma union_two (a b : str) (D : gset str) :
  {[ b ]} ∪ ({[ a ]} ∪ D) = {[ a; b ]} ∪ D.
Proof. by rewrite (assoc_L (∪)), (comm_L (∪) {[ b ]} {[ a ]}). Qed.

(** X9. [setup_directories]: unless a file named [input] or [output] is
    in the way, both directories are there afterwards, those that existed
    are left alone, no file is touched and nothing is printed; running it
    again changes nothing. *)
Theorem setup_directories_makes_both (w : world) :
  w_files w !! lit "input" = None -> w_files w !! lit "output" = None ->
  exists w',
    setup_directories w = (Ok tt, w')
    /\ w_dirs w' = {[ lit "input"; lit "output" ]} ∪ w_dirs w
    /\ w_files w' = w_files w /\ w_out w' = w_out w
    /\ setup_directories w' = (Ok tt, w').
Proof.
  intros Hi Ho.
  destruct (mkdir_exist_ok_top (lit "input") w plain_input Hi)
    as (w1 & H1 & Hd1 & Hf1 & Ho1 & Hin1).
  destruct (mkdir_exist_ok_top (lit "output") w1 plain_output)
    as (w2 & H2 & Hd2 & Hf2 & Ho2 & Hin2); [by rewrite Hf1|].
  exists w2. unfold setup_directories, input_dir, output_dir.
  unfold iobind at 1. rewrite H1, H2.
  split; [reflexivity|]. split; [rewrite Hd2, Hd1; apply union_two|].
  split; [by rewrite Hf2|]. split; [by rewrite Ho2|].
  unfold iobind. rewrite (mkdir_exist_ok_present (Path.parse (lit "input"))).
  - by rewrite mkdir_exist_ok_present.
  - unfold is_dir in Hin1 |- *.
    cbn [Path.parts] in Hin1 |- *. apply bool_decide_eq_true.
    apply bool_decide_eq_true in Hin1. rewrite Hd2.
    by apply elem_of_union_r.
Qed.

Lemma setup_directories_makes_both_witness :
  exists w',
    setup_directories empty_world = (Ok tt, w')
    /\ w_dirs w' = {[ lit "input"; lit "output" ]} ∪ ∅.
Proof.
  destruct (setup_directories_makes_both empty_world)
    as (w' & H & Hd & _); [reflexivity|reflexivity|].
  exists w'. split; [exact H|exact Hd].
Defined.

(** X10. A file named [input] in the working directory stops every run
    at once: [mkdir(exist_ok=True)] raises [FileExistsError] and [main]
    ends with it before it has printed or written anything. *)
Theorem main_blocked_by_input_file (E : env) (a : args) (w : world) :
  lit "input" ∉ w_dirs w -> is_Some (w_files w !! lit "input") ->
  main E a w = (Raise OSError, w).
Proof.
  intros Hd Hf. unfold main, iobind at 1. unfold setup_directories, iobind at 1.
  unfold mkdir_exist_ok. 
  change (is_dir w input_dir) with (bool_decide (lit "input" ∈ w_dirs w)).
  change (is_file w input_dir)
    with (bool_decide (is_Some (w_files w !! lit "input"))).
  rewrite bool_decide_eq_false_2 by exact Hd.
  rewrite bool_decide_eq_true_2 by exact Hf. reflexivity.
Qed.

Lemma main_blocked_by_input_file_witness :
  main sample_env sample_args
    {| w_dirs := ∅; w_files := {[ lit "input" := lit "notes" ]}; w_out := [] |}
  = (Raise OSError,
     {| w_dirs := ∅; w_files := {[ lit "input" := lit "notes" ]};
        w_out := [] |}).
Proof.
  apply (main_blocked_by_input_file sample_env sample_args).
  - cbn [w_dirs]. apply not_elem_of_empty.
  - cbn [w_files]. rewrite lookup_singleton_eq. by eexists.
Defined.

(** ** The ways [main] ends *)

Lemma audio_path_normal (video_path : Path.t) :
  normal (Path.joinpath (Path.joinpath output_dir (Path.stem video_path))
            (Path.stem video_path ++ lit "_audio.wav")).
Proof. apply joinpath_normal, joinpath_normal, output_dir_normal. Qed.

Lemma is_dir_same_dirs (w w' : world) (p : Path.t) :
  w_dirs w' = w_dirs w -> is_dir w' p = is_dir w p.
Proof. unfold is_dir. by intros ->. Qed.

(** X11. A URL that yt-dlp cannot deliver (the module is missing, or the
    download raises) ends the run in exit status 1: [download_youtube_video]
    swallows the exception and returns [None]; no file and no directory is
    made beyond [input] and [output], and the last line printed says that
    the download failed. *)
Theorem main_download_failure (E : env) (a : args) (w w1 : world) :
  setup_directories w = (Ok tt, w1) ->
  is_youtube_url (a_video_path a) = true ->
  (forall filename data,
      yt_dlp E (a_video_path a) (lit "input") <> Downloaded filename data) ->
  exists w',
    main E a w = (Raise (SystemExit 1), w')
    /\ w_files w' = w_files w1 /\ w_dirs w' = w_dirs w1
    /\ last (w_out w') = Some (lit "Failed to download YouTube video.").
Proof.
  intros Hs Hu Hy. unfold main. unfold iobind at 1. rewrite Hs.
  unfold iobind at 1. unfold resolve_input. rewrite Hu.
  unfold iobind at 1, print at 1. unfold iobind at 1.
  unfold download_youtube_video.
  change (Path.to_str input_dir) with (lit "input").
  destruct (yt_dlp E (a_video_path a) (lit "input")) as [|msg|f d] eqn:Hd.
  - eexists. split; [reflexivity|]. cbn [w_files w_dirs w_out].
    split; [reflexivity|]. split; [reflexivity|]. by rewrite last_snoc.
  - eexists. split; [reflexivity|]. cbn [w_files w_dirs w_out].
    split; [reflexivity|]. split; [reflexivity|]. by rewrite last_snoc.
  - by destruct (Hy f d).
Qed.

Lemma main_download_failure_witness :
  exists w',
    main sample_env
      {| a_video_path := lit "https://youtu.be/dQw4";
         a_model := lit "medium";
         a_language := None;
         a_format := lit "txt";
         a_output := None;
         a_keep_audio := false |} input_world
    = (Raise (SystemExit 1), w')
    /\ w_files w' = w_files input_world.
Proof.
  destruct (main_download_failure sample_env
              {| a_video_path := lit "https://youtu.be/dQw4";
                 a_model := lit "medium";
                 a_language := None;
                 a_format := lit "txt";
                 a_output := None;
                 a_keep_audio := false |} input_world input_world)
    as (w' & H & Hf & _).
  - vm_compute. reflexivity.
  - vm_compute. reflexivity.
  - intros f d. cbn. discriminate.
  - exists w'. split; [exact H|exact Hf].
Defined.

Ltac main_to_extraction Hs Hr Hm :=
  unfold main; unfold iobind at 1; rewrite Hs;
  unfold iobind at 1; rewrite Hr;
  unfold iobind at 1; rewrite Hm;
  unfold iobind at 1, print at 1;
  unfold iobind at 1, print at 1;
  unfold iobind at 1, print at 1;
  unfold iobind at 1, print at 1;
  unfold iobind at 1, extract_audio.

(** X12. When moviepy fails, [extract_audio] returns [False] and the run
    ends in exit status 1 whatever [--keep-audio] says: Whisper is not
    called, no transcription is written, and the only file that may have
    changed is the waveform, which holds what moviepy had written of it. *)
Theorem main_extraction_failure (E : env) (a : args) (w w1 w2 w3 : world)
    (video_path : Path.t) (msg : str) (partial : option str) :
  setup_directories w = (Ok tt, w1) ->
  resolve_input E a w1 = (Ok video_path, w2) ->
  mkdir_exist_ok (Path.joinpath output_dir (Path.stem video_path)) w2
  = (Ok tt, w3) ->
  moviepy E (Path.to_str video_path) = ExtractError msg partial ->
  let audio_path :=
    Path.joinpath (Path.joinpath output_dir (Path.stem video_path))
      (Path.stem video_path ++ lit "_audio.wav") in
  exists w',
    main E a w = (Raise (SystemExit 1), w')
    /\ w_dirs w' = w_dirs w3
    /\ w_files w'
       = match partial with
         | Some data => <[ Path.to_str audio_path := data ]> (w_files w3)
         | None => w_files w3
         end
    /\ last (w_out w') = Some (lit "Error extracting audio: " ++ msg).
Proof.
  intros Hs Hr Hm He audio_path. main_to_extraction Hs Hr Hm. rewrite He.
  unfold iobind at 1 2, print at 1.
  destruct partial as [data|].
  - unfold put_file, iobind, print, ret, raise. cbn [negb].
    eexists. split; [reflexivity|]. cbn [w_files w_dirs w_out].
    split; [reflexivity|].
    split; [by rewrite (parse_to_str _ (audio_path_normal video_path))|].
    by rewrite last_snoc.
  - unfold iobind, print, ret, raise. cbn [negb].
    eexists. split; [reflexivity|]. cbn [w_files w_dirs w_out].
    split; [reflexivity|]. split; [reflexivity|]. by rewrite last_snoc.
Qed.

Lemma main_extraction_failure_witness :
  exists w',
    main failing_extraction sample_args input_world
    = (Raise (SystemExit 1), w')
    /\ w_files w'
       = <[ lit "output/talk/talk_audio.wav" := lit "RIFF" ]>
           (w_files input_world).
Proof.
  destruct (main_extraction_failure failing_extraction sample_args
              input_world input_world input_world
              {| w_dirs := {[ lit "output/talk" ]} ∪ w_dirs input_world;
                 w_files := w_files input_world;
                 w_out := w_out input_world |}
              (Path.parse (lit "input/talk.mp4"))
              (lit "No space left on device") (Some (lit "RIFF")))
    as (w' & H & _ & Hf & _).
  - vm_compute. reflexivity.
  - vm_compute. reflexivity.
  - vm_compute. reflexivity.
  - reflexivity.
  - exists w'. split; [exact H|exact Hf].
Defined.

Lemma transcribe_audio_fails (E : env) (audio model : str)
    (language : option str) (w : world) (data : option str) (e : exn) :
  w_files w !! file_key audio = data ->
  whisper E data model language = LoadError e
  \/ whisper E data model language = TranscribeError e ->
  exists w',
    transcribe_audio E audio model language w = (Raise e, w')
    /\ w_files w' = w_files w /\ w_dirs w' = w_dirs w.
Proof.
  intros Hf Hw. unfold transcribe_audio, file_key in *.
  unfold iobind at 1, print at 1. unfold iobind at 1, get_world.
  cbn [w_files]. rewrite Hf.
  destruct Hw as [-> | ->].
  - eexists. split; [reflexivity|]. split; reflexivity.
  - eexists. split; [reflexivity|]. split; reflexivity.
Qed.

(** The [finally] clause on a waveform that is there. *)
Lemma cleanup_existing (a : args) (audio_path : Path.t) (w : world) :
  a_keep_audio a = false -> is_dir w audio_path = false ->
  is_Some (w_files w !! Path.to_str audio_path) ->
  (run w <- get_world ;
   if negb (a_keep_audio a) && exists_ w audio_path
   then exec remove audio_path ;
        print (nl ++ lit "Temporary audio file removed.")
   else ret tt) w
  = (Ok tt,
     {| w_dirs := w_dirs w;
        w_files := delete (Path.to_str audio_path) (w_files w);
        w_out := w_out w ++ [nl ++ lit "Temporary audio file removed."] |}).
Proof.
  intros Hk Hd Hf. unfold iobind at 1, get_world. rewrite Hk.
  unfold exists_, remove, is_file. rewrite Hd.
  rewrite bool_decide_eq_true_2 by exact Hf. cbn [negb andb orb].
  unfold iobind. rewrite bool_decide_eq_true_2 by exact Hf. reflexivity.
Qed.

(** X13. An exception of Whisper (loading the model or transcribing) is
    not caught: [main] ends with it, not with [sys.exit]. Nothing is
    rendered, and the [finally] clause has removed the waveform and said
    so. *)
Theorem main_whisper_failure (E : env) (a : args) (w w1 w2 w3 : world)
    (video_path : Path.t) (data : str) (e : exn) :
  a_keep_audio a = false ->
  setup_directories w = (Ok tt, w1) ->
  resolve_input E a w1 = (Ok video_path, w2) ->
  mkdir_exist_ok (Path.joinpath output_dir (Path.stem video_path)) w2
  = (Ok tt, w3) ->
  moviepy E (Path.to_str video_path) = Extracted data ->
  let audio_path :=
    Path.joinpath (Path.joinpath output_dir (Path.stem video_path))
      (Path.stem video_path ++ lit "_audio.wav") in
  is_dir w3 audio_path = false ->
  whisper E (Some data) (a_model a) (a_language a) = LoadError e
  \/ whisper E (Some data) (a_model a) (a_language a) = TranscribeError e ->
  exists w',
    main E a w = (Raise e, w')
    /\ w_files w' = delete (Path.to_str audio_path) (w_files w3)
    /\ w_dirs w' = w_dirs w3
    /\ last (w_out w') = Some (nl ++ lit "Temporary audio file removed.").
Proof.
  intros Hk Hs Hr Hm He audio_path Hdir Hw.
  main_to_extraction Hs Hr Hm. rewrite He.
  unfold iobind at 1 2 3, print at 1 2, put_file, ret.
  cbn [negb w_dirs w_files w_out]. fold audio_path.
  rewrite (parse_to_str audio_path (audio_path_normal video_path)).
  match goal with
  | |- context [try_finally _ _ ?x] => set (w4 := x)
  end.
  assert (Hfile : w_files w4 !! file_key (Path.to_str audio_path) = Some data).
  { rewrite (file_key_to_str audio_path (audio_path_normal video_path)).
    apply lookup_insert_eq. }
  destruct (transcribe_audio_fails E (Path.to_str audio_path) (a_model a)
              (a_language a) w4 (Some data) e Hfile Hw)
    as (w5 & Ht & Hf5 & Hd5).
  assert (Hc := cleanup_existing a audio_path w5 Hk).
  unfold ret in Hc.
  unfold try_finally. unfold iobind at 1. rewrite Ht. cbv beta iota.
  rewrite Hc.
  - eexists. split; [reflexivity|]. cbn [w_files w_dirs w_out].
    rewrite Hf5, Hd5. subst w4. cbn [w_files w_dirs].
    split; [apply delete_insert_eq|]. split; [reflexivity|].
    by rewrite last_snoc.
  - rewrite (is_dir_same_dirs w3 w5) by (rewrite Hd5; reflexivity).
    exact Hdir.
  - rewrite Hf5. subst w4. cbn [w_files]. rewrite lookup_insert_eq.
    by eexists.
Qed.

Definition whisper_out_of_memory : env :=
  {| yt_dlp := fun _ _ => NotInstalled;
     moviepy := fun _ => Extracted (lit "RIFF");
     whisper := fun _ _ _ => TranscribeError (Failure (lit "out of memory")) |}.

Lemma main_whisper_failure_witness :
  exists w',
    main whisper_out_of_memory sample_args input_world
    = (Raise (Failure (lit "out of memory")), w')
    /\ w_files w' = delete (lit "output/talk/talk_audio.wav")
                      (w_files input_world).
Proof.
  destruct (main_whisper_failure whisper_out_of_memory sample_args
              input_world input_world input_world
              {| w_dirs := {[ lit "output/talk" ]} ∪ w_dirs input_world;
                 w_files := w_files input_world;
                 w_out := w_out input_world |}
              (Path.parse (lit "input/talk.mp4")) (lit "RIFF")
              (Failure (lit "out of memory")))
    as (w' & H & Hf & _).
  - reflexivity.
  - vm_compute. reflexivity.
  - vm_compute. reflexivity.
  - vm_compute. reflexivity.
  - reflexivity.
  - vm_compute. reflexivity.
  - right. reflexivity.
  - exists w'. split; [exact H|exact Hf].
Defined.

Lemma audio_removed_after_extraction_witness :
  w_files (snd (main sample_env sample_args input_world))
    !! lit "output/talk/talk_audio.wav" = None.
Proof.
  apply (audio_removed_after_extraction sample_env sample_args input_world
           input_world input_world
           {| w_dirs := {[ lit "output/talk" ]} ∪ w_dirs input_world;
              w_files := w_files input_world;
              w_out := w_out input_world |}
           (Path.parse (lit "input/talk.mp4")) (lit "RIFF")).
  - reflexivity.
  - vm_compute. reflexivity.
  - vm_compute. reflexivity.
  - vm_compute. reflexivity.
  - reflexivity.
Defined.

Lemma format_timestamp_below_one_day_witness :
  format_timestamp (PyFloat.of_ratio 37259 10) = Ok (lit "1:02:05").
Proof.
  apply (format_timestamp_below_one_day (PyFloat.of_ratio 37259 10) 3725).
  - vm_compute. reflexivity.
  - lia.
Defined.

(** ** What a run leaves alone *)

(** [save_transcription] touches one file at most, the one at
    [output_path], whether it returns or raises. *)
Lemma save_transcription_frame (result : Transcription) (path fmt : str)
    (w : world) :
  w_dirs (snd (save_transcription result path fmt w)) = w_dirs w
  /\ forall k, k <> file_key path ->
       w_files (snd (save_transcription result path fmt w)) !! k
       = w_files w !! k.
Proof.
  destruct (decide (In fmt known_formats)) as [Hf|Hf];
    [|by rewrite save_other].
  destruct (writable_dec w path) as [Hw|Hno];
    [|by rewrite save_refused].
  assert (Hne : forall k (t : str), k <> file_key path ->
            <[ file_key path := t ]> (w_files w) !! k = w_files w !! k)
    by (intros k t Hk; by apply lookup_insert_ne).
  unfold known_formats in Hf. simpl in Hf.
  destruct Hf as [<-|[<-|[<-|[<-|[]]]]].
  - rewrite save_txt by exact Hw. split; [reflexivity|intros k Hk; by apply (Hne k)].
  - rewrite save_json by exact Hw. split; [reflexivity|intros k Hk; by apply (Hne k)].
  - destruct (first_bad_segment (r_segments result))
      as [Hs|(good & bad & rest & e & Hsegs & Hg & Hb)].
    + rewrite save_srt by assumption. split; [reflexivity|intros k Hk; by apply (Hne k)].
    + rewrite (save_srt_stops result path w good bad rest e) by assumption.
      split; [reflexivity|intros k Hk; by apply (Hne k)].
  - destruct (first_bad_segment (r_segments result))
      as [Hs|(good & bad & rest & e & Hsegs & Hg & Hb)].
    + rewrite save_vtt by assumption. split; [reflexivity|intros k Hk; by apply (Hne k)].
    + rewrite (save_vtt_stops result path w good bad rest e) by assumption.
      split; [reflexivity|intros k Hk; by apply (Hne k)].
Qed.

Lemma save_all_frame (a : args) (result : Transcription)
    (formats : list str) (dir : Path.t) (stem : str) (todo : list str) :
  forall w : world,
    w_dirs (snd (save_all a result formats dir stem todo w)) = w_dirs w
    /\ forall k,
         (forall fmt, In fmt todo ->
            k <> file_key (Path.to_str (output_path_for a formats dir stem
                                          fmt))) ->
         w_files (snd (save_all a result formats dir stem todo w)) !! k
         = w_files w !! k.
Proof.
  induction todo as [|fmt todo IH]; intros w; [by split|].
  cbn [save_all]. unfold iobind.
  pose proof (save_transcription_frame result
                (Path.to_str (output_path_for a formats dir stem fmt)) fmt w)
    as [Hd Hf].
  destruct (save_transcription result _ fmt w) as [[[]|e] w1];
    cbn [snd] in Hd, Hf |- *.
  - destruct (IH w1) as [Hd1 Hf1]. split; [by rewrite Hd1|].
    intros k Hk. rewrite Hf1 by (intros f Hin; apply Hk; by right).
    apply Hf, Hk. by left.
  - split; [exact Hd|]. intros k Hk. apply Hf, Hk. by left.
Qed.

Lemma transcribe_audio_frame (E : env) (audio model : str)
    (language : option str) (w : world) :
  w_dirs (snd (transcribe_audio E audio model language w)) = w_dirs w
  /\ w_files (snd (transcribe_audio E audio model language w)) = w_files w.
Proof.
  unfold transcribe_audio, iobind, print, get_world. cbn [w_files].
  match goal with
  | |- context [whisper E ?d model language] =>
      destruct (whisper E d model language)
  end; split; reflexivity.
Qed.

Lemma stem_no_slash (p : Path.t) : normal p -> ~ In Path.slash (Path.stem p).
Proof.
  intros [_ Hp].
  assert (Hname : ~ In Path.slash (Path.name p)).
  { unfold Path.name. destruct (Path.parts p) as [|c ps] eqn:Hparts;
      [intros []|].
    assert (Hin : In (List.last (c :: ps) []) (c :: ps))
      by (destruct (exists_last (l := c :: ps) ltac:(done)) as (l' & x & ->);
          rewrite last_last; apply in_or_app; right; by left).
    rewrite Forall_forall in Hp.
    by destruct (Hp _ (proj2 (list_elem_of_In _ _) Hin)) as (_ & _ & ?). }
  unfold Path.stem. cbv zeta.
  destruct (Path.rfind_dot (Path.name p)) as [i|]; [|exact Hname].
  destruct ((0 <? i)%nat && (i <? length (Path.name p) - 1)%nat);
    [|exact Hname].
  intros Hin. apply Hname. apply list_elem_of_In.
  apply list_elem_of_In in Hin. by apply elem_of_take in Hin as (j & Hj & _);
    apply list_elem_of_lookup_2 in Hj.
Qed.

Lemma audio_name_plain (stem : str) :
  ~ In Path.slash stem -> plain (stem ++ lit "_audio.wav").
Proof.
  intros Hs. split; [|split].
  - rewrite in_app_iff. intros [H|H]; [by apply Hs|].
    vm_compute in H. intuition discriminate.
  - intros H. apply (f_equal (@length _)) in H.
    rewrite length_app in H. simpl in H. lia.
  - intros H. apply (f_equal (@length _)) in H.
    rewrite length_app in H. simpl in H. lia.
Qed.

(** The default path of a rendering is never that of the waveform. *)
Lemma default_path_not_audio (dir : Path.t) (stem f : str) :
  normal dir -> ~ In Path.slash stem -> In f known_formats ->
  Path.to_str (Path.joinpath dir (stem ++ lit "_transcription." ++ f))
  <> Path.to_str (Path.joinpath dir (stem ++ lit "_audio.wav")).
Proof.
  intros Hd Hs Hf Heq.
  apply to_str_inj in Heq; [|by apply joinpath_normal..].
  rewrite (joinpath_plain dir (stem ++ lit "_transcription." ++ f)) in Heq
    by (by apply transcription_name_plain).
  rewrite (joinpath_plain dir (stem ++ lit "_audio.wav")) in Heq
    by (by apply audio_name_plain).
  injection Heq as Heq. apply app_inv_head in Heq. injection Heq as Heq.
  apply app_inv_head in Heq. vm_compute in Heq. discriminate Heq.
Qed.

Lemma resolve_input_normal (E : env) (a : args) (w w' : world)
    (p : Path.t) :
  resolve_input E a w = (Ok p, w') -> normal p.
Proof.
  unfold resolve_input. destruct (is_youtube_url (a_video_path a)).
  - unfold iobind at 1, print at 1. unfold iobind at 1.
    unfold download_youtube_video.
    destruct (yt_dlp E _ _); unfold iobind, print, put_file, ret, raise;
      intros H; try discriminate H.
    injection H as <- _. apply parse_normal.
  - unfold iobind, get_world.
    destruct (exists_ w (Path.parse (a_video_path a))).
    + intros H. injection H as <- _. apply parse_normal.
    + destruct (exists_ w (Path.joinpath input_dir (a_video_path a))).
      * intros H. injection H as <- _.
        apply joinpath_normal, parse_normal.
      * unfold print, raise. intros H. discriminate H.
Qed.

(** No rendering goes to [key] when [--output], if given, names another
    file and the rest goes to the default paths. *)
Lemma targets_not_audio (a : args) (video_path : Path.t) (fmt : str) :
  normal video_path ->
  In (a_format a) format_choices ->
  let dir := Path.joinpath output_dir (Path.stem video_path) in
  let audio_path :=
    Path.joinpath dir (Path.stem video_path ++ lit "_audio.wav") in
  (forall o, a_output a = Some o -> file_key o <> Path.to_str audio_path) ->
  In fmt (formats_of (a_format a)) ->
  Path.to_str audio_path
  <> file_key (Path.to_str (output_path_for a (formats_of (a_format a)) dir
                              (Path.stem video_path) fmt)).
Proof.
  intros Hv Hc dir audio_path Ho Hin.
  pose proof (formats_of_choice _ _ Hc Hin) as Hknown.
  unfold output_path_for.
  destruct (truthy (a_output a) && (length (formats_of (a_format a)) =? 1)%nat)
    eqn:Hcustom.
  - apply andb_true_iff in Hcustom as [Ht _].
    destruct (a_output a) as [[|c o]|] eqn:Hout; try discriminate Ht.
    change (default [] (Some (c :: o))) with (c :: o).
    rewrite (file_key_to_str _ (parse_normal (c :: o))).
    intros Heq. by apply (Ho (c :: o) eq_refl).
  - rewrite file_key_to_str
      by apply joinpath_normal, joinpath_normal, output_dir_normal.
    intros Heq. symmetry in Heq. revert Heq.
    apply default_path_not_audio; [|by apply stem_no_slash|exact Hknown].
    apply joinpath_normal, output_dir_normal.
Qed.

(** X15. With [--keep-audio], the waveform is still there at the end of
    the run, with what moviepy wrote, whether the run succeeded or Whisper
    or a save raised; this supposes that [--output], if given, does not
    name the waveform itself. *)
Theorem keep_audio_keeps_waveform (E : env) (a : args) (w w1 w2 w3 : world)
    (video_path : Path.t) (data : str) :
  a_keep_audio a = true ->
  In (a_format a) format_choices ->
  setup_directories w = (Ok tt, w1) ->
  resolve_input E a w1 = (Ok video_path, w2) ->
  mkdir_exist_ok (Path.joinpath output_dir (Path.stem video_path)) w2
  = (Ok tt, w3) ->
  moviepy E (Path.to_str video_path) = Extracted data ->
  let audio_path :=
    Path.joinpath (Path.joinpath output_dir (Path.stem video_path))
      (Path.stem video_path ++ lit "_audio.wav") in
  (forall o, a_output a = Some o -> file_key o <> Path.to_str audio_path) ->
  w_files (snd (main E a w)) !! Path.to_str audio_path = Some data.
Proof.
  intros Hk Hc Hs Hr Hm He audio_path Ho.
  pose proof (resolve_input_normal E a w1 w2 video_path Hr) as Hv.
  main_to_extraction Hs Hr Hm. rewrite He.
  unfold iobind at 1 2 3, print at 1 2, put_file, ret.
  cbn [negb w_dirs w_files w_out]. fold audio_path.
  rewrite (parse_to_str audio_path (audio_path_normal video_path)).
  match goal with
  | |- context [try_finally _ _ ?x] => set (w4 := x)
  end.
  assert (Hfile : w_files w4 !! Path.to_str audio_path = Some data)
    by apply lookup_insert_eq.
  unfold try_finally. rewrite Hk.
  unfold iobind at 1.
  pose proof (transcribe_audio_frame E (Path.to_str audio_path) (a_model a)
                (a_language a) w4) as [_ Hf5].
  destruct (transcribe_audio E (Path.to_str audio_path) (a_model a)
              (a_language a) w4) as [[[result elapsed]|e] w5];
    cbn [snd] in Hf5; [|cbn; by rewrite Hf5].
  unfold iobind at 1.
  pose proof (save_all_frame a result (formats_of (a_format a))
                (Path.joinpath output_dir (Path.stem video_path))
                (Path.stem video_path) (formats_of (a_format a)) w5)
    as [_ Hf6].
  specialize (Hf6 (Path.to_str audio_path)
                (fun fmt Hin => targets_not_audio a video_path fmt Hv Hc Ho Hin)).
  destruct (save_all a result (formats_of (a_format a))
              (Path.joinpath output_dir (Path.stem video_path))
              (Path.stem video_path) (formats_of (a_format a)) w5)
    as [[[]|e] w6]; cbn [snd] in Hf6; [|cbn; by rewrite Hf6, Hf5].
  unfold iobind at 1, lift.
  destruct (time_str elapsed) as [ts|e]; [|cbn; by rewrite Hf6, Hf5].
  cbn. by rewrite Hf6, Hf5.
Qed.

Lemma keep_audio_keeps_waveform_witness :
  w_files (snd (main sample_env
                  {| a_video_path := lit "talk.mp4";
                     a_model := lit "medium";
                     a_language := None;
                     a_format := lit "all";
                     a_output := None;
                     a_keep_audio := true |} input_world))
    !! lit "output/talk/talk_audio.wav" = Some (lit "RIFF").
Proof.
  apply (keep_audio_keeps_waveform sample_env
           {| a_video_path := lit "talk.mp4";
              a_model := lit "medium";
              a_language := None;
              a_format := lit "all";
              a_output := None;
              a_keep_audio := true |}
           input_world input_world input_world
           {| w_dirs := {[ lit "output/talk" ]} ∪ w_dirs input_world;
              w_files := w_files input_world;
              w_out := w_out input_world |}
           (Path.parse (lit "input/talk.mp4")) (lit "RIFF")).
  - reflexivity.
  - vm_compute. tauto.
  - vm_compute. reflexivity.
  - vm_compute. reflexivity.
  - vm_compute. reflexivity.
  - reflexivity.
  - intros o Ho. discriminate Ho.
Defined.

(** ** A run that succeeds *)

Lemma rendering_cases (result : Transcription) :
  rendering result (lit "txt") = r_text result
  /\ rendering result (lit "json") = Json.dumps (output_data result)
  /\ rendering result (lit "srt")
     = concat (zip_with srt_block
                 (seqZ 1 (Z.of_nat (length (r_segments result))))
                 (r_segments result))
  /\ rendering result (lit "vtt")
     = lit "WEBVTT" ++ nl ++ nl ++ concat (map vtt_block (r_segments result)).
Proof. repeat split; reflexivity. Qed.

(** A save of a known format that meets no obstacle. *)
Lemma save_known (result : Transcription) (path fmt : str) (w : world) :
  In fmt known_formats -> writable w path ->
  Forall stampable (r_segments result) ->
  exists w1,
    save_transcription result path fmt w = (Ok tt, w1)
    /\ w_dirs w1 = w_dirs w
    /\ w_files w1 = <[ file_key path := rendering result fmt ]> (w_files w)
    /\ length (w_out w1) = S (length (w_out w)).
Proof.
  intros Hf Hw Hs. unfold known_formats in Hf. simpl in Hf.
  assert (Hlen : forall s : str, length (w_out w ++ [s]) = S (length (w_out w)))
    by (intros s; rewrite length_app; simpl; lia).
  destruct Hf as [<-|[<-|[<-|[<-|[]]]]]; eexists.
  - rewrite save_txt by exact Hw. split; [reflexivity|].
    split; [reflexivity|]. split; [reflexivity|apply Hlen].
  - rewrite save_json by exact Hw. split; [reflexivity|].
    split; [reflexivity|]. split; [reflexivity|apply Hlen].
  - rewrite save_srt by assumption. split; [reflexivity|].
    split; [reflexivity|]. split; [reflexivity|apply Hlen].
  - rewrite save_vtt by assumption. split; [reflexivity|].
    split; [reflexivity|]. split; [reflexivity|apply Hlen].
Qed.

(** The saving loop when every save meets no obstacle: the renderings are
    put in the file store one after the other. *)
Lemma save_all_known (a : args) (result : Transcription)
    (formats : list str) (dir : Path.t) (stem : str) (todo : list str) :
  Forall stampable (r_segments result) ->
  (forall f, In f todo -> In f known_formats) ->
  forall w : world,
    (forall f, In f todo ->
       writable w (Path.to_str (output_path_for a formats dir stem f))) ->
    exists w',
      save_all a result formats dir stem todo w = (Ok tt, w')
      /\ w_dirs w' = w_dirs w
      /\ w_files w'
         = fold_left
             (fun m f =>
                <[ file_key (Path.to_str (output_path_for a formats dir stem f))
                   := rendering result f ]> m)
             todo (w_files w)
      /\ length (w_out w') = (length (w_out w) + length todo)%nat.
Proof.
  intros Hs. induction todo as [|f todo IH]; intros Hk w Hw.
  - exists w. cbn. repeat split; lia.
  - destruct (save_known result
                (Path.to_str (output_path_for a formats dir stem f)) f w)
      as (w1 & H1 & Hd1 & Hf1 & Ho1);
      [apply Hk; by left|apply Hw; by left|exact Hs|].
    destruct (IH (fun g Hg => Hk g (or_intror Hg)) w1) as (w' & H & Hd & Hf & Ho).
    { intros g Hg. apply (writable_same_dirs w w1 _ Hd1), Hw. by right. }
    exists w'. cbn [save_all fold_left length]. unfold iobind. rewrite H1.
    split; [exact H|]. split; [by rewrite Hd|].
    split; [by rewrite Hf, Hf1|lia].
Qed.

Lemma default_target (stem f : str) :
  plain stem -> In f known_formats ->
  file_key (Path.to_str (Path.joinpath (Path.joinpath output_dir stem)
                           (stem ++ lit "_transcription." ++ f)))
  = lit "output/" ++ stem ++ lit "/" ++ stem ++ lit "_transcription." ++ f.
Proof.
  intros Hp Hf.
  rewrite file_key_to_str
    by apply joinpath_normal, joinpath_normal, output_dir_normal.
  by apply default_path_string.
Qed.

Lemma targets_differ (stem f g : str) :
  f <> g ->
  lit "output/" ++ stem ++ lit "/" ++ stem ++ lit "_transcription." ++ f
  <> lit "output/" ++ stem ++ lit "/" ++ stem ++ lit "_transcription." ++ g.
Proof. intros Hne H. by repeat apply app_inv_head in H. Qed.

Lemma parent_joinpath_plain (dir : Path.t) (name : str) :
  plain name -> Path.parent (Path.joinpath dir name) = dir.
Proof.
  intros Hn. rewrite joinpath_plain by exact Hn. unfold Path.parent.
  cbn [Path.root Path.parts]. rewrite removelast_last. by destruct dir.
Qed.

Lemma is_dir_joinpath_plain (w : world) (dir : Path.t) (name : str) :
  plain name ->
  is_dir w (Path.joinpath dir name)
  = bool_decide (Path.to_str (Path.joinpath dir name) ∈ w_dirs w).
Proof.
  intros Hn. unfold is_dir. rewrite joinpath_plain by exact Hn.
  cbn [Path.parts]. by destruct (Path.parts dir).
Qed.

(** The default path of a rendering can be opened when the per-video
    directory is there and no directory has the name of the file. *)
Lemma default_target_writable (w : world) (stem f : str) :
  plain stem -> In f known_formats ->
  is_dir w (Path.joinpath output_dir stem) = true ->
  lit "output/" ++ stem ++ lit "/" ++ stem ++ lit "_transcription." ++ f
    ∉ w_dirs w ->
  writable w (Path.to_str (Path.joinpath (Path.joinpath output_dir stem)
                             (stem ++ lit "_transcription." ++ f))).
Proof.
  intros Hp Hf Hdir Hno.
  assert (Hplain : plain (stem ++ lit "_transcription." ++ f))
    by (apply transcription_name_plain; [apply Hp|exact Hf]).
  unfold writable.
  rewrite parse_to_str
    by apply joinpath_normal, joinpath_normal, output_dir_normal.
  rewrite parent_joinpath_plain by exact Hplain. split; [|exact Hdir].
  rewrite is_dir_joinpath_plain by exact Hplain.
  apply bool_decide_eq_false. by rewrite default_path_string.
Qed.

(** X16. [--format all]: the loop writes the four renderings to
    [output/<stem>/<stem>_transcription.txt], [.json], [.srt] and [.vtt],
    four different files, whatever [--output] says; no other file and no
    directory changes, and four lines are printed. This supposes that the
    per-video directory is there, that no directory has the name of one of
    the four files and that the timestamps can be formatted. *)
Theorem save_all_four_renderings (a : args) (result : Transcription)
    (stem : str) (w : world) :
  plain stem ->
  let dir := Path.joinpath output_dir stem in
  let target := fun f => lit "output/" ++ stem ++ lit "/" ++ stem
                         ++ lit "_transcription." ++ f in
  is_dir w dir = true ->
  (forall f, In f known_formats -> target f ∉ w_dirs w) ->
  Forall stampable (r_segments result) ->
  exists w',
    save_all a result (formats_of (lit "all")) dir stem
      (formats_of (lit "all")) w = (Ok tt, w')
    /\ w_files w' !! target (lit "txt") = Some (r_text result)
    /\ w_files w' !! target (lit "json")
       = Some (Json.dumps (output_data result))
    /\ w_files w' !! target (lit "srt")
       = Some (concat (zip_with srt_block
                         (seqZ 1 (Z.of_nat (length (r_segments result))))
                         (r_segments result)))
    /\ w_files w' !! target (lit "vtt")
       = Some (lit "WEBVTT" ++ nl ++ nl
               ++ concat (map vtt_block (r_segments result)))
    /\ (forall k, (forall f, In f known_formats -> k <> target f) ->
          w_files w' !! k = w_files w !! k)
    /\ w_dirs w' = w_dirs w
    /\ length (w_out w') = (length (w_out w) + 4)%nat.
Proof.
  intros Hp dir target Hdir Hno Hs.
  change (formats_of (lit "all")) with known_formats.
  assert (Hpath : forall f,
            output_path_for a known_formats dir stem f
            = Path.joinpath dir (stem ++ lit "_transcription." ++ f)).
  { intros f. unfold output_path_for. cbn [length Nat.eqb known_formats].
    by rewrite andb_false_r. }
  destruct (save_all_known a result known_formats dir stem known_formats Hs
              (fun f H => H) w) as (w' & H & Hd & Hf & Ho).
  { intros f Hin. rewrite Hpath. by apply default_target_writable; [| |
      |apply Hno]. }
  exists w'. split; [exact H|].
  assert (Hkey : forall f, In f known_formats ->
            file_key (Path.to_str (output_path_for a known_formats dir stem f))
            = target f).
  { intros f Hin. rewrite Hpath. by apply default_target. }
  unfold known_formats in Hf at 2. cbn [fold_left] in Hf.
  rewrite !Hkey in Hf by (vm_compute; tauto).
  destruct (rendering_cases result) as (Rt & Rj & Rs & Rv).
  rewrite Rt, Rj, Rs, Rv in Hf.
  rewrite Hf.
  assert (Hneq : forall f g : str, f <> g -> target f <> target g)
    by (intros f g; apply targets_differ).
  split.
  { rewrite !lookup_insert_ne by (apply Hneq; discriminate).
    apply lookup_insert_eq. }
  split.
  { rewrite !lookup_insert_ne by (apply Hneq; discriminate).
    apply lookup_insert_eq. }
  split.
  { rewrite !lookup_insert_ne by (apply Hneq; discriminate).
    apply lookup_insert_eq. }
  split; [apply lookup_insert_eq|].
  split; [|split; [exact Hd|exact Ho]].
  intros k Hk.
  rewrite !lookup_insert_ne
    by (intros Heq; symmetry in Heq; revert Heq; apply Hk; vm_compute; tauto).
  reflexivity.
Qed.

Lemma save_all_four_renderings_witness :
  exists w',
    save_all sample_args sample_result (formats_of (lit "all"))
      (Path.joinpath output_dir (lit "talk")) (lit "talk")
      (formats_of (lit "all"))
      {| w_dirs := {[ lit "output"; lit "output/talk" ]};
         w_files := ∅; w_out := [] |} = (Ok tt, w')
    /\ w_files w' !! (lit "output/" ++ lit "talk" ++ lit "/" ++ lit "talk"
                      ++ lit "_transcription." ++ lit "txt")
       = Some (lit "hello world").
Proof.
  destruct (save_all_four_renderings sample_args sample_result (lit "talk")
              {| w_dirs := {[ lit "output"; lit "output/talk" ]};
                 w_files := ∅; w_out := [] |})
    as (w' & H & Htxt & _).
  - vm_compute. intuition discriminate.
  - vm_compute. reflexivity.
  - intros f Hf. cbn [w_dirs]. unfold known_formats in Hf. simpl in Hf.
    destruct Hf as [<-|[<-|[<-|[<-|[]]]]];
      apply (bool_decide_unpack _); vm_compute; reflexivity.
  - exact sample_stampable.
  - exists w'. split; [exact H|exact Htxt].
Defined.

Lemma transcribe_audio_ok (E : env) (audio model : str)
    (language : option str) (w : world) (data : option str)
    (result : Transcription) (elapsed : PyFloat.float) :
  w_files w !! file_key audio = data ->
  whisper E data model language = Transcribed result elapsed ->
  transcribe_audio E audio model language w
  = (Ok (result, elapsed),
     {| w_dirs := w_dirs w; w_files := w_files w;
        w_out := (w_out w ++ [lit "Loading Whisper " ++ model
                              ++ lit " model..."])
                 ++ [lit "Transcribing audio (this may take a while on CPU)..."]
     |}).
Proof.
  intros Hf Hw. unfold transcribe_audio, file_key in *.
  unfold iobind at 1, print at 1. unfold iobind at 1, get_world.
  cbn [w_files]. rewrite Hf, Hw. reflexivity.
Qed.

Lemma mkdir_ok_is_dir (p : Path.t) (w w' : world) :
  mkdir_exist_ok p w = (Ok tt, w') -> is_dir w' p = true.
Proof.
  unfold mkdir_exist_ok. destruct (is_dir w p) eqn:Hd.
  - intros H. injection H as <-. exact Hd.
  - destruct (is_file w p || negb (is_dir w (Path.parent p)));
      intros H; [discriminate H|]. injection H as <-.
    unfold is_dir. cbn [w_dirs]. destruct (Path.parts p); [reflexivity|].
    by apply bool_decide_eq_true, elem_of_union_l, elem_of_singleton_2.
Qed.

Lemma fold_insert_frame (key val : str -> str) (todo : list str) :
  forall (m : gmap str str) (k : str),
    (forall g, In g todo -> key g <> k) ->
    fold_left (fun m f => <[ key f := val f ]> m) todo m !! k = m !! k.
Proof.
  induction todo as [|g todo IH]; intros m k Hk; [reflexivity|].
  cbn [fold_left]. rewrite IH by (intros h Hh; apply Hk; by right).
  apply lookup_insert_ne, Hk. by left.
Qed.

Lemma fold_insert_lookup (key val : str -> str) (todo : list str) :
  forall (m : gmap str str) (f : str),
    NoDup todo ->
    (forall g h, In g todo -> In h todo -> key g = key h -> g = h) ->
    In f todo ->
    fold_left (fun m f => <[ key f := val f ]> m) todo m !! key f
    = Some (val f).
Proof.
  induction todo as [|g todo IH]; intros m f Hnd Hinj Hin; [destruct Hin|].
  apply NoDup_cons in Hnd as [Hg Hnd]. cbn [fold_left].
  destruct (decide (f = g)) as [->|Hne].
  - rewrite fold_insert_frame; [apply lookup_insert_eq|].
    intros h Hh Heq. apply Hg. apply list_elem_of_In.
    rewrite <- (Hinj h g (or_intror Hh) (or_introl eq_refl) Heq). exact Hh.
  - apply IH; [exact Hnd| |].
    + intros h1 h2 H1 H2. apply Hinj; by right.
    + destruct Hin as [Heq|Hin]; [by destruct Hne|exact Hin].
Qed.

Lemma formats_of_nodup (fmt : str) : NoDup (formats_of fmt).
Proof.
  unfold formats_of. destruct (Path.str_eqb fmt (lit "all")).
  - apply (bool_decide_unpack _). by vm_compute.
  - apply NoDup_singleton.
Qed.

(** X17. A run in which nothing goes wrong returns normally (exit
    status 0): every format asked for is in
    [output/<stem>/<stem>_transcription.<ext>] with its rendering, the
    line with the processing time has been printed, and the waveform is
    gone, or kept with [--keep-audio]. Here [--output] is not given. *)
Theorem main_success (E : env) (a : args) (w w1 w2 w3 : world)
    (video_path : Path.t) (data : str) (result : Transcription)
    (elapsed : PyFloat.float) (ts : str) :
  In (a_format a) format_choices ->
  a_output a = None ->
  setup_directories w = (Ok tt, w1) ->
  resolve_input E a w1 = (Ok video_path, w2) ->
  mkdir_exist_ok (Path.joinpath output_dir (Path.stem video_path)) w2
  = (Ok tt, w3) ->
  moviepy E (Path.to_str video_path) = Extracted data ->
  whisper E (Some data) (a_model a) (a_language a)
  = Transcribed result elapsed ->
  Forall stampable (r_segments result) ->
  time_str elapsed = Ok ts ->
  let stem := Path.stem video_path in
  let audio_path :=
    Path.joinpath (Path.joinpath output_dir stem) (stem ++ lit "_audio.wav") in
  let target := fun f => lit "output/" ++ stem ++ lit "/" ++ stem
                         ++ lit "_transcription." ++ f in
  plain stem ->
  is_dir w3 audio_path = false ->
  (forall f, In f known_formats -> target f ∉ w_dirs w3) ->
  exists w',
    main E a w = (Ok tt, w')
    /\ (forall f, In f (formats_of (a_format a)) ->
          w_files w' !! target f = Some (rendering result f))
    /\ w_files w' !! Path.to_str audio_path
       = (if a_keep_audio a then Some data else None)
    /\ w_dirs w' = w_dirs w3
    /\ In (lit "  Processing time: " ++ ts) (w_out w').
Proof.
  intros Hc Hout Hs Hr Hm He Hw Hst Hts stem audio_path target Hp Hdir Hno.
  pose proof (resolve_input_normal E a w1 w2 video_path Hr) as Hv.
  pose proof (mkdir_ok_is_dir _ _ _ Hm) as Hvdir.
  assert (Hknown : forall f, In f (formats_of (a_format a)) ->
            In f known_formats) by (intros f; by apply formats_of_choice).
  assert (Hpath : forall f,
            output_path_for a (formats_of (a_format a))
              (Path.joinpath output_dir stem) stem f
            = Path.joinpath (Path.joinpath output_dir stem)
                (stem ++ lit "_transcription." ++ f)).
  { intros f. unfold output_path_for. by rewrite Hout. }
  assert (Hkey : forall f, In f known_formats ->
            file_key (Path.to_str
                        (output_path_for a (formats_of (a_format a))
                           (Path.joinpath output_dir stem) stem f))
            = target f).
  { intros f Hin. rewrite Hpath. by apply default_target. }
  assert (Haudio : forall f, In f known_formats ->
            target f <> Path.to_str audio_path).
  { intros f Hin. unfold target.
    rewrite <- (default_path_string stem f Hp Hin).
    apply default_path_not_audio;
      [apply joinpath_normal, output_dir_normal|by apply stem_no_slash
      |exact Hin]. }
  main_to_extraction Hs Hr Hm. rewrite He.
  unfold iobind at 1 2 3, print at 1 2, put_file, ret.
  cbn [negb w_dirs w_files w_out]. fold stem. fold audio_path.
  rewrite (parse_to_str audio_path (audio_path_normal video_path)).
  match goal with
  | |- context [try_finally _ _ ?x] => set (w4 := x)
  end.
  assert (Hfile : w_files w4 !! file_key (Path.to_str audio_path) = Some data).
  { rewrite (file_key_to_str audio_path (audio_path_normal video_path)).
    apply lookup_insert_eq. }
  unfold try_finally. unfold iobind at 1.
  rewrite (transcribe_audio_ok E (Path.to_str audio_path) (a_model a)
             (a_language a) w4 (Some data) result elapsed Hfile Hw).
  cbv beta iota. unfold iobind at 1.
  match goal with
  | |- context [save_all _ _ _ _ _ _ ?x] => set (w5 := x)
  end.
  destruct (save_all_known a result (formats_of (a_format a))
              (Path.joinpath output_dir stem) stem (formats_of (a_format a))
              Hst Hknown w5) as (w6 & H6 & Hd6 & Hf6 & _).
  { intros f Hin. rewrite Hpath.
    apply default_target_writable;
      [exact Hp|by apply Hknown|exact Hvdir|by apply Hno, Hknown]. }
  rewrite H6.
  unfold iobind at 1, lift. rewrite Hts.
  assert (Hlook : forall f, In f (formats_of (a_format a)) ->
            w_files w6 !! target f = Some (rendering result f)).
  { intros f Hin. rewrite Hf6, <- (Hkey f (Hknown f Hin)).
    apply (fold_insert_lookup
             (fun f => file_key (Path.to_str
                                   (output_path_for a (formats_of (a_format a))
                                      (Path.joinpath output_dir stem) stem f)))
             (rendering result)); [apply formats_of_nodup| |exact Hin].
    intros g h Hg Hh. rewrite !Hkey by (by apply Hknown).
    intros Heq. destruct (decide (g = h)) as [|Hne]; [done|].
    by destruct (targets_differ stem g h Hne). }
  assert (Hkept : w_files w6 !! Path.to_str audio_path = Some data).
  { rewrite Hf6.
    rewrite (fold_insert_frame
               (fun f => file_key (Path.to_str
                                     (output_path_for a (formats_of (a_format a))
                                        (Path.joinpath output_dir stem) stem f)))
               (rendering result)).
    - apply lookup_insert_eq.
    - intros g Hg. rewrite Hkey by (by apply Hknown). by apply Haudio, Hknown. }
  destruct (a_keep_audio a) eqn:Hk.
  - unfold iobind, print, get_world. cbn [negb andb].
    eexists. split; [reflexivity|]. cbn [w_files w_dirs w_out].
    split; [exact Hlook|]. split; [exact Hkept|]. split; [exact Hd6|].
    rewrite !in_app_iff. left. left. left. right. by left.
  - assert (Hcl := fun w => cleanup_existing a audio_path w Hk).
    unfold ret in Hcl. rewrite Hk in Hcl.
    unfold iobind at 1 2 3 4 5 6 7, print at 1 2 3 4 5 6 7.
    cbv beta iota.
    rewrite Hcl.
    + eexists. split; [reflexivity|]. cbn [w_files w_dirs w_out].
      split; [|split; [apply lookup_delete_eq|split; [exact Hd6|]]].
      * intros f Hin. rewrite lookup_delete_ne by (symmetry; by apply Haudio, Hknown).
        by apply Hlook.
      * rewrite !in_app_iff. left. left. left. right. by left.
    + cbn [ret]. rewrite <- Hdir. by apply is_dir_same_dirs.
    + cbn [ret w_files]. rewrite Hkept. by eexists.
Qed.

Lemma main_success_witness :
  exists w',
    main sample_env
      {| a_video_path := lit "talk.mp4";
         a_model := lit "medium";
         a_language := None;
         a_format := lit "all";
         a_output := None;
         a_keep_audio := false |} input_world = (Ok tt, w')
    /\ w_files w' !! lit "output/talk/talk_transcription.txt"
       = Some (lit "hello world")
    /\ w_files w' !! lit "output/talk/talk_audio.wav" = None
    /\ In (lit "  Processing time: 2m 5s") (w_out w').
Proof.
  destruct (main_success sample_env
              {| a_video_path := lit "talk.mp4";
                 a_model := lit "medium";
                 a_language := None;
                 a_format := lit "all";
                 a_output := None;
                 a_keep_audio := false |}
              input_world input_world input_world
              {| w_dirs := {[ lit "output/talk" ]} ∪ w_dirs input_world;
                 w_files := w_files input_world;
                 w_out := w_out input_world |}
              (Path.parse (lit "input/talk.mp4")) (lit "RIFF")
              sample_result (PyFloat.of_ratio 125 1) (lit "2m 5s"))
    as (w' & H & Hfiles & Haudio & _ & Hout).
  - vm_compute. tauto.
  - reflexivity.
  - vm_compute. reflexivity.
  - vm_compute. reflexivity.
  - vm_compute. reflexivity.
  - reflexivity.
  - reflexivity.
  - exact sample_stampable.
  - vm_compute. reflexivity.
  - vm_compute. intuition discriminate.
  - vm_compute. reflexivity.
  - intros f Hf. cbn [w_dirs]. unfold known_formats in Hf. simpl in Hf.
    destruct Hf as [<-|[<-|[<-|[<-|[]]]]];
      apply (bool_decide_unpack _); vm_compute; reflexivity.
  - exists w'. split; [exact H|].
    split; [exact (Hfiles (lit "txt") ltac:(vm_compute; tauto))|].
    split; [exact Haudio|exact Hout].
Defined.

(** ** Characters of the JSON file *)

Lemma hex_digit_printable (d : N) : (32 <= Json.hex_digit d)%N.
Proof. unfold Json.hex_digit. destruct (d <? 10)%N; lia. Qed.

Lemma escape_char_printable (c : char) :
  Forall (fun x => (32 <= x)%N) (Json.escape_char c).
Proof.
  unfold Json.escape_char.
  repeat match goal with
         | |- context [if (?a =? ?b)%N then _ else _] =>
             destruct (a =? b)%N;
             [by (apply (bool_decide_unpack _); vm_compute)|]
         end.
  destruct (N.ltb_spec c 32).
  - change (lit "\u00") with [92; 117; 48; 48]%N.
    repeat constructor; try lia; apply hex_digit_printable.
  - by repeat constructor.
Qed.

Lemma encode_basestring_printable (s : str) :
  Forall (fun x => (32 <= x)%N) (Json.encode_basestring s).
Proof.
  unfold Json.encode_basestring.
  apply Forall_app. split; [repeat constructor; lia|].
  apply Forall_app. split; [|repeat constructor; lia].
  induction s as [|c s IH]; [constructor|].
  cbn [map concat]. apply Forall_app. split; [apply escape_char_printable|exact IH].
Qed.

Lemma num_char_printable (c : char) :
  JsonRead.is_num_char c = true -> (32 <= c)%N.
Proof.
  unfold JsonRead.is_num_char, JsonRead.is_digit. intros H.
  repeat (apply orb_true_iff in H as [H|H]);
    try (apply N.eqb_eq in H; lia).
  apply andb_true_iff in H as [H _]. apply N.leb_le in H. lia.
Qed.

Lemma floatstr_printable (x : PyFloat.float) :
  Forall (fun c => (32 <= c)%N) (Json.floatstr x).
Proof.
  destruct x as [[]|[]| |s m e].
  6: { destruct (floatstr_finite_text s m e) as [Ht _].
       eapply Forall_impl; [exact Ht|]. intros c. apply num_char_printable. }
  all: apply (bool_decide_unpack _); by vm_compute.
Qed.

Definition layout_char (c : char) : Prop := c = 10%N \/ (32 <= c)%N.

Lemma printable_layout (s : str) :
  Forall (fun c => (32 <= c)%N) s -> Forall layout_char s.
Proof. intros H. eapply Forall_impl; [exact H|]. intros c Hc. by right. Qed.

Lemma join_layout (sep : str) (l : list str) :
  Forall layout_char sep -> Forall (Forall layout_char) l ->
  Forall layout_char (Json.join sep l).
Proof.
  intros Hsep Hl. induction Hl as [|x l Hx Hl IH]; [constructor|].
  destruct l as [|y l]; [exact Hx|].
  change (Json.join sep (x :: y :: l)) with (x ++ sep ++ Json.join sep (y :: l)).
  by repeat (apply Forall_app; split).
Qed.

Lemma literal_layout (s : str) :
  bool_decide (Forall (fun c => c = 10%N \/ (32 <= c)%N) s) = true ->
  Forall layout_char s.
Proof. intros H. by apply bool_decide_eq_true in H. Qed.

Ltac layout_chars :=
  lazymatch goal with
  | H : Forall layout_char ?s |- Forall layout_char ?s => exact H
  | |- Forall layout_char (_ ++ _) => apply Forall_app; split; layout_chars
  | |- Forall layout_char (Json.floatstr _) =>
      apply printable_layout, floatstr_printable
  | |- Forall layout_char (Json.encode_basestring _) =>
      apply printable_layout, encode_basestring_printable
  | |- Forall layout_char (member_line _ _ _) =>
      unfold member_line; layout_chars
  | |- Forall layout_char (quoted _) => unfold quoted; layout_chars
  | |- Forall layout_char (indent _) =>
      unfold indent; apply Forall_replicate; by right
  | |- Forall layout_char _ => by apply literal_layout
  end.

Lemma segment_text_layout (seg : Segment) :
  Forall layout_char (segment_text seg).
Proof. unfold segment_text. layout_chars. Qed.

Lemma segments_text_layout (segs : list Segment) :
  Forall layout_char (segments_text segs).
Proof.
  unfold segments_text. destruct segs as [|seg segs];
    [by apply literal_layout|].
  assert (Hjoin : Forall layout_char
                    (Json.join (lit "," ++ nl ++ indent 2)
                       (map segment_text (seg :: segs)))).
  { apply join_layout; [layout_chars|].
    apply Forall_map, Forall_forall. intros s _. apply segment_text_layout. }
  layout_chars.
Qed.

(** X19. The [json] file holds no character below U+0020 but the line
    breaks of its layout, and none at all inside a string: whatever the
    text of a segment contains (tabs, line breaks, other control
    characters), it is written escaped, on one line. *)
Theorem json_file_characters (result : Transcription) :
  (forall s : str, Forall (fun c => (32 <= c)%N) (Json.encode_basestring s))
  /\ Forall (fun c => c = 10%N \/ (32 <= c)%N)
       (Json.dumps (output_data result)).
Proof.
  split; [apply encode_basestring_printable|].
  rewrite dumps_layout. change (Forall layout_char (json_text result)).
  pose proof (segments_text_layout (r_segments result)) as Hsegs.
  unfold json_text. layout_chars.
Qed.

(** ** The name of the per-video directory *)

Lemma rfind_dot_none (s : str) :
  ~ In Path.dot s -> Path.rfind_dot s = None.
Proof.
  induction s as [|c s IH]; intros H; [reflexivity|].
  cbn [Path.rfind_dot]. rewrite IH by (intros Hin; apply H; by right).
  destruct (N.eqb_spec c Path.dot) as [->|_]; [|reflexivity].
  exfalso. apply H. by left.
Qed.

Lemma rfind_dot_last (base ext : str) :
  ~ In Path.dot ext ->
  Path.rfind_dot (base ++ Path.dot :: ext) = Some (length base).
Proof.
  intros Hext. induction base as [|c base IH].
  - cbn [app Path.rfind_dot length]. rewrite rfind_dot_none by exact Hext.
    by rewrite N.eqb_refl.
  - cbn [app Path.rfind_dot length]. by rewrite IH.
Qed.

Lemma stem_of_name (root : str) (dirs : list str) (base ext : str) :
  base <> [] -> ext <> [] -> ~ In Path.dot ext ->
  Path.stem {| Path.root := root;
               Path.parts := dirs ++ [base ++ Path.dot :: ext] |}
  = base.
Proof.
  intros Hb He Hd. unfold Path.stem, Path.name. cbn [Path.parts].
  rewrite last_last. rewrite rfind_dot_last by exact Hd.
  rewrite length_app. cbn [length].
  destruct base as [|b base]; [done|]. destruct ext as [|x ext]; [done|].
  cbn [length].
  replace (0 <? S (length base))%nat with true
    by (symmetry; apply Nat.ltb_lt; lia).
  replace (S (length base) <? S (length base) + S (S (length ext)) - 1)%nat
    with true by (symmetry; apply Nat.ltb_lt; lia).
  cbn [andb]. change (S (length base)) with (length (b :: base)).
  by rewrite take_app_length.
Qed.

(** X20. The per-video directory and the names of the files in it come
    from the stem of the file name, that is the name without its last
    suffix: for a video named [<base>.<ext>], in the working directory or
    in [input/], the renderings go to
    [output/<base>/<base>_transcription.<fmt>]. Two videos that differ
    only in that suffix therefore write to the same files. *)
Theorem output_named_after_stem (base ext f : str) :
  plain base -> ext <> [] -> ~ In Path.dot ext -> ~ In Path.slash ext ->
  In f known_formats ->
  let name := base ++ [Path.dot] ++ ext in
  Path.stem (Path.parse name) = base
  /\ Path.stem (Path.joinpath input_dir name) = base
  /\ Path.to_str
       (Path.joinpath (Path.joinpath output_dir (Path.stem (Path.parse name)))
          (Path.stem (Path.parse name) ++ lit "_transcription." ++ f))
     = lit "output/" ++ base ++ lit "/" ++ base ++ lit "_transcription." ++ f.
Proof.
  intros Hb He Hd Hs Hf name. destruct Hb as (Hbs & Hbne & Hbd).
  assert (Hplain : plain name).
  { unfold name. split; [|split].
    - rewrite !in_app_iff. intros [H|[H|H]]; [by apply Hbs| |by apply Hs].
      destruct H as [H|[]]. discriminate H.
    - intros H. by destruct base.
    - intros H. apply (f_equal (@length _)) in H. rewrite !length_app in H.
      destruct base; [done|]. destruct ext; [done|]. cbn in H. lia. }
  assert (H1 : Path.stem (Path.parse name) = base).
  { rewrite parse_plain by exact Hplain.
    apply (stem_of_name [] [] base ext); assumption. }
  split; [exact H1|]. split.
  - rewrite joinpath_plain by exact Hplain.
    apply (stem_of_name _ _ base ext); assumption.
  - rewrite H1. by apply default_path_string.
Qed.

Lemma output_named_after_stem_witness :
  Path.stem (Path.parse (lit "talk.final" ++ [Path.dot] ++ lit "mp4"))
  = lit "talk.final".
Proof.
  apply (output_named_after_stem (lit "talk.final") (lit "mp4") (lit "srt")).
  - vm_compute. intuition discriminate.
  - discriminate.
  - vm_compute. intuition discriminate.
  - vm_compute. intuition discriminate.
  - vm_compute. tauto.
Defined.

(** ** Numbers in the subtitle files *)

(** X21. The numbers written in the subtitle files are decimal numerals
    that read back as themselves: [int(str(i)) == i] for the index line of
    a cue, and [int(f"{v:0<w>d}") == v] for the zero-padded fields of a
    timestamp, which are never shorter than their width. *)
Theorem numerals_read_back (z : Z) (width : nat) :
  0 <= z ->
  JsonRead.int_of_digits (str_of_int z) = z
  /\ JsonRead.int_of_digits (format_0d width z) = z
  /\ (width <= length (format_0d width z))%nat
  /\ Forall (fun c => JsonRead.is_digit c = true) (format_0d width z).
Proof.
  intros Hz. unfold str_of_int, format_0d, zfill.
  destruct (Z.ltb_spec z 0) as [|_]; [lia|].
  rewrite digits_value_zeros, digits_value_digits.
  split; [lia|]. split; [lia|]. split.
  - rewrite length_app, length_replicate. lia.
  - apply Forall_app. split; [|apply digits_digits].
    apply Forall_replicate. reflexivity.
Qed.

Lemma numerals_read_back_witness :
  JsonRead.int_of_digits (format_0d 3 42) = 42.
Proof.
  apply (numerals_read_back 42 3). lia.
Defined.
